(** * Equipment-rental tracker (app.js): ledger store and rental status

    A shallow embedding of the data store, the seeding routine, the
    check-out / check-in / add-equipment handlers and the status
    derivations of the dashboard and history views of [app.js], with the
    properties of the ledger proved or refuted on it.

    Conventions of the embedding.
    - Timestamps.  [Date.now()] is an integer number of milliseconds, and
      [new Date(ms).toISOString()] followed by [new Date(iso)] gives [ms]
      back, so an ISO string is represented by the millisecond count it
      denotes ([Z]).  A handler runs at one instant: every [Date.now()] and
      [new Date()] inside one handler reads the same [clock].
    - [returnedAt] is [null] or a (non-empty, hence truthy) ISO string:
      [option Z], and [!r.returnedAt] is "is [None]".
    - A serialised collection is represented by the collection it encodes
      ([Stored]); [JSON.parse (JSON.stringify v)] is [v] on the data of this
      application (strings, integers, [null], arrays and plain objects).
    - Every fallible browser call ([clear], [getItem], [JSON.parse],
      [JSON.stringify], [setItem]) consumes one entry of the fault schedule
      [faults] of the world and throws when that entry is [true]; an
      exhausted schedule means that nothing fails any more.
    - The DOM is not modelled: a render function is the data it displays.
      The click listeners that [renderDashboard] registers on [#app] are
      not part of the world either: where a click is modelled, their
      number is a parameter of the click.
    - Numbers.  Timestamps, spans and day counts are exact integers.  The
      code computes them in doubles, which is the same as long as a span
      stays within 2^53 ms; a property of a span between two stored dates
      assumes that. *)

From stdpp Require Import gmap strings list fin_maps sorting.
From Stdlib Require Import ZArith Lia Ascii.

(* ------------------------------------------------------------------ *)
(** ** Data models *)
(* ------------------------------------------------------------------ *)

(** [asset.status]: the two strings the application ever writes. *)
Inductive Status := idle | rented.

Global Instance Status_eq_dec : EqDecision Status.
Proof. solve_decision. Defined.

(** asset: { id, name, category, site, status, lastSeenAt, imageEmoji,
    description, quantity } *)
Module Asset.
Record t := mk {
  id : string;
  name : string;
  category : string;
  site : string;
  status : Status;
  lastSeenAt : Z;
  imageEmoji : string;
  description : string;
  quantity : Z }.
End Asset.

Module Customer.
Record t := mk { name : string; phone : string; email : string }.
End Customer.

(** rental: { id, assetId, site, checkOutAt, checkInAt, customer,
    fuelAtStart, odometerAtStart, notes, createdAt, returnedAt } *)
Module Rental.
Record t := mk {
  id : string;
  assetId : string;
  site : string;
  checkOutAt : Z;
  checkInAt : Z;
  customer : Customer.t;
  fuelAtStart : Z;
  odometerAtStart : Z;
  notes : string;
  createdAt : Z;
  returnedAt : option Z }.
End Rental.

(** { version, seededAt } *)
Module Meta.
Record t := mk { version : string; seededAt : Z }.
End Meta.

Global Instance Asset_eq_dec : EqDecision Asset.t.
Proof. solve_decision. Defined.

Global Instance Customer_eq_dec : EqDecision Customer.t.
Proof. solve_decision. Defined.

Global Instance Rental_eq_dec : EqDecision Rental.t.
Proof. solve_decision. Defined.

Global Instance Meta_eq_dec : EqDecision Meta.t.
Proof. solve_decision. Defined.

(** What a key of [localStorage] holds: one serialised collection. *)
Inductive Stored :=
| SAssets (l : list Asset.t)
| SRentals (l : list Rental.t)
| SMeta (m : Meta.t).

(** The caller of [storage.get] uses the parsed value as the array it
    expects; only arrays of the right shape are ever written under a key. *)
Definition asAssets (v : Stored) : list Asset.t :=
  match v with SAssets l => l | _ => [] end.

Definition asRentals (v : Stored) : list Rental.t :=
  match v with SRentals l => l | _ => [] end.

Definition APP_VERSION : string := "1.0.0".

Module DB_KEYS.
Definition assets : string := "srt_assets".
Definition rentals : string := "srt_rentals".
Definition meta : string := "srt_meta".
End DB_KEYS.

Definition DAY : Z := 24 * 60 * 60 * 1000.

(* ------------------------------------------------------------------ *)
(** ** The browser: world state and a state-and-exception monad *)
(* ------------------------------------------------------------------ *)

Record World := mkWorld {
  localStorage : gmap string Stored;
  clock : Z;                          (* Date.now() *)
  faults : list bool;                 (* fault schedule of the browser calls *)
  console : list (string * string);   (* console.error (label, error) *)
  alerts : list string;               (* alert (message) *)
  location_hash : string }.           (* window.location.hash *)

Definition set_localStorage (f : gmap string Stored → gmap string Stored)
    (w : World) : World :=
  mkWorld (f (localStorage w)) (clock w) (faults w) (console w) (alerts w)
          (location_hash w).

Definition set_faults (fs : list bool) (w : World) : World :=
  mkWorld (localStorage w) (clock w) fs (console w) (alerts w) (location_hash w).

Inductive Result (A : Type) :=
| Ok (a : A)
| Throw (e : string).
Arguments Ok {A} a.
Arguments Throw {A} e.

Definition JS (A : Type) : Type := World → Result A * World.

Definition ret {A} (a : A) : JS A := λ w, (Ok a, w).

Definition bind {A B} (m : JS A) (k : A → JS B) : JS B :=
  λ w, match m w with
       | (Ok a, w') => k a w'
       | (Throw e, w') => (Throw e, w')
       end.

Definition throw {A} (e : string) : JS A := λ w, (Throw e, w).

(** [try { m } catch (e) { h e }] *)
Definition try_catch {A} (m : JS A) (h : string → JS A) : JS A :=
  λ w, match m w with
       | (Ok a, w') => (Ok a, w')
       | (Throw e, w') => h e w'
       end.

(** [x ← m; k] and [m;; k] are stdpp's notations for [bind]. *)
Global Instance JS_ret : MRet JS := @ret.
Global Instance JS_bind : MBind JS := λ A B k m, bind m k.

Definition gets {A} (f : World → A) : JS A := λ w, (Ok (f w), w).
Definition modify (f : World → World) : JS unit := λ w, (Ok tt, f w).

(** The world after running [m], and the value it returns. *)
Definition exec {A} (m : JS A) (w : World) : World := snd (m w).
Definition outcome {A} (m : JS A) (w : World) : Result A := fst (m w).

(** One fallible browser call: the next entry of the schedule decides. *)
Definition fallible (e : string) : JS unit :=
  λ w, match faults w with
       | true :: fs => (Throw e, set_faults fs w)
       | false :: fs => (Ok tt, set_faults fs w)
       | [] => (Ok tt, w)
       end.

Definition localStorage_getItem (key : string) : JS (option Stored) :=
  fallible "SecurityError";; gets (λ w, localStorage w !! key).

(** [setItem] either stores the whole string or throws and stores nothing. *)
Definition localStorage_setItem (key : string) (raw : Stored) : JS unit :=
  fallible "QuotaExceededError";;
  modify (set_localStorage (λ m, <[key := raw]> m)).

(** [localStorage.clear()]: like every access to [localStorage] it throws
    when storage is unavailable, and then removes nothing. *)
Definition localStorage_clear : JS unit :=
  fallible "SecurityError";;
  modify (set_localStorage (λ _, ∅)).

Definition JSON_parse (raw : Stored) : JS Stored :=
  fallible "SyntaxError";; ret raw.

Definition JSON_stringify (value : Stored) : JS Stored :=
  fallible "TypeError";; ret value.

Definition Date_now : JS Z := gets clock.

Definition console_error (label e : string) : JS unit :=
  modify (λ w, mkWorld (localStorage w) (clock w) (faults w)
                       (console w ++ [(label, e)]) (alerts w) (location_hash w)).

Definition alert (msg : string) : JS unit :=
  modify (λ w, mkWorld (localStorage w) (clock w) (faults w)
                       (console w) (alerts w ++ [msg]) (location_hash w)).

(** function navigate(path) { window.location.hash = path; } *)
Definition navigate (path : string) : JS unit :=
  modify (λ w, mkWorld (localStorage w) (clock w) (faults w)
                       (console w) (alerts w) path).

(* ------------------------------------------------------------------ *)
(** ** Storage *)
(* ------------------------------------------------------------------ *)

Module storage.
(** get(key, fallback) {
      try { const raw = localStorage.getItem(key);
            return raw ? JSON.parse(raw) : fallback; }
      catch (e) { console.error('storage.get error', e); return fallback; } } *)
Definition get (key : string) (fallback : Stored) : JS Stored :=
  try_catch
    (raw ← localStorage_getItem key;
     match raw with
     | Some r => JSON_parse r
     | None => ret fallback
     end)
    (λ e, console_error "storage.get error" e;; ret fallback).

(** set(key, value) {
      try { localStorage.setItem(key, JSON.stringify(value)); }
      catch (e) { console.error('storage.set error', e); } } *)
Definition set (key : string) (value : Stored) : JS unit :=
  try_catch
    (raw ← JSON_stringify value;
     localStorage_setItem key raw)
    (λ e, console_error "storage.set error" e).
End storage.

Definition getAssets : JS (list Asset.t) :=
  v ← storage.get DB_KEYS.assets (SAssets []); ret (asAssets v).
Definition setAssets (list : list Asset.t) : JS unit :=
  storage.set DB_KEYS.assets (SAssets list).
Definition getRentals : JS (list Rental.t) :=
  v ← storage.get DB_KEYS.rentals (SRentals []); ret (asRentals v).
Definition setRentals (list : list Rental.t) : JS unit :=
  storage.set DB_KEYS.rentals (SRentals list).

(* ------------------------------------------------------------------ *)
(** ** Seeding *)
(* ------------------------------------------------------------------ *)

(** The [demoAssets] literal; [now] is the value of [Date.now()]. *)
Definition demoAssets (now : Z) : list Asset.t :=
  [
    Asset.mk "exc-320-1" "Excavator CAT 320" "Excavator" "Yard A" rented now "‚õèÔ∏è"
      "20-ton hydraulic excavator with advanced digging capabilities. Features: 1.2 cubic yard bucket, 320¬∞ swing radius, 25.5 ft digging depth. Perfect for foundation work and utility installation." 3;
    Asset.mk "exc-320-2" "Excavator CAT 320" "Excavator" "Yard A" idle now "‚õèÔ∏è"
      "20-ton hydraulic excavator with advanced digging capabilities. Features: 1.2 cubic yard bucket, 320¬∞ swing radius, 25.5 ft digging depth. Perfect for foundation work and utility installation." 3;
    Asset.mk "exc-320-3" "Excavator CAT 320" "Excavator" "Yard A" idle now "‚õèÔ∏è"
      "20-ton hydraulic excavator with advanced digging capabilities. Features: 1.2 cubic yard bucket, 320¬∞ swing radius, 25.5 ft digging depth. Perfect for foundation work and utility installation." 3;
    Asset.mk "exc-330-1" "Excavator CAT 330" "Excavator" "Yard B" idle now "‚õèÔ∏è"
      "30-ton excavator with intelligent hydraulic system and GPS guidance. Features: 1.6 cubic yard bucket, 360¬∞ swing, 30 ft digging depth. Ideal for large construction projects and mining operations." 2;
    Asset.mk "exc-330-2" "Excavator CAT 330" "Excavator" "Yard B" idle now "‚õèÔ∏è"
      "30-ton excavator with intelligent hydraulic system and GPS guidance. Features: 1.6 cubic yard bucket, 360¬∞ swing, 30 ft digging depth. Ideal for large construction projects and mining operations." 2;
    Asset.mk "exc-349-1" "Excavator CAT 349" "Excavator" "Yard C" idle now "‚õèÔ∏è"
      "50-ton heavy-duty excavator with reinforced undercarriage. Features: 2.5 cubic yard bucket, 40 ft digging depth, 400 hp engine. Designed for extreme mining and large-scale earthmoving." 1;
    Asset.mk "ldr-950-1" "Wheel Loader CAT 950" "Loader" "Yard A" rented now "üöú"
      "3.5 cubic yard wheel loader with high-torque engine. Features: 4WD, 200 hp, 8.5 ft lift height. Perfect for material handling, loading trucks, and stockpile management." 4;
    Asset.mk "ldr-950-2" "Wheel Loader CAT 950" "Loader" "Yard A" idle now "üöú"
      "3.5 cubic yard wheel loader with high-torque engine. Features: 4WD, 200 hp, 8.5 ft lift height. Perfect for material handling, loading trucks, and stockpile management." 4;
    Asset.mk "ldr-950-3" "Wheel Loader CAT 950" "Loader" "Yard A" idle now "üöú"
      "3.5 cubic yard wheel loader with high-torque engine. Features: 4WD, 200 hp, 8.5 ft lift height. Perfect for material handling, loading trucks, and stockpile management." 4;
    Asset.mk "ldr-950-4" "Wheel Loader CAT 950" "Loader" "Yard A" idle now "üöú"
      "3.5 cubic yard wheel loader with high-torque engine. Features: 4WD, 200 hp, 8.5 ft lift height. Perfect for material handling, loading trucks, and stockpile management." 4;
    Asset.mk "ldr-966-1" "Wheel Loader CAT 966" "Loader" "Yard B" idle now "üöú"
      "6 cubic yard wheel loader with advanced load-sensing hydraulics. Features: 300 hp, 12 ft lift height, 4WD. Excellent for heavy material handling and large-scale operations." 2;
    Asset.mk "ldr-966-2" "Wheel Loader CAT 966" "Loader" "Yard B" idle now "üöú"
      "6 cubic yard wheel loader with advanced load-sensing hydraulics. Features: 300 hp, 12 ft lift height, 4WD. Excellent for heavy material handling and large-scale operations." 2;
    Asset.mk "ldr-980-1" "Wheel Loader CAT 980" "Loader" "Yard C" idle now "üöú"
      "8 cubic yard wheel loader with high-capacity bucket. Features: 400 hp, 15 ft lift height, reinforced frame. Designed for maximum productivity in large-scale material handling." 1;
    Asset.mk "dmp-730-1" "Dump Truck CAT 730" "Truck" "Yard A" idle now "üöõ"
      "30-ton articulated dump truck with all-wheel drive. Features: 350 hp, 20 cubic yard capacity, 40 mph max speed. Perfect for off-road hauling and construction sites." 3;
    Asset.mk "dmp-730-2" "Dump Truck CAT 730" "Truck" "Yard A" idle now "üöõ"
      "30-ton articulated dump truck with all-wheel drive. Features: 350 hp, 20 cubic yard capacity, 40 mph max speed. Perfect for off-road hauling and construction sites." 3;
    Asset.mk "dmp-730-3" "Dump Truck CAT 730" "Truck" "Yard A" idle now "üöõ"
      "30-ton articulated dump truck with all-wheel drive. Features: 350 hp, 20 cubic yard capacity, 40 mph max speed. Perfect for off-road hauling and construction sites." 3;
    Asset.mk "dmp-740-1" "Dump Truck CAT 740" "Truck" "Yard B" idle now "üöõ"
      "40-ton articulated dump truck with advanced suspension. Features: 450 hp, 25 cubic yard capacity, 45 mph max speed. Ideal for heavy-duty hauling operations." 2;
    Asset.mk "dmp-740-2" "Dump Truck CAT 740" "Truck" "Yard B" idle now "üöõ"
      "40-ton articulated dump truck with advanced suspension. Features: 450 hp, 25 cubic yard capacity, 45 mph max speed. Ideal for heavy-duty hauling operations." 2;
    Asset.mk "dmp-750-1" "Dump Truck CAT 750" "Truck" "Yard C" idle now "üöõ"
      "50-ton articulated dump truck with reinforced chassis. Features: 550 hp, 30 cubic yard capacity, 50 mph max speed. Built for extreme hauling conditions." 1;
    Asset.mk "blt-d6-1" "Bulldozer CAT D6" "Bulldozer" "Yard A" idle now "üöú"
      "Medium-sized bulldozer with 12-foot blade. Features: 200 hp, 6-way blade control, GPS guidance. Perfect for grading, leveling, and earthmoving operations." 3;
    Asset.mk "blt-d6-2" "Bulldozer CAT D6" "Bulldozer" "Yard A" idle now "üöú"
      "Medium-sized bulldozer with 12-foot blade. Features: 200 hp, 6-way blade control, GPS guidance. Perfect for grading, leveling, and earthmoving operations." 3;
    Asset.mk "blt-d6-3" "Bulldozer CAT D6" "Bulldozer" "Yard A" idle now "üöú"
      "Medium-sized bulldozer with 12-foot blade. Features: 200 hp, 6-way blade control, GPS guidance. Perfect for grading, leveling, and earthmoving operations." 3;
    Asset.mk "blt-d8-1" "Bulldozer CAT D8" "Bulldozer" "Yard B" idle now "üöú"
      "Large bulldozer with 16-foot blade and high horsepower. Features: 350 hp, 8-way blade control, ripper attachment. Designed for heavy construction and mining work." 2;
    Asset.mk "blt-d8-2" "Bulldozer CAT D8" "Bulldozer" "Yard B" idle now "üöú"
      "Large bulldozer with 16-foot blade and high horsepower. Features: 350 hp, 8-way blade control, ripper attachment. Designed for heavy construction and mining work." 2;
    Asset.mk "blt-d9-1" "Bulldozer CAT D9" "Bulldozer" "Yard C" idle now "üöú"
      "Extra-large bulldozer with 18-foot blade. Features: 500 hp, 10-way blade control, extreme duty undercarriage. Built for the most demanding earthmoving projects." 1;
    Asset.mk "crn-120-1" "Crane CAT 120" "Crane" "Yard A" idle now "üèóÔ∏è"
      "120-ton mobile crane with telescopic boom. Features: 150 ft max reach, 360¬∞ rotation, outrigger stabilization. Perfect for construction and industrial lifting operations." 2;
    Asset.mk "crn-120-2" "Crane CAT 120" "Crane" "Yard A" idle now "üèóÔ∏è"
      "120-ton mobile crane with telescopic boom. Features: 150 ft max reach, 360¬∞ rotation, outrigger stabilization. Perfect for construction and industrial lifting operations." 2;
    Asset.mk "crn-200-1" "Crane CAT 200" "Crane" "Yard B" idle now "üèóÔ∏è"
      "200-ton mobile crane with extended reach capabilities. Features: 200 ft max reach, computerized load monitoring, 400¬∞ rotation. Ideal for large-scale construction projects." 1;
    Asset.mk "gen-150-1" "Generator CAT 150kVA" "Generator" "Yard A" idle now "‚ö°"
      "150kVA diesel generator with automatic transfer switch. Features: 120kW output, 400V/3-phase, fuel tank monitoring. Perfect for backup power and remote site operations." 4;
    Asset.mk "gen-150-2" "Generator CAT 150kVA" "Generator" "Yard A" idle now "‚ö°"
      "150kVA diesel generator with automatic transfer switch. Features: 120kW output, 400V/3-phase, fuel tank monitoring. Perfect for backup power and remote site operations." 4;
    Asset.mk "gen-150-3" "Generator CAT 150kVA" "Generator" "Yard A" idle now "‚ö°"
      "150kVA diesel generator with automatic transfer switch. Features: 120kW output, 400V/3-phase, fuel tank monitoring. Perfect for backup power and remote site operations." 4;
    Asset.mk "gen-150-4" "Generator CAT 150kVA" "Generator" "Yard A" idle now "‚ö°"
      "150kVA diesel generator with automatic transfer switch. Features: 120kW output, 400V/3-phase, fuel tank monitoring. Perfect for backup power and remote site operations." 4;
    Asset.mk "gen-300-1" "Generator CAT 300kVA" "Generator" "Yard B" idle now "‚ö°"
      "300kVA industrial generator with advanced monitoring. Features: 240kW output, 480V/3-phase, remote monitoring capabilities. Designed for large construction sites and industrial applications." 2;
    Asset.mk "gen-300-2" "Generator CAT 300kVA" "Generator" "Yard B" idle now "‚ö°"
      "300kVA industrial generator with advanced monitoring. Features: 240kW output, 480V/3-phase, remote monitoring capabilities. Designed for large construction sites and industrial applications." 2;
    Asset.mk "gen-500-1" "Generator CAT 500kVA" "Generator" "Yard C" idle now "‚ö°"
      "500kVA heavy-duty generator with industrial controls. Features: 400kW output, 600V/3-phase, dual fuel capability. Built for mining and large industrial operations." 1;
    Asset.mk "com-140-1" "Compactor CAT 140" "Compactor" "Yard A" idle now "üõ£Ô∏è"
      "14-ton vibratory soil compactor with intelligent compaction control. Features: 4,000 VPM, 2.5 ft drum width, GPS tracking. Perfect for road construction and soil compaction." 3;
    Asset.mk "com-140-2" "Compactor CAT 140" "Compactor" "Yard A" idle now "üõ£Ô∏è"
      "14-ton vibratory soil compactor with intelligent compaction control. Features: 4,000 VPM, 2.5 ft drum width, GPS tracking. Perfect for road construction and soil compaction." 3;
    Asset.mk "com-140-3" "Compactor CAT 140" "Compactor" "Yard A" idle now "üõ£Ô∏è"
      "14-ton vibratory soil compactor with intelligent compaction control. Features: 4,000 VPM, 2.5 ft drum width, GPS tracking. Perfect for road construction and soil compaction." 3;
    Asset.mk "com-160-1" "Compactor CAT 160" "Compactor" "Yard B" idle now "üõ£Ô∏è"
      "16-ton vibratory soil compactor with advanced compaction technology. Features: 4,500 VPM, 3 ft drum width, automatic grade control. Ideal for highway construction and large-scale compaction." 2;
    Asset.mk "com-160-2" "Compactor CAT 160" "Compactor" "Yard B" idle now "üõ£Ô∏è"
      "16-ton vibratory soil compactor with advanced compaction technology. Features: 4,500 VPM, 3 ft drum width, automatic grade control. Ideal for highway construction and large-scale compaction." 2;
    Asset.mk "gra-12-1" "Grader CAT 12" "Grader" "Yard A" idle now "üõ£Ô∏è"
      "12-foot motor grader with precision blade control. Features: 200 hp, 6-way blade, GPS guidance system. Perfect for road construction and surface finishing." 3;
    Asset.mk "gra-12-2" "Grader CAT 12" "Grader" "Yard A" idle now "üõ£Ô∏è"
      "12-foot motor grader with precision blade control. Features: 200 hp, 6-way blade, GPS guidance system. Perfect for road construction and surface finishing." 3;
    Asset.mk "gra-12-3" "Grader CAT 12" "Grader" "Yard A" idle now "üõ£Ô∏è"
      "12-foot motor grader with precision blade control. Features: 200 hp, 6-way blade, GPS guidance system. Perfect for road construction and surface finishing." 3;
    Asset.mk "gra-14-1" "Grader CAT 14" "Grader" "Yard B" idle now "üõ£Ô∏è"
      "14-foot motor grader with advanced control systems. Features: 250 hp, 8-way blade, automatic grade control. Designed for large-scale road construction projects." 2;
    Asset.mk "gra-14-2" "Grader CAT 14" "Grader" "Yard B" idle now "üõ£Ô∏è"
      "14-foot motor grader with advanced control systems. Features: 250 hp, 8-way blade, automatic grade control. Designed for large-scale road construction projects." 2;
    Asset.mk "gra-16-1" "Grader CAT 16" "Grader" "Yard C" idle now "üõ£Ô∏è"
      "16-foot motor grader with maximum productivity features. Features: 300 hp, 10-way blade, intelligent grade control. Built for highway and major road construction." 1;
    Asset.mk "rol-120-1" "Roller CAT 120" "Roller" "Yard A" idle now "üõ£Ô∏è"
      "12-ton smooth drum roller with vibration control. Features: 2.5 ft drum width, 3,000 VPM, automatic grade control. Perfect for asphalt and soil compaction." 4;
    Asset.mk "rol-120-2" "Roller CAT 120" "Roller" "Yard A" idle now "üõ£Ô∏è"
      "12-ton smooth drum roller with vibration control. Features: 2.5 ft drum width, 3,000 VPM, automatic grade control. Perfect for asphalt and soil compaction." 4;
    Asset.mk "rol-120-3" "Roller CAT 120" "Roller" "Yard A" idle now "üõ£Ô∏è"
      "12-ton smooth drum roller with vibration control. Features: 2.5 ft drum width, 3,000 VPM, automatic grade control. Perfect for asphalt and soil compaction." 4;
    Asset.mk "rol-120-4" "Roller CAT 120" "Roller" "Yard A" idle now "üõ£Ô∏è"
      "12-ton smooth drum roller with vibration control. Features: 2.5 ft drum width, 3,000 VPM, automatic grade control. Perfect for asphalt and soil compaction." 4;
    Asset.mk "rol-140-1" "Roller CAT 140" "Roller" "Yard B" idle now "üõ£Ô∏è"
      "14-ton tandem roller with dual drum technology. Features: 3 ft drum width, 3,500 VPM, GPS tracking. Excellent for highway and road construction." 2;
    Asset.mk "rol-140-2" "Roller CAT 140" "Roller" "Yard B" idle now "üõ£Ô∏è"
      "14-ton tandem roller with dual drum technology. Features: 3 ft drum width, 3,500 VPM, GPS tracking. Excellent for highway and road construction." 2;
    Asset.mk "rol-160-1" "Roller CAT 160" "Roller" "Yard C" idle now "üõ£Ô∏è"
      "16-ton pneumatic roller with advanced compaction control. Features: 3.5 ft drum width, 4,000 VPM, automatic grade control. Built for heavy-duty compaction operations." 1;
    Asset.mk "skd-262-1" "Skid Steer CAT 262" "Skid Steer" "Yard A" idle now "üöú"
      "2.6-ton skid steer loader with versatile attachments. Features: 74 hp, 2,600 lb lift capacity, 8.5 ft lift height. Perfect for tight spaces and versatile material handling." 5;
    Asset.mk "skd-262-2" "Skid Steer CAT 262" "Skid Steer" "Yard A" idle now "üöú"
      "2.6-ton skid steer loader with versatile attachments. Features: 74 hp, 2,600 lb lift capacity, 8.5 ft lift height. Perfect for tight spaces and versatile material handling." 5;
    Asset.mk "skd-262-3" "Skid Steer CAT 262" "Skid Steer" "Yard A" idle now "üöú"
      "2.6-ton skid steer loader with versatile attachments. Features: 74 hp, 2,600 lb lift capacity, 8.5 ft lift height. Perfect for tight spaces and versatile material handling." 5;
    Asset.mk "skd-262-4" "Skid Steer CAT 262" "Skid Steer" "Yard A" idle now "üöú"
      "2.6-ton skid steer loader with versatile attachments. Features: 74 hp, 2,600 lb lift capacity, 8.5 ft lift height. Perfect for tight spaces and versatile material handling." 5;
    Asset.mk "skd-262-5" "Skid Steer CAT 262" "Skid Steer" "Yard A" idle now "üöú"
      "2.6-ton skid steer loader with versatile attachments. Features: 74 hp, 2,600 lb lift capacity, 8.5 ft lift height. Perfect for tight spaces and versatile material handling." 5;
    Asset.mk "skd-272-1" "Skid Steer CAT 272" "Skid Steer" "Yard B" idle now "üöú"
      "2.7-ton skid steer with advanced hydraulic system. Features: 82 hp, 2,700 lb lift capacity, 9 ft lift height. Designed for precision work and heavy material handling." 3;
    Asset.mk "skd-272-2" "Skid Steer CAT 272" "Skid Steer" "Yard B" idle now "üöú"
      "2.7-ton skid steer with advanced hydraulic system. Features: 82 hp, 2,700 lb lift capacity, 9 ft lift height. Designed for precision work and heavy material handling." 3;
    Asset.mk "skd-272-3" "Skid Steer CAT 272" "Skid Steer" "Yard B" idle now "üöú"
      "2.7-ton skid steer with advanced hydraulic system. Features: 82 hp, 2,700 lb lift capacity, 9 ft lift height. Designed for precision work and heavy material handling." 3;
    Asset.mk "skd-289-1" "Skid Steer CAT 289" "Skid Steer" "Yard C" idle now "üöú"
      "2.9-ton skid steer with maximum lift capacity. Features: 90 hp, 2,900 lb lift capacity, 10 ft lift height. Built for heavy material handling and maximum productivity." 2;
    Asset.mk "skd-289-2" "Skid Steer CAT 289" "Skid Steer" "Yard C" idle now "üöú"
      "2.9-ton skid steer with maximum lift capacity. Features: 90 hp, 2,900 lb lift capacity, 10 ft lift height. Built for heavy material handling and maximum productivity." 2
  ].

(** The [demoRentals] literal: one active rental due in two days, one
    active rental due a day ago, one rental returned a day late. *)
Definition demoRentals (now : Z) : list Rental.t :=
  [ Rental.mk "r_demo1" "exc-320-1" "Construction Site A"
      (now - 7 * 24 * 60 * 60 * 1000)
      (now + 2 * 24 * 60 * 60 * 1000)
      (Customer.mk "John Smith" "+1-555-0123" "john@construction.com")
      85 1250 "Site excavation work"
      (now - 7 * 24 * 60 * 60 * 1000)
      None;
    Rental.mk "r_demo2" "ldr-950-1" "Mining Site B"
      (now - 3 * 24 * 60 * 60 * 1000)
      (now - 1 * 24 * 60 * 60 * 1000)
      (Customer.mk "Sarah Johnson" "+1-555-0456" "sarah@mining.com")
      90 2100 "Material loading operations"
      (now - 3 * 24 * 60 * 60 * 1000)
      None;
    Rental.mk "r_demo3" "gen-150-1" "Event Center"
      (now - 10 * 24 * 60 * 60 * 1000)
      (now - 8 * 24 * 60 * 60 * 1000)
      (Customer.mk "Mike Wilson" "+1-555-0789" "mike@events.com")
      75 500 "Backup power for outdoor event"
      (now - 10 * 24 * 60 * 60 * 1000)
      (Some (now - 7 * 24 * 60 * 60 * 1000)%Z) ].

(** function seedIfEmpty(): clears the whole store, reads the assets back,
    returns if there are any, and otherwise writes the demo data.  The
    [clear] is outside every [try]: when it throws, so does seeding. *)
Definition seedIfEmpty : JS unit :=
  localStorage_clear;;
  v ← storage.get DB_KEYS.assets (SAssets []);
  let assets := asAssets v in
  if bool_decide (0 < length assets) then ret tt
  else
    now ← Date_now;
    storage.set DB_KEYS.assets (SAssets (demoAssets now));;
    storage.set DB_KEYS.rentals (SRentals (demoRentals now));;
    storage.set DB_KEYS.meta (SMeta (Meta.mk APP_VERSION now)).

(* ------------------------------------------------------------------ *)
(** ** Field updates and small utilities *)
(* ------------------------------------------------------------------ *)

(** asset.status = s; asset.site = s; asset.lastSeenAt = t *)
Definition Asset_set_status (s : Status) (a : Asset.t) : Asset.t :=
  Asset.mk (Asset.id a) (Asset.name a) (Asset.category a) (Asset.site a) s
           (Asset.lastSeenAt a) (Asset.imageEmoji a) (Asset.description a)
           (Asset.quantity a).

Definition Asset_set_site (s : string) (a : Asset.t) : Asset.t :=
  Asset.mk (Asset.id a) (Asset.name a) (Asset.category a) s (Asset.status a)
           (Asset.lastSeenAt a) (Asset.imageEmoji a) (Asset.description a)
           (Asset.quantity a).

Definition Asset_set_lastSeenAt (t : Z) (a : Asset.t) : Asset.t :=
  Asset.mk (Asset.id a) (Asset.name a) (Asset.category a) (Asset.site a)
           (Asset.status a) t (Asset.imageEmoji a) (Asset.description a)
           (Asset.quantity a).

(** rental.returnedAt = t *)
Definition Rental_set_returnedAt (t : option Z) (r : Rental.t) : Rental.t :=
  Rental.mk (Rental.id r) (Rental.assetId r) (Rental.site r)
            (Rental.checkOutAt r) (Rental.checkInAt r) (Rental.customer r)
            (Rental.fuelAtStart r) (Rental.odometerAtStart r) (Rental.notes r)
            (Rental.createdAt r) t.

(** [!r.returnedAt] *)
Definition notReturned (r : Rental.t) : Prop := Rental.returnedAt r = None.

Global Instance notReturned_dec r : Decision (notReturned r).
Proof. unfold notReturned. apply _. Defined.

(** [r.assetId === assetId && !r.returnedAt] *)
Definition activeFor (assetId : string) (r : Rental.t) : Prop :=
  Rental.assetId r = assetId ∧ notReturned r.

Global Instance activeFor_dec k r : Decision (activeFor k r).
Proof. unfold activeFor. apply _. Defined.

(** [a.id === assetId] *)
Definition hasId (assetId : string) (a : Asset.t) : Prop := Asset.id a = assetId.

Global Instance hasId_dec k a : Decision (hasId k a).
Proof. unfold hasId. apply _. Defined.

(** [Math.ceil(a / b)] for integers [a] and [b > 0].  With [b] the
    milliseconds of a day, the double-precision quotient has the ceiling of
    the exact one for every span [a] below 2^53 ms (some 10^8 days), which
    covers any valid [Date] taken against the present. *)
Definition Math_ceil_div (a b : Z) : Z := (- ((- a) / b))%Z.

(** [String.prototype.toLowerCase] on a string of ASCII characters: the
    letters A-Z are mapped to a-z.  The method also maps letters outside
    ASCII; on a string that has any, its result is not modelled, and a
    property that depends on the result assumes [isASCII]. *)
Definition ascii_toLowerCase (c : ascii) : ascii :=
  let n := nat_of_ascii c in
  if bool_decide (65 ≤ n ∧ n ≤ 90) then ascii_of_nat (n + 32) else c.

Fixpoint toLowerCase (s : string) : string :=
  match s with
  | EmptyString => EmptyString
  | String c s' => String (ascii_toLowerCase c) (toLowerCase s')
  end.

Definition emojiMap : gmap string string :=
  list_to_map
    [ ("Excavator", "‚õèÔ∏è");
      ("Loader", "üöú");
      ("Truck", "üöõ");
      ("Bulldozer", "üöú");
      ("Crane", "üèóÔ∏è");
      ("Generator", "‚ö°");
      ("Compactor", "üõ£Ô∏è");
      ("Grader", "üõ£Ô∏è");
      ("Roller", "üõ£Ô∏è");
      ("Skid Steer", "üöú") ].

(** return emojiMap[category] || default, for a [category] that is no
    property inherited from [Object.prototype]: the lookup on the object
    literal finds those as well and then yields a function or an object,
    which this string-valued model leaves out (see
    [Object_prototype_keys]). *)
Definition getEmojiForCategory (category : string) : string :=
  default "üîß" (emojiMap !! category).

(* ------------------------------------------------------------------ *)
(** ** Views: the data the dashboard and the history display *)
(* ------------------------------------------------------------------ *)

(** function getRentedCount() *)
Definition getRentedCount : JS nat :=
  rentals ← getRentals;
  ret (length (filter notReturned rentals)).

(** The per-asset closure of [renderDashboard]. *)
Module Dashboard.
Section card.
Variables (now : Z) (rentals : list Rental.t) (a : Asset.t).

(** rentals.find(r => r.assetId === a.id && !r.returnedAt) *)
Definition activeRental : option Rental.t :=
  snd <$> list_find (activeFor (Asset.id a)) rentals.

(** activeRental && new Date(activeRental.checkInAt) < now *)
Definition isOverdue : bool :=
  match activeRental with
  | Some r => bool_decide (Rental.checkInAt r < now)%Z
  | None => false
  end.

(** activeRental ? (isOverdue ? 'OVERDUE' : 'Rented') : 'Available' *)
Definition status : string :=
  match activeRental with
  | Some _ => if isOverdue then "OVERDUE" else "Rented"
  | None => "Available"
  end.

(** The "Overdue by N days" line, shown when [isOverdue]. *)
Definition overdueDays : option Z :=
  match activeRental with
  | Some r =>
      if isOverdue
      then Some (Math_ceil_div (now - Rental.checkInAt r) (1000 * 60 * 60 * 24))
      else None
  | None => None
  end.
End card.

Record card := mkCard {
  card_asset : Asset.t;
  card_activeRental : option Rental.t;
  card_isOverdue : bool;
  card_status : string;
  card_overdueDays : option Z }.

Record t := mk {
  overdueRentals : list Rental.t;
  cards : list card;
  total : nat;
  available : nat;
  rentedCount : nat }.
End Dashboard.

(** function renderDashboard() *)
Definition renderDashboard : JS Dashboard.t :=
  assets ← getAssets;
  rentals ← getRentals;
  now ← Date_now;
  let overdueRentals :=
    filter (λ r, notReturned r ∧ (Rental.checkInAt r < now)%Z) rentals in
  let list :=
    map (λ a, Dashboard.mkCard a
                (Dashboard.activeRental rentals a)
                (Dashboard.isOverdue now rentals a)
                (Dashboard.status now rentals a)
                (Dashboard.overdueDays now rentals a)) assets in
  rented ← getRentedCount;
  ret (Dashboard.mk overdueRentals list (length assets)
         (length (filter (λ a, Asset.status a = idle) assets)) rented).

(** The per-rental closure of [renderRentalHistory]. *)
Module History.
Section entry.
Variables (now : Z) (rental : Rental.t).

(** !rental.returnedAt && new Date(rental.checkInAt) < now *)
Definition isOverdue : bool :=
  bool_decide (notReturned rental) && bool_decide (Rental.checkInAt rental < now)%Z.

(** !!rental.returnedAt *)
Definition isReturned : bool := bool_decide (¬ notReturned rental).

(** isReturned && new Date(rental.returnedAt) > new Date(rental.checkInAt) *)
Definition isLate : bool :=
  match Rental.returnedAt rental with
  | Some t => bool_decide (Rental.checkInAt rental < t)%Z
  | None => false
  end.

Definition statusText : string :=
  if isOverdue then "OVERDUE"
  else if isReturned then (if isLate then "Returned Late" else "Returned")
  else "Active".

(** isOverdue ? Math.ceil((now - checkInAt) / (1000*60*60*24)) : 0 *)
Definition overdueDays : Z :=
  if isOverdue
  then Math_ceil_div (now - Rental.checkInAt rental) (1000 * 60 * 60 * 24)
  else 0.

(** isLate ? Math.ceil((returnedAt - checkInAt) / (1000*60*60*24)) : 0.
    Two stored dates can be further apart than 2^53 ms, where the
    subtraction of the code is no longer exact; the definition stands for
    the code on the spans up to 2^53 ms. *)
Definition lateDays : Z :=
  match Rental.returnedAt rental with
  | Some t =>
      if isLate
      then Math_ceil_div (t - Rental.checkInAt rental) (1000 * 60 * 60 * 24)
      else 0
  | None => 0
  end.
End entry.

Record entry := mkEntry {
  entry_rental : Rental.t;
  entry_asset : option Asset.t;
  entry_isOverdue : bool;
  entry_isReturned : bool;
  entry_isLate : bool;
  entry_statusText : string;
  entry_overdueDays : Z;
  entry_lateDays : Z }.

Record t := mk {
  historyList : list entry;
  overdueCount : nat;
  activeCount : nat;
  totalCount : nat }.

(** rentals.sort((a, b) => new Date(b.createdAt) - new Date(a.createdAt)):
    newest first; the sort is stable. *)
Fixpoint insert (x : Rental.t) (l : list Rental.t) : list Rental.t :=
  match l with
  | [] => [x]
  | y :: l' =>
      if bool_decide (Rental.createdAt y - Rental.createdAt x ≤ 0)%Z
      then x :: l
      else y :: insert x l'
  end.

Definition sort (l : list Rental.t) : list Rental.t := foldr insert [] l.
End History.

(** function renderRentalHistory() *)
Definition renderRentalHistory : JS History.t :=
  rentals ← getRentals;
  assets ← getAssets;
  now ← Date_now;
  let sortedRentals := History.sort rentals in
  let historyList :=
    map (λ rental,
           History.mkEntry rental
             (snd <$> list_find (hasId (Rental.assetId rental)) assets)
             (History.isOverdue now rental)
             (History.isReturned rental)
             (History.isLate rental)
             (History.statusText now rental)
             (History.overdueDays now rental)
             (History.lateDays rental)) sortedRentals in
  ret (History.mk historyList
         (length (filter (λ r, notReturned r ∧ (Rental.checkInAt r < now)%Z) sortedRentals))
         (length (filter notReturned sortedRentals))
         (length sortedRentals)).

(* ------------------------------------------------------------------ *)
(** ** Handlers: check-out, check-in, add equipment *)
(* ------------------------------------------------------------------ *)

(** The fields of the rental form as [FormData] returns them.  The two
    datetime inputs are given by the instant they denote; the two number
    inputs are [None] when left empty. *)
Module RentForm.
Record t := mk {
  assetId : string;
  site : string;
  checkOutAt : Z;
  checkInAt : Z;
  customerName : string;
  customerPhone : string;
  customerEmail : string;
  fuelAtStart : option Z;
  odometerAtStart : option Z;
  notes : string }.
End RentForm.

(** The [rental] object literal of the submit listener; [uid] is the value
    [uid()] draws from [Math.random], [createdAt] the value of [new Date()]. *)
Definition rentalOfForm (data : RentForm.t) (uid : string) (createdAt : Z)
    : Rental.t :=
  Rental.mk ("r_" +:+ uid)
    (RentForm.assetId data)
    (RentForm.site data)
    (RentForm.checkOutAt data)
    (RentForm.checkInAt data)
    (Customer.mk (RentForm.customerName data) (RentForm.customerPhone data)
                 (RentForm.customerEmail data))
    (default 0%Z (RentForm.fuelAtStart data))
    (default 0%Z (RentForm.odometerAtStart data))
    (RentForm.notes data)
    createdAt
    None.

(** assets[idx].status = 'rented'; assets[idx].site = rental.site;
    assets[idx].lastSeenAt = Date.now() *)
Definition markRented (rental : Rental.t) (now : Z) (a : Asset.t) : Asset.t :=
  Asset_set_lastSeenAt now
    (Asset_set_site (Rental.site rental) (Asset_set_status rented a)).

(** assets[idx].status = 'idle'; assets[idx].lastSeenAt = Date.now() *)
Definition markIdle (now : Z) (a : Asset.t) : Asset.t :=
  Asset_set_lastSeenAt now (Asset_set_status idle a).

(** The submit listener of the rental form (check-out). *)
Definition rentForm_submit (data : RentForm.t) (uid : string) : JS unit :=
  createdAt ← Date_now;
  let rental := rentalOfForm data uid createdAt in
  (* Save rental and update asset status *)
  rentals ← getRentals;
  let rentals := rentals ++ [rental] in
  setRentals rentals;;
  assets ← getAssets;
  match list_find (hasId (Rental.assetId rental)) assets with
  | Some (idx, _) =>
      now ← Date_now;
      setAssets (alter (markRented rental now) idx assets)
  | None => ret tt
  end;;
  navigate "#/dashboard".

(** function handleCheckIn(assetId) *)
Definition handleCheckIn (assetId : string) : JS unit :=
  rentals ← getRentals;
  match list_find (activeFor assetId) rentals with
  | None => alert "No active rental found for this asset."
  | Some (i, _) =>
      returnedAt ← Date_now;
      (* [active] is an element of [rentals]: the array sees the update *)
      let rentals := alter (Rental_set_returnedAt (Some returnedAt)) i rentals in
      setRentals rentals;;
      assets ← getAssets;
      match list_find (hasId assetId) assets with
      | Some (idx, _) =>
          now ← Date_now;
          setAssets (alter (markIdle now) idx assets)
      | None => ret tt
      end;;
      _ ← renderDashboard;
      ret tt
  end.

(** The fields of the add-equipment form; [quantity] is the result of
    [parseInt] ([None] for [NaN]), and [parseInt(q) || 1] replaces [NaN]
    and [0] by [1]. *)
Module EquipmentForm.
Record t := mk {
  name : string;
  category : string;
  site : string;
  description : string;
  quantity : option Z }.
End EquipmentForm.

(** The [newAsset] object literal of the add-equipment listener. *)
Definition assetOfForm (formData : EquipmentForm.t) (uid : string) (now : Z)
    : Asset.t :=
  Asset.mk (toLowerCase (EquipmentForm.category formData) +:+ "-" +:+ uid)
    (EquipmentForm.name formData)
    (EquipmentForm.category formData)
    (EquipmentForm.site formData)
    idle
    now
    (getEmojiForCategory (EquipmentForm.category formData))
    (EquipmentForm.description formData)
    (match EquipmentForm.quantity formData with
     | Some q => if bool_decide (q = 0%Z) then 1%Z else q
     | None => 1%Z
     end).

(** The submit listener of the add-equipment form. *)
Definition addEquipment_submit (formData : EquipmentForm.t) (uid : string)
    : JS unit :=
  now ← Date_now;
  let newAsset := assetOfForm formData uid now in
  (* Add to storage *)
  assets ← getAssets;
  let assets := assets ++ [newAsset] in
  setAssets assets;;
  (* Close modal and refresh dashboard *)
  _ ← renderDashboard;
  ret tt.

(* ------------------------------------------------------------------ *)
(** ** Observations on a world *)
(* ------------------------------------------------------------------ *)

(** The persisted collections, as [getAssets] / [getRentals] read them
    when the read itself does not fail. *)
Definition assetsOf (w : World) : list Asset.t :=
  asAssets (default (SAssets []) (localStorage w !! DB_KEYS.assets)).

Definition rentalsOf (w : World) : list Rental.t :=
  asRentals (default (SRentals []) (localStorage w !! DB_KEYS.rentals)).

Definition metaOf (w : World) : option Stored :=
  localStorage w !! DB_KEYS.meta.

(** The rentals of the list that reference [assetId] and are not returned. *)
Definition activeRentals (assetId : string) (rentals : list Rental.t)
    : list Rental.t :=
  filter (activeFor assetId) rentals.

Definition emptyWorld (t : Z) : World := mkWorld ∅ t [] [] [] "".

(* ------------------------------------------------------------------ *)
(** ** Events and reachable worlds *)
(* ------------------------------------------------------------------ *)

(** What can happen between two renderings: one of the three handlers
    runs, or time passes. *)
Inductive Event :=
| EvAddAsset (formData : EquipmentForm.t) (uid : string)
| EvCheckOut (data : RentForm.t) (uid : string)
| EvCheckIn (assetId : string)
| EvTick (dt : Z).

Definition advance (dt : Z) : JS unit :=
  modify (λ w, mkWorld (localStorage w) (clock w + dt) (faults w)
                       (console w) (alerts w) (location_hash w)).

Definition handle (e : Event) : JS unit :=
  match e with
  | EvAddAsset formData uid => addEquipment_submit formData uid
  | EvCheckOut data uid => rentForm_submit data uid
  | EvCheckIn assetId => handleCheckIn assetId
  | EvTick dt => advance dt
  end.

Definition step (e : Event) (w : World) : World := exec (handle e) w.

(** The store is empty: nothing is persisted. *)
Definition emptyStore (w : World) : Prop := localStorage w = ∅.

(** The store is what seeding has left: seeding has run and returned. *)
Definition seededStore (w : World) : Prop :=
  ∃ w0, outcome seedIfEmpty w0 = Ok tt ∧ w = exec seedIfEmpty w0.

(** The store is what seeding has left with storage working: it holds the
    whole demo data. *)
Definition seededIntact (w : World) : Prop :=
  ∃ w0, faults w0 = [] ∧ w = exec seedIfEmpty w0.

(** Worlds reachable from a start world satisfying [init] by events the
    policy [ok] admits. *)
Inductive reachable (init : World → Prop) (ok : World → Event → Prop)
    : World → Prop :=
| reach_init w : init w → reachable init ok w
| reach_step w e :
    reachable init ok w → ok w e → reachable init ok (step e w).

(** Any event whatsoever. *)
Definition anyEvent (w : World) (e : Event) : Prop := True.

(** Check-out only of an asset without active rental, which is what the
    dashboard offers: it shows "Check Out" only on such assets. *)
Definition checkOutOfFree (w : World) (e : Event) : Prop :=
  match e with
  | EvCheckOut data _ => activeRentals (RentForm.assetId data) (rentalsOf w) = []
  | _ => True
  end.

(** In addition check-out targets a listed asset and a new asset gets an
    id no listed asset has (ids are unique). *)
Definition disciplined (w : World) (e : Event) : Prop :=
  match e with
  | EvCheckOut data _ =>
      RentForm.assetId data ∈ map Asset.id (assetsOf w) ∧
      activeRentals (RentForm.assetId data) (rentalsOf w) = []
  | EvAddAsset formData uid =>
      Asset.id (assetOfForm formData uid 0) ∉ map Asset.id (assetsOf w)
  | _ => True
  end.

(** [localStorage.clear()] throws: the next schedule entry is a fault. *)
Definition clearThrows (w : World) : bool :=
  match faults w with
  | true :: _ => true
  | _ => false
  end.

(** [JSON.stringify] throws in this write: the next schedule entry is a
    fault. *)
Definition stringifyThrows (w : World) : bool :=
  match faults w with
  | true :: _ => true
  | _ => false
  end.

(** [JSON.stringify] succeeds and [localStorage.setItem] throws. *)
Definition setItemThrows (w : World) : bool :=
  match faults w with
  | false :: true :: _ => true
  | _ => false
  end.

(* ------------------------------------------------------------------ *)
(** ** Concrete worlds and requests used in the examples *)
(* ------------------------------------------------------------------ *)

Definition T0 : Z := 1726000000000.

(** The store right after the page has loaded. *)
Definition demoWorld : World := exec seedIfEmpty (emptyWorld T0).

(** A request for the excavator that [r_demo1] still holds. *)
Definition rerent : RentForm.t :=
  RentForm.mk "exc-320-1" "Quarry North" T0 (T0 + 2 * 60 * 60 * 1000)
    "Ada Moreau" "+1-555-0100" "" None None "".

(** A request for an excavator nobody holds. *)
Definition rentFree : RentForm.t :=
  RentForm.mk "exc-320-2" "Quarry North" T0 (T0 + 2 * 60 * 60 * 1000)
    "Ada Moreau" "+1-555-0100" "" (Some 80%Z) None "".

(** A request whose asset id names no listed asset. *)
Definition rentGhost : RentForm.t :=
  RentForm.mk "pav-100-1" "Quarry North" T0 (T0 + 2 * 60 * 60 * 1000)
    "Ada Moreau" "+1-555-0100" "" None None "".

Definition newCrane : EquipmentForm.t :=
  EquipmentForm.mk "Crane CAT 300" "Crane" "Yard C" "300-ton crane" (Some 1%Z).

(** A store a user has worked with: one crane added, a day later. *)
Definition usedWorld : World :=
  step (EvTick DAY) (step (EvAddAsset newCrane "q7w8e9r0") demoWorld).

(** A rental three days past its expected return at [T0]. *)
Definition threeDaysLate : Rental.t :=
  Rental.mk "r_late" "exc-349-1" "Pit 4" (T0 - 5 * DAY) (T0 - 3 * DAY)
    (Customer.mk "Ada Moreau" "+1-555-0100" "") 0 0 "" (T0 - 5 * DAY) None.

(** The same rental, returned one day after it was due. *)
Definition returnedLate : Rental.t :=
  Rental_set_returnedAt (Some (T0 - 2 * DAY)%Z) threeDaysLate.

(* ------------------------------------------------------------------ *)
(** ** Invariants and proof vocabulary *)
(* ------------------------------------------------------------------ *)

(** What a handler leaves alone: the schedule stays exhausted, the clock,
    the console and the metadata are as before. *)
Definition sameSession (w w' : World) : Prop :=
  faults w' = [] ∧ clock w' = clock w ∧ console w' = console w ∧
  metaOf w' = metaOf w.

(** No asset has two unreturned rentals. *)
Definition atMostOne (w : World) : Prop :=
  ∀ k, length (activeRentals k (rentalsOf w)) ≤ 1.

(** Asset ids are unique, every unreturned rental references a listed
    asset, no asset has two unreturned rentals, and an asset is rented
    exactly when it has an unreturned rental. *)
Definition ledgerOK (A : list Asset.t) (R : list Rental.t) : Prop :=
  NoDup (map Asset.id A)
  ∧ (∀ r, r ∈ R → notReturned r → Rental.assetId r ∈ map Asset.id A)
  ∧ (∀ k, length (activeRentals k R) ≤ 1)
  ∧ (∀ a, a ∈ A →
       (Asset.status a = rented ↔ activeRentals (Asset.id a) R ≠ [])).

Definition ledgerInv (w : World) : Prop :=
  faults w = [] ∧ ledgerOK (assetsOf w) (rentalsOf w).

Ltac store_obs :=
  eexists; split; [reflexivity|];
  unfold sameSession, metaOf, rentalsOf, assetsOf; simpl;
  repeat first [rewrite lookup_insert_eq
               | rewrite lookup_insert_ne by discriminate];
  by repeat split.


(* ------------------------------------------------------------------ *)
(** ** Rental links and the router *)
(* ------------------------------------------------------------------ *)

(** A string stands for the UTF-8 bytes of a JavaScript string. *)

(** The characters [encodeURIComponent] leaves as they are:
    A-Z a-z 0-9 - _ . ! ~ * ' ( ) *)
Definition uriUnreserved (c : ascii) : bool :=
  let n := nat_of_ascii c in
  bool_decide (48 ≤ n ∧ n ≤ 57) || bool_decide (65 ≤ n ∧ n ≤ 90)
  || bool_decide (97 ≤ n ∧ n ≤ 122)
  || bool_decide (n ∈ [45; 95; 46; 33; 126; 42; 39; 40; 41]).

(** One upper-case hexadecimal digit. *)
Definition hexDigit (n : nat) : ascii :=
  if bool_decide (n < 10) then ascii_of_nat (48 + n) else ascii_of_nat (55 + n).

(** [encodeURIComponent]: every byte that is not unreserved becomes [%XY]. *)
Fixpoint encodeURIComponent (s : string) : string :=
  match s with
  | EmptyString => EmptyString
  | String c s' =>
      if uriUnreserved c then String c (encodeURIComponent s')
      else String "%"%char
             (String (hexDigit (nat_of_ascii c / 16))
                (String (hexDigit (nat_of_ascii c mod 16))
                   (encodeURIComponent s')))
  end.

(** function makeAssetRentLink(assetId); the [console.log] of the link is
    not recorded. *)
Definition makeAssetRentLink (assetId : string) : string :=
  let yourComputerIP := "192.168.1.7" in
  let port := "5500" in
  "http://" +:+ yourComputerIP +:+ ":" +:+ port
  +:+ "/index.html#/rent?assetId=" +:+ encodeURIComponent assetId.

(** [s.split(sep)] for a one-character separator. *)
Fixpoint split_char (sep : ascii) (s : string) : list string :=
  match s with
  | EmptyString => [EmptyString]
  | String c s' =>
      if bool_decide (c = sep) then EmptyString :: split_char sep s'
      else match split_char sep s' with
           | p :: ps => String c p :: ps
           | [] => [String c EmptyString]
           end
  end.

(** The value of a hexadecimal digit, either case. *)
Definition hexValue (c : ascii) : option nat :=
  let n := nat_of_ascii c in
  if bool_decide (48 ≤ n ∧ n ≤ 57) then Some (n - 48)
  else if bool_decide (65 ≤ n ∧ n ≤ 70) then Some (n - 55)
  else if bool_decide (97 ≤ n ∧ n ≤ 102) then Some (n - 87)
  else None.

(** Percent-decoding of the URL standard: [%XY] with two hexadecimal
    digits is the byte it names, any other byte stands for itself. *)
Fixpoint percentDecode (s : string) : string :=
  match s with
  | EmptyString => EmptyString
  | String c s1 =>
      if bool_decide (c = "%"%char) then
        match s1 with
        | String h (String l rest) =>
            match hexValue h, hexValue l with
            | Some a, Some b =>
                String (ascii_of_nat (16 * a + b)) (percentDecode rest)
            | _, _ => String c (percentDecode s1)
            end
        | _ => String c (percentDecode s1)
        end
      else String c (percentDecode s1)
  end.

(** Replace every [+] by a space. *)
Fixpoint plusToSpace (s : string) : string :=
  match s with
  | EmptyString => EmptyString
  | String c s' =>
      String (if bool_decide (c = "+"%char) then " "%char else c) (plusToSpace s')
  end.

(** Split at the first [=]: the name, and the value (empty without [=]). *)
Fixpoint splitNameValue (s : string) : string * string :=
  match s with
  | EmptyString => (EmptyString, EmptyString)
  | String c s' =>
      if bool_decide (c = "="%char) then (EmptyString, s')
      else let '(n, v) := splitNameValue s' in (String c n, v)
  end.

(** [new URLSearchParams(init)]: the application/x-www-form-urlencoded
    parser of the URL standard; a leading [?] is dropped, empty pieces
    between [&] are skipped. *)
Module URLSearchParams.
Definition t : Type := list (string * string).

(** The parser reads the decoded bytes as UTF-8; a string of this model is
    those bytes.  Bytes that are not valid UTF-8, which the parser would
    replace by U+FFFD, are kept as they are. *)
Definition decode (s : string) : string := percentDecode (plusToSpace s).

Definition parse (input : string) : t :=
  omap (λ piece,
          if bool_decide (piece = EmptyString) then None
          else let '(n, v) := splitNameValue piece in Some (decode n, decode v))
       (split_char "&"%char input).

Definition new (init : string) : t :=
  match init with
  | String c rest => if bool_decide (c = "?"%char) then parse rest else parse init
  | EmptyString => parse init
  end.

(** params.get(name): the first value under the name, or null. *)
Definition get (name : string) (params : t) : option string :=
  snd <$> (snd <$> list_find (λ p, fst p = name) params).
End URLSearchParams.

(** function parseHash(): an empty hash counts as '#/dashboard'; the path
    is the text before the first [?], the query string the text between
    the first and the second. *)
Definition parseHash : JS (string * URLSearchParams.t) :=
  h ← gets location_hash;
  let hash := if bool_decide (h = EmptyString) then "#/dashboard" else h in
  let parts := split_char "?"%char hash in
  let path := default EmptyString (parts !! 0) in
  let queryString := parts !! 1 in
  ret (path, URLSearchParams.new (default EmptyString queryString)).

(** The three render functions a route can name. *)
Inductive View := VDashboard | VRent | VHistory.

(** function registerRoute(path, render) { routes[path] = render; } *)
Definition registerRoute (path : string) (render : View)
    (routes : gmap string View) : gmap string View :=
  <[path := render]> routes.

(** The [routes] object after the three registrations at load time.  A
    hash starts with [#], so no inherited property of the object is ever
    looked up. *)
Definition routes : gmap string View :=
  registerRoute "#/history" VHistory
    (registerRoute "#/rent" VRent
       (registerRoute "#/dashboard" VDashboard ∅)).

(** What the rental form shows of the store: one option per asset, in
    order, with its [selected] flag. *)
Module RentFormView.
Record option_ := mkOption {
  value : string;
  label : string;
  selected : bool }.

Record t := mk {
  assetId : string;
  asset : option Asset.t;
  options : list option_ }.
End RentFormView.

(** function renderRentForm(params), up to the form it displays; the
    asset list is read twice, once for [asset] and once for the options. *)
Definition renderRentForm (params : URLSearchParams.t) : JS RentFormView.t :=
  let assetId := default EmptyString (URLSearchParams.get "assetId" params) in
  assets ← getAssets;
  let asset := snd <$> list_find (hasId assetId) assets in
  assets' ← getAssets;
  ret (RentFormView.mk assetId asset
         (map (λ a, RentFormView.mkOption (Asset.id a) (Asset.name a)
                      (match asset with
                       | Some x => bool_decide (Asset.id a = Asset.id x)
                       | None => false
                       end)) assets')).

(** What a render function has put on the page. *)
Inductive Page :=
| PageDashboard (d : Dashboard.t)
| PageRentForm (f : RentFormView.t)
| PageHistory (h : History.t).

Definition render (view : View) (params : URLSearchParams.t) : JS Page :=
  match view with
  | VDashboard => d ← renderDashboard; ret (PageDashboard d)
  | VRent => f ← renderRentForm params; ret (PageRentForm f)
  | VHistory => h ← renderRentalHistory; ret (PageHistory h)
  end.

(** function highlightNav(path): the ids of the navigation links that are
    active afterwards. *)
Definition highlightNav (path : string) : list string :=
  (if bool_decide (path = "#/dashboard") then ["nav-dashboard"] else [])
  ++ (if bool_decide (path = "#/rent") then ["nav-rent"] else [])
  ++ (if bool_decide (path = "#/history") then ["nav-history"] else []).

(** function handleRoute(): the page rendered and the active links. *)
Definition handleRoute : JS (Page * list string) :=
  '(path, params) ← parseHash;
  match routes !! path with
  | Some view => page ← render view params; ret (page, highlightNav path)
  | None =>
      match routes !! "#/dashboard" with
      | Some view => page ← render view params; ret (page, highlightNav path)
      | None => throw "TypeError"
      end
  end.

(** The action a dashboard card offers: the "Check In" button on an asset
    with an active rental, the "Check Out" link otherwise.  Each carries
    the text the template writes between the quotes of its [data-id] or
    [href]. *)
Inductive RentBtn :=
| BtnReturn (dataId : string)
| LinkCheckOut (href : string).

Definition rentBtn (rentals : list Rental.t) (a : Asset.t) : RentBtn :=
  match Dashboard.activeRental rentals a with
  | Some _ => BtnReturn (Asset.id a)
  | None => LinkCheckOut ("#/rent?assetId=" +:+ encodeURIComponent (Asset.id a))
  end.

(** A character the HTML parser copies as it is into a double-quoted
    attribute value: not the double quote (it ends the value), not the
    ampersand (it may start a character reference), not NUL and not the
    carriage return (the parser replaces them). *)
Definition attrSafe (c : ascii) : bool :=
  negb (bool_decide (nat_of_ascii c ∈ [34; 38; 0; 13])).

(** Every character of the string passes the test. *)
Fixpoint allChars (p : ascii → bool) (s : string) : bool :=
  match s with
  | EmptyString => true
  | String c s' => p c && allChars p s'
  end.

(** [el.getAttribute(name)] for an attribute the template wrote as
    [name="${text}"]: the markup is assigned to [innerHTML] unescaped, so
    the attribute holds [text] itself when every character of it is
    [attrSafe]; what the parser makes of any other text is not modelled. *)
Definition getAttribute (text : string) : option string :=
  if allChars attrSafe text then Some text else None.

(** Dispatching an event to [n] registered copies of a listener: they run
    in turn, and an exception of one is reported without stopping the
    others. *)
Fixpoint dispatch (n : nat) (listener : JS unit) : JS unit :=
  match n with
  | 0 => ret tt
  | S n' => try_catch listener (λ _, ret tt);; dispatch n' listener
  end.

(** Clicking the action.
    - The "Check In" button.  [renderDashboard] registers a click listener
      on [#app] on every call, and nothing removes one: [listeners] is
      their number, which is the number of times the dashboard has been
      rendered since the page was loaded.  The click runs them one after
      the other; each reads the button's [data-id] and calls
      [handleCheckIn] on it.  A listener registered while the click is
      dispatched (by the render at the end of [handleCheckIn]) is not run
      for this click.
    - The "Check Out" link.  The browser follows the link by setting the
      hash, and the [hashchange] listener routes.
    The result is [None] where [getAttribute] is. *)
Definition click (listeners : nat) (b : RentBtn) : option (JS unit) :=
  match b with
  | BtnReturn text =>
      assetId ← getAttribute text;
      Some (dispatch listeners (handleCheckIn assetId))
  | LinkCheckOut href => Some (navigate href;; _ ← handleRoute; ret tt)
  end.

(** The fragment of an absolute URL: everything from the first [#]. *)
Fixpoint URL_hash (url : string) : string :=
  match url with
  | EmptyString => EmptyString
  | String c rest => if bool_decide (c = "#"%char) then url else URL_hash rest
  end.

(** A character that cannot end or split a query value: not one of
    [?], [&], [=], [+], [#] and the space. *)
Definition querySafe (c : ascii) : bool :=
  negb (bool_decide (c ∈ ["?"; "&"; "="; "+"; "#"; " "]%char)).

(** The string has ASCII characters only. *)
Definition isASCII (s : string) : bool :=
  allChars (λ c, bool_decide (nat_of_ascii c < 128)) s.

(** The property names an object literal inherits from [Object.prototype]. *)
Definition Object_prototype_keys : list string :=
  [ "constructor"; "hasOwnProperty"; "isPrototypeOf"; "propertyIsEnumerable";
    "toLocaleString"; "toString"; "valueOf"; "__proto__";
    "__defineGetter__"; "__defineSetter__";
    "__lookupGetter__"; "__lookupSetter__" ].


Definition demoExcavator2 : Asset.t :=
  Eval vm_compute in
    default (Asset.mk "" "" "" "" idle 0 "" "" 0) (assetsOf demoWorld !! 1).

Definition demoLoader1 : Asset.t :=
  Eval vm_compute in
    default (Asset.mk "" "" "" "" idle 0 "" "" 0) (assetsOf demoWorld !! 6).


(* ================================================================== *)
(** * Properties *)
(* ================================================================== *)

(* ------------------------------------------------------------------ *)
(** ** Running the monad when storage works *)
(* ------------------------------------------------------------------ *)

Lemma bind_run {A B} (m : JS A) (k : A → JS B) w a w' :
  m w = (Ok a, w') → (m ≫= k) w = k a w'.
Proof. intros H. unfold mbind, JS_bind, bind. by rewrite H. Qed.

Section working_storage.
Variable w : World.
Hypothesis Hw : faults w = [].

Lemma fallible_ok e : fallible e w = (Ok tt, w).
Proof. unfold fallible. by rewrite Hw. Qed.

Lemma localStorage_clear_ok :
  localStorage_clear w = (Ok tt, set_localStorage (λ _, ∅) w).
Proof.
  unfold localStorage_clear.
  by rewrite (bind_run _ _ w tt w) by apply fallible_ok.
Qed.

Lemma storage_get_ok key fallback :
  storage.get key fallback w
  = (Ok (default fallback (localStorage w !! key)), w).
Proof.
  unfold storage.get, try_catch, localStorage_getItem, JSON_parse.
  rewrite (bind_run _ _ w (localStorage w !! key) w).
  - destruct (localStorage w !! key) as [r|]; simpl; [|done].
    by rewrite (bind_run _ _ w tt w) by apply fallible_ok.
  - by rewrite (bind_run _ _ w tt w) by apply fallible_ok.
Qed.

Lemma storage_set_ok key value :
  storage.set key value w
  = (Ok tt, set_localStorage (λ m, <[key := value]> m) w).
Proof.
  unfold storage.set, try_catch, localStorage_setItem, JSON_stringify.
  rewrite (bind_run _ _ w value w).
  - by rewrite (bind_run _ _ w tt w) by apply fallible_ok.
  - by rewrite (bind_run _ _ w tt w) by apply fallible_ok.
Qed.

Lemma getAssets_ok : getAssets w = (Ok (assetsOf w), w).
Proof.
  unfold getAssets. by rewrite (bind_run _ _ _ _ _ (storage_get_ok _ _)).
Qed.

Lemma getRentals_ok : getRentals w = (Ok (rentalsOf w), w).
Proof.
  unfold getRentals. by rewrite (bind_run _ _ _ _ _ (storage_get_ok _ _)).
Qed.

Lemma setAssets_ok l :
  setAssets l w
  = (Ok tt, set_localStorage (λ m, <[DB_KEYS.assets := SAssets l]> m) w).
Proof. apply storage_set_ok. Qed.

Lemma setRentals_ok l :
  setRentals l w
  = (Ok tt, set_localStorage (λ m, <[DB_KEYS.rentals := SRentals l]> m) w).
Proof. apply storage_set_ok. Qed.

Lemma getRentedCount_ok :
  getRentedCount w = (Ok (length (filter notReturned (rentalsOf w))), w).
Proof.
  unfold getRentedCount. by rewrite (bind_run _ _ _ _ _ getRentals_ok).
Qed.

(** Rendering reads the store and leaves the world as it is. *)
Lemma renderDashboard_ok : ∃ d, renderDashboard w = (Ok d, w).
Proof.
  unfold renderDashboard.
  rewrite (bind_run _ _ _ _ _ getAssets_ok).
  rewrite (bind_run _ _ _ _ _ getRentals_ok).
  rewrite (bind_run _ _ w (clock w) w) by done.
  rewrite (bind_run _ _ _ _ _ getRentedCount_ok).
  eauto.
Qed.
End working_storage.

(** Writing the rentals leaves the assets as they were. *)
Lemma assetsOf_set_rentals l w :
  assetsOf (set_localStorage (λ m, <[DB_KEYS.rentals := SRentals l]> m) w)
  = assetsOf w.
Proof.
  unfold assetsOf. simpl. by rewrite lookup_insert_ne by discriminate.
Qed.

(** Check-out when storage works. *)
Lemma rentForm_submit_ok data uid w :
  faults w = [] →
  ∃ w', rentForm_submit data uid w = (Ok tt, w')
    ∧ sameSession w w' ∧ alerts w' = alerts w
    ∧ rentalsOf w' = rentalsOf w ++ [rentalOfForm data uid (clock w)]
    ∧ match list_find (hasId (RentForm.assetId data)) (assetsOf w) with
      | Some (idx, _) =>
          assetsOf w' =
            alter (markRented (rentalOfForm data uid (clock w)) (clock w))
                  idx (assetsOf w)
      | None =>
          localStorage w' !! DB_KEYS.assets = localStorage w !! DB_KEYS.assets
      end.
Proof.
  intros Hw. unfold rentForm_submit.
  rewrite (bind_run _ _ w (clock w) w) by done. cbv zeta.
  rewrite (bind_run _ _ _ _ _ (getRentals_ok w Hw)).
  erewrite bind_run by (by apply setRentals_ok).
  erewrite bind_run by (by apply getAssets_ok).
  rewrite assetsOf_set_rentals. simpl.
  destruct (list_find _ (assetsOf w)) as [[idx a]|].
  - erewrite bind_run; last first.
    { erewrite bind_run by done. by apply setAssets_ok. }
    store_obs.
  - erewrite bind_run by done.
    store_obs.
Qed.

Lemma rerender_ok w :
  faults w = [] → (renderDashboard ≫= λ _, ret tt) w = (Ok tt, w).
Proof.
  intros Hw. destruct (renderDashboard_ok w Hw) as [d Hd].
  by rewrite (bind_run _ _ _ _ _ Hd).
Qed.

(** Check-in when storage works. *)
Lemma handleCheckIn_ok assetId w :
  faults w = [] →
  ∃ w', handleCheckIn assetId w = (Ok tt, w') ∧ sameSession w w' ∧
    match list_find (activeFor assetId) (rentalsOf w) with
    | None =>
        alerts w' = alerts w ++ ["No active rental found for this asset."]
        ∧ localStorage w' = localStorage w
    | Some (i, _) =>
        alerts w' = alerts w
        ∧ rentalsOf w' =
            alter (Rental_set_returnedAt (Some (clock w))) i (rentalsOf w)
        ∧ assetsOf w' =
            match list_find (hasId assetId) (assetsOf w) with
            | Some (idx, _) => alter (markIdle (clock w)) idx (assetsOf w)
            | None => assetsOf w
            end
    end.
Proof.
  intros Hw. unfold handleCheckIn.
  rewrite (bind_run _ _ _ _ _ (getRentals_ok w Hw)).
  destruct (list_find _ (rentalsOf w)) as [[i active]|].
  - rewrite (bind_run _ _ w (clock w) w) by done. cbv zeta.
    erewrite bind_run by (by apply setRentals_ok).
    erewrite bind_run by (by apply getAssets_ok).
    rewrite assetsOf_set_rentals.
    destruct (list_find _ (assetsOf w)) as [[idx a]|].
    + erewrite bind_run; last first.
      { erewrite bind_run by done. by apply setAssets_ok. }
      rewrite rerender_ok by done.
      store_obs.
    + erewrite bind_run by done.
      rewrite rerender_ok by done.
      store_obs.
  - store_obs.
Qed.

(** Adding equipment when storage works. *)
Lemma addEquipment_submit_ok formData uid w :
  faults w = [] →
  ∃ w', addEquipment_submit formData uid w = (Ok tt, w')
    ∧ sameSession w w' ∧ alerts w' = alerts w
    ∧ rentalsOf w' = rentalsOf w
    ∧ assetsOf w' = assetsOf w ++ [assetOfForm formData uid (clock w)].
Proof.
  intros Hw. unfold addEquipment_submit.
  rewrite (bind_run _ _ w (clock w) w) by done. cbv zeta.
  rewrite (bind_run _ _ _ _ _ (getAssets_ok w Hw)).
  erewrite bind_run by (by apply setAssets_ok).
  rewrite rerender_ok by done.
  store_obs.
Qed.

(* ------------------------------------------------------------------ *)
(** ** Running the monad whatever the browser does *)
(* ------------------------------------------------------------------ *)

(** A read never throws and never writes; it yields the stored value or,
    when the browser fails, the fallback. *)
Lemma storage_get_any key fallback w :
  ∃ v w', storage.get key fallback w = (Ok v, w')
    ∧ localStorage w' = localStorage w ∧ clock w' = clock w
    ∧ (v = default fallback (localStorage w !! key) ∨ v = fallback).
Proof.
  destruct w as [ls ck fs co al lh].
  unfold storage.get, try_catch, localStorage_getItem, JSON_parse, mbind,
    JS_bind, bind, fallible, gets, console_error, modify, ret. simpl.
  destruct fs as [|[] fs]; simpl; [| eauto 10 |].
  - destruct (ls !! key); simpl; eauto 10.
  - destruct (ls !! key); simpl; [|eauto 10].
    destruct fs as [|[] fs]; simpl; eauto 10.
Qed.

(** A write never throws; it stores the whole value or nothing. *)
Lemma storage_set_any key value w :
  ∃ w', storage.set key value w = (Ok tt, w')
    ∧ clock w' = clock w
    ∧ (localStorage w' = <[key := value]> (localStorage w)
       ∨ localStorage w' = localStorage w).
Proof.
  destruct w as [ls ck fs co al lh].
  unfold storage.set, try_catch, localStorage_setItem, JSON_stringify, mbind,
    JS_bind, bind, fallible, gets, console_error, modify, ret. simpl.
  destruct fs as [|[] [|[] fs]]; simpl; eauto 10.
Qed.

Lemma getRentals_any w :
  ∃ R w', getRentals w = (Ok R, w')
    ∧ localStorage w' = localStorage w ∧ clock w' = clock w
    ∧ (R = rentalsOf w ∨ R = []).
Proof.
  destruct (storage_get_any DB_KEYS.rentals (SRentals []) w)
    as (v & w' & Hrun & Hls & Hck & Hv).
  exists (asRentals v), w'. unfold getRentals.
  rewrite (bind_run _ _ _ _ _ Hrun). split_and!; [done..|].
  destruct Hv as [->| ->]; [by left|by right].
Qed.

Lemma getAssets_any w :
  ∃ A w', getAssets w = (Ok A, w')
    ∧ localStorage w' = localStorage w ∧ clock w' = clock w.
Proof.
  destruct (storage_get_any DB_KEYS.assets (SAssets []) w)
    as (v & w' & Hrun & Hls & Hck & _).
  exists (asAssets v), w'. unfold getAssets.
  by rewrite (bind_run _ _ _ _ _ Hrun).
Qed.

Lemma setRentals_any l w :
  ∃ w', setRentals l w = (Ok tt, w')
    ∧ clock w' = clock w
    ∧ (rentalsOf w' = l ∨ rentalsOf w' = rentalsOf w).
Proof.
  destruct (storage_set_any DB_KEYS.rentals (SRentals l) w)
    as (w' & Hrun & Hck & Hls).
  exists w'. split_and!; [done..|]. unfold rentalsOf.
  destruct Hls as [-> | ->]; [left; by rewrite lookup_insert_eq|by right].
Qed.

Lemma setAssets_any l w :
  ∃ w', setAssets l w = (Ok tt, w')
    ∧ clock w' = clock w ∧ rentalsOf w' = rentalsOf w.
Proof.
  destruct (storage_set_any DB_KEYS.assets (SAssets l) w)
    as (w' & Hrun & Hck & Hls).
  exists w'. split_and!; [done..|]. unfold rentalsOf.
  destruct Hls as [-> | ->]; [by rewrite lookup_insert_ne by discriminate|done].
Qed.

Lemma rerender_any w :
  ∃ w', (renderDashboard ≫= λ _, ret tt) w = (Ok tt, w')
    ∧ localStorage w' = localStorage w.
Proof.
  unfold renderDashboard, getRentedCount.
  destruct (getAssets_any w) as (A & w1 & H1 & Hls1 & _).
  destruct (getRentals_any w1) as (R & w2 & H2 & Hls2 & _).
  destruct (getRentals_any w2) as (R' & w3 & H3 & Hls3 & _).
  exists w3. split; [|congruence].
  erewrite bind_run; [reflexivity|].
  rewrite (bind_run _ _ _ _ _ H1), (bind_run _ _ _ _ _ H2).
  rewrite (bind_run _ _ w2 (clock w2) w2) by done.
  erewrite bind_run; [reflexivity|].
  by rewrite (bind_run _ _ _ _ _ H3).
Qed.

(** What a check-out can do to the rental list, storage working or not:
    nothing, append the new rental, or (a failed read) replace the list by
    the new rental alone. *)
Lemma rentForm_submit_rentals data uid w :
  ∃ w', rentForm_submit data uid w = (Ok tt, w')
    ∧ (rentalsOf w' = rentalsOf w
       ∨ rentalsOf w' = rentalsOf w ++ [rentalOfForm data uid (clock w)]
       ∨ rentalsOf w' = [rentalOfForm data uid (clock w)]).
Proof.
  unfold rentForm_submit.
  rewrite (bind_run _ _ w (clock w) w) by done. cbv zeta.
  destruct (getRentals_any w) as (R & w1 & H1 & Hls1 & Hck1 & HR).
  rewrite (bind_run _ _ _ _ _ H1).
  destruct (setRentals_any (R ++ [rentalOfForm data uid (clock w)]) w1)
    as (w2 & H2 & Hck2 & HR2).
  rewrite (bind_run _ _ _ _ _ H2).
  destruct (getAssets_any w2) as (A & w3 & H3 & Hls3 & Hck3).
  rewrite (bind_run _ _ _ _ _ H3).
  assert (HR1 : rentalsOf w1 = rentalsOf w) by (unfold rentalsOf; by rewrite Hls1).
  assert (HR3 : rentalsOf w3 = rentalsOf w2) by (unfold rentalsOf; by rewrite Hls3).
  assert (Hfinal : rentalsOf w2 = rentalsOf w
       ∨ rentalsOf w2 = rentalsOf w ++ [rentalOfForm data uid (clock w)]
       ∨ rentalsOf w2 = [rentalOfForm data uid (clock w)]).
  { destruct HR2 as [-> | ->]; [|by left].
    destruct HR as [-> | ->]; [right; by left|right; by right]. }
  destruct (list_find _ A) as [[idx a]|].
  - destruct (setAssets_any
                (alter (markRented (rentalOfForm data uid (clock w)) (clock w3))
                       idx A) w3) as (w4 & H4 & _ & HR4).
    erewrite (bind_run _ _ w3 tt w4); last first.
    { by erewrite bind_run by done. }
    eexists; split; [reflexivity|]. unfold rentalsOf in *. simpl. congruence.
  - rewrite (bind_run _ _ w3 tt w3) by done.
    eexists; split; [reflexivity|]. unfold rentalsOf in *. simpl. congruence.
Qed.

(** What a check-in can do to the rental list: nothing, or stamp the first
    unreturned rental of the asset. *)
Lemma handleCheckIn_rentals assetId w :
  ∃ w', handleCheckIn assetId w = (Ok tt, w')
    ∧ (rentalsOf w' = rentalsOf w
       ∨ ∃ i x, list_find (activeFor assetId) (rentalsOf w) = Some (i, x)
                ∧ rentalsOf w' =
                    alter (Rental_set_returnedAt (Some (clock w))) i (rentalsOf w)).
Proof.
  unfold handleCheckIn.
  destruct (getRentals_any w) as (R & w1 & H1 & Hls1 & Hck1 & HR).
  rewrite (bind_run _ _ _ _ _ H1).
  assert (HR1 : rentalsOf w1 = rentalsOf w) by (unfold rentalsOf; by rewrite Hls1).
  destruct (list_find (activeFor assetId) R) as [[i x]|] eqn:Hfind.
  - destruct HR as [-> | ->]; [|discriminate Hfind].
    rewrite (bind_run _ _ w1 (clock w1) w1) by done. cbv zeta.
    destruct (setRentals_any
                (alter (Rental_set_returnedAt (Some (clock w1))) i (rentalsOf w))
                w1) as (w2 & H2 & Hck2 & HR2).
    rewrite (bind_run _ _ _ _ _ H2).
    destruct (getAssets_any w2) as (A & w3 & H3 & Hls3 & Hck3).
    rewrite (bind_run _ _ _ _ _ H3).
    assert (HR3 : rentalsOf w3 = rentalsOf w2) by (unfold rentalsOf; by rewrite Hls3).
    assert (∃ w4, (match list_find (hasId assetId) A with
                   | Some (idx, _) =>
                       Date_now ≫= λ now, setAssets (alter (markIdle now) idx A)
                   | None => ret tt
                   end) w3 = (Ok tt, w4) ∧ rentalsOf w4 = rentalsOf w3)
      as (w4 & H4 & HR4).
    { destruct (list_find (hasId assetId) A) as [[idx a]|]; [|by exists w3].
      destruct (setAssets_any (alter (markIdle (clock w3)) idx A) w3)
        as (w4 & H4 & _ & HR4).
      exists w4. split; [|done]. by erewrite bind_run by done. }
    rewrite (bind_run _ _ _ _ _ H4).
    destruct (rerender_any w4) as (w5 & H5 & Hls5).
    exists w5. split; [exact H5|].
    assert (HR5 : rentalsOf w5 = rentalsOf w4) by (unfold rentalsOf; by rewrite Hls5).
    rewrite HR5, HR4, HR3.
    destruct HR2 as [-> | ->]; [|left; congruence].
    right. exists i, x. by rewrite Hck1.
  - eexists; split; [reflexivity|]. left. simpl. exact HR1.
Qed.

Lemma addEquipment_submit_rentals formData uid w :
  ∃ w', addEquipment_submit formData uid w = (Ok tt, w')
    ∧ rentalsOf w' = rentalsOf w.
Proof.
  unfold addEquipment_submit.
  rewrite (bind_run _ _ w (clock w) w) by done. cbv zeta.
  destruct (getAssets_any w) as (A & w1 & H1 & Hls1 & _).
  rewrite (bind_run _ _ _ _ _ H1).
  destruct (setAssets_any (A ++ [assetOfForm formData uid (clock w)]) w1)
    as (w2 & H2 & _ & HR2).
  rewrite (bind_run _ _ _ _ _ H2).
  destruct (rerender_any w2) as (w3 & H3 & Hls3).
  exists w3. split; [exact H3|].
  unfold rentalsOf in *. rewrite Hls3, HR2. by rewrite Hls1.
Qed.


(* ------------------------------------------------------------------ *)
(** ** Active rentals of a list *)
(* ------------------------------------------------------------------ *)

Lemma activeRentals_nil_iff k (R : list Rental.t) :
  activeRentals k R = [] ↔ ∀ r, r ∈ R → ¬ activeFor k r.
Proof.
  unfold activeRentals. split.
  - intros H r Hr Hact.
    assert (Hin : r ∈ filter (activeFor k) R) by (apply list_elem_of_filter; done).
    rewrite H in Hin. by apply not_elem_of_nil in Hin.
  - intros H. induction R as [|y R IH]; [done|].
    rewrite filter_cons. destruct (decide (activeFor k y)) as [Hy|Hy].
    + exfalso. apply (H y); [left | done].
    + apply IH. intros r Hr. apply H. by right.
Qed.

Lemma exists_active_iff k (R : list Rental.t) :
  (∃ r, r ∈ R ∧ activeFor k r) ↔ activeRentals k R ≠ [].
Proof.
  rewrite activeRentals_nil_iff. split.
  - intros (r & Hr & Hact) H. by apply (H r).
  - intros H. destruct (decide (Exists (activeFor k) R)) as [Hex|Hex].
    + apply Exists_exists in Hex. exact Hex.
    + exfalso. apply H. intros r Hr Hact. apply Hex, Exists_exists. eauto.
Qed.

Lemma firstActive_None_iff k (R : list Rental.t) :
  list_find (activeFor k) R = None ↔ activeRentals k R = [].
Proof.
  rewrite list_find_None, activeRentals_nil_iff, Forall_forall. done.
Qed.

Lemma activeRentals_snoc k (R : list Rental.t) r :
  activeRentals k (R ++ [r])
  = activeRentals k R ++ (if decide (activeFor k r) then [r] else []).
Proof.
  unfold activeRentals. rewrite filter_app, filter_cons, filter_nil. done.
Qed.

(** Returning the first active rental of [k] removes it from the active
    rentals of [k] and changes the active rentals of no other asset. *)
Lemma activeRentals_return k t k' (R : list Rental.t) i x :
  list_find (activeFor k) R = Some (i, x) →
  activeRentals k' (alter (Rental_set_returnedAt (Some t)) i R)
  = if decide (k' = k) then tail (activeRentals k R) else activeRentals k' R.
Proof.
  unfold activeRentals. revert i. induction R as [|y R IH]; intros i; [done|].
  simpl list_find. destruct (decide (activeFor k y)) as [Hy|Hy].
  - intros [= <- <-]. simpl. rewrite !filter_cons.
    destruct (decide (activeFor k' (Rental_set_returnedAt (Some t) y)))
      as [[_ Hn]|_]; [discriminate Hn|].
    destruct (decide (k' = k)) as [->|Hne].
    + by rewrite decide_True.
    + rewrite decide_False; [done|]. intros [Ha _]. destruct Hy as [Hb _].
      congruence.
  - destruct (list_find (activeFor k) R) as [[j z]|] eqn:Hfind; [|done].
    intros [= <- <-]. specialize (IH j eq_refl). unfold alter in *. simpl.
    rewrite !filter_cons, IH.
    destruct (decide (k' = k)) as [->|Hne].
    + by rewrite !decide_False.
    + done.
Qed.

Lemma atMostOne_checkOut k (R : list Rental.t) r :
  activeRentals (Rental.assetId r) R = [] →
  (∀ k', length (activeRentals k' R) ≤ 1) →
  length (activeRentals k (R ++ [r])) ≤ 1.
Proof.
  intros Hfree Hone. rewrite activeRentals_snoc, length_app.
  destruct (decide (activeFor k r)) as [[<- _]|_]; simpl.
  - rewrite Hfree. simpl. lia.
  - specialize (Hone k). lia.
Qed.

Lemma atMostOne_checkIn k t k' (R : list Rental.t) i x :
  list_find (activeFor k) R = Some (i, x) →
  (∀ k', length (activeRentals k' R) ≤ 1) →
  length (activeRentals k' (alter (Rental_set_returnedAt (Some t)) i R)) ≤ 1.
Proof.
  intros Hfind Hone. rewrite (activeRentals_return _ _ _ _ _ _ Hfind).
  destruct (decide (k' = k)) as [->|_]; [|apply Hone].
  specialize (Hone k). destruct (activeRentals k R); simpl in *; lia.
Qed.

Lemma noActive_after_checkIn k t (R : list Rental.t) i x :
  list_find (activeFor k) R = Some (i, x) →
  length (activeRentals k R) ≤ 1 →
  activeRentals k (alter (Rental_set_returnedAt (Some t)) i R) = [].
Proof.
  intros Hfind Hone. rewrite (activeRentals_return _ _ _ _ _ _ Hfind).
  rewrite decide_True by done.
  destruct (activeRentals k R) as [|? [|? ?]]; simpl in *; [done..|lia].
Qed.

(* ------------------------------------------------------------------ *)
(** ** Seeding *)
(* ------------------------------------------------------------------ *)

(** The store seeding leaves when storage works, whatever it held. *)
Lemma seedIfEmpty_ok w :
  faults w = [] →
  ∃ w', seedIfEmpty w = (Ok tt, w')
    ∧ faults w' = [] ∧ clock w' = clock w
    ∧ console w' = console w ∧ alerts w' = alerts w
    ∧ localStorage w' =
        <[DB_KEYS.meta := SMeta (Meta.mk APP_VERSION (clock w))]>
          (<[DB_KEYS.rentals := SRentals (demoRentals (clock w))]>
             (<[DB_KEYS.assets := SAssets (demoAssets (clock w))]> ∅)).
Proof.
  intros Hw. unfold seedIfEmpty.
  rewrite (bind_run _ _ w tt (set_localStorage (λ _, ∅) w))
    by (by apply localStorage_clear_ok).
  erewrite bind_run by (by apply storage_get_ok).
  cbn [localStorage set_localStorage]. rewrite lookup_empty. simpl.
  erewrite bind_run by done.
  erewrite bind_run by (by apply storage_set_ok).
  erewrite bind_run by (by apply storage_set_ok).
  rewrite storage_set_ok by done.
  eexists; split; [reflexivity|]. by repeat split.
Qed.

Lemma seedIfEmpty_collections w :
  faults w = [] →
  ∃ w', seedIfEmpty w = (Ok tt, w')
    ∧ faults w' = []
    ∧ assetsOf w' = demoAssets (clock w)
    ∧ rentalsOf w' = demoRentals (clock w)
    ∧ metaOf w' = Some (SMeta (Meta.mk APP_VERSION (clock w))).
Proof.
  intros Hw.
  destruct (seedIfEmpty_ok w Hw) as (w' & Hrun & Hf & _ & _ & _ & Hls).
  exists w'. split; [done|]. split; [done|].
  unfold assetsOf, rentalsOf, metaOf. rewrite Hls.
  repeat first [rewrite lookup_insert_eq
               | rewrite lookup_insert_ne by discriminate].
  done.
Qed.

(** The clear either throws, and leaves the world but for the schedule,
    or empties the store. *)
Lemma localStorage_clear_any w :
  (clearThrows w = true
   ∧ ∃ w', localStorage_clear w = (Throw "SecurityError", w')
       ∧ localStorage w' = localStorage w ∧ clock w' = clock w
       ∧ console w' = console w ∧ alerts w' = alerts w)
  ∨ (clearThrows w = false
     ∧ ∃ w', localStorage_clear w = (Ok tt, w')
         ∧ localStorage w' = ∅ ∧ clock w' = clock w).
Proof.
  unfold clearThrows, localStorage_clear, mbind, JS_bind, bind, fallible.
  destruct (faults w) as [|[|] fs]; [right|left|right];
    (split; [done|]); eexists; by split_and!.
Qed.

(** Seeding throws exactly when its clear does, and then leaves the store
    alone; otherwise it returns, with the demo rentals in the rental list,
    or nothing when the write fails. *)
Lemma seedIfEmpty_rentals w :
  (clearThrows w = true
   ∧ ∃ w', seedIfEmpty w = (Throw "SecurityError", w')
       ∧ localStorage w' = localStorage w
       ∧ console w' = console w ∧ alerts w' = alerts w)
  ∨ (clearThrows w = false
     ∧ ∃ w', seedIfEmpty w = (Ok tt, w')
         ∧ (rentalsOf w' = [] ∨ rentalsOf w' = demoRentals (clock w))).
Proof.
  unfold seedIfEmpty.
  destruct (localStorage_clear_any w)
    as [(Hc & w0 & H0 & Hls0 & _ & Hco0 & Hal0)|(Hc & w0 & H0 & Hls0 & Hck0)].
  { left. split; [done|]. exists w0. split; [|done].
    unfold mbind, JS_bind, bind. by rewrite H0. }
  right. split; [done|].
  rewrite (bind_run _ _ _ _ _ H0).
  destruct (storage_get_any DB_KEYS.assets (SAssets []) w0)
    as (v & w1 & H1 & Hls1 & Hck1 & Hv).
  rewrite (bind_run _ _ _ _ _ H1).
  assert (v = SAssets []) as ->.
  { destruct Hv as [-> | ->]; [|done]. by rewrite Hls0, lookup_empty. }
  simpl. rewrite (bind_run _ _ w1 (clock w1) w1) by done.
  destruct (storage_set_any DB_KEYS.assets (SAssets (demoAssets (clock w1))) w1)
    as (w2 & H2 & _ & Hls2).
  rewrite (bind_run _ _ _ _ _ H2).
  destruct (storage_set_any DB_KEYS.rentals (SRentals (demoRentals (clock w1))) w2)
    as (w3 & H3 & _ & Hls3).
  rewrite (bind_run _ _ _ _ _ H3).
  destruct (storage_set_any DB_KEYS.meta (SMeta (Meta.mk APP_VERSION (clock w1))) w3)
    as (w4 & H4 & _ & Hls4).
  exists w4. split; [exact H4|].
  assert (Hr1 : localStorage w1 !! DB_KEYS.rentals = None).
  { rewrite Hls1, Hls0. apply lookup_empty. }
  assert (Hr2 : localStorage w2 !! DB_KEYS.rentals = None).
  { destruct Hls2 as [-> | ->]; [by rewrite lookup_insert_ne by discriminate|done]. }
  assert (Hr4 : localStorage w4 !! DB_KEYS.rentals = localStorage w3 !! DB_KEYS.rentals).
  { destruct Hls4 as [-> | ->]; [by rewrite lookup_insert_ne by discriminate|done]. }
  unfold rentalsOf. rewrite Hr4.
  destruct Hls3 as [-> | ->].
  - right. rewrite lookup_insert_eq. simpl. by rewrite Hck1, Hck0.
  - left. by rewrite Hr2.
Qed.

Lemma seededIntact_inv w :
  seededIntact w →
  ∃ now, faults w = [] ∧ assetsOf w = demoAssets now
         ∧ rentalsOf w = demoRentals now
         ∧ metaOf w = Some (SMeta (Meta.mk APP_VERSION now)).
Proof.
  intros (w0 & Hw0 & ->). exists (clock w0).
  destruct (seedIfEmpty_collections w0 Hw0) as (w' & Hrun & H).
  unfold exec. by rewrite Hrun.
Qed.

Lemma demoRentals_atMostOne now k :
  length (activeRentals k (demoRentals now)) ≤ 1.
Proof.
  unfold activeRentals, demoRentals.
  rewrite !filter_cons, filter_nil.
  repeat case_decide; simpl; try lia;
    repeat match goal with H : activeFor _ _ |- _ => destruct H as [? ?] end;
    simpl in *; congruence.
Qed.

(* ------------------------------------------------------------------ *)
(** ** At most one active rental per asset *)
(* ------------------------------------------------------------------ *)

Lemma atMostOne_step w e :
  atMostOne w → checkOutOfFree w e → atMostOne (step e w).
Proof.
  intros Hone Hok. unfold step, exec, atMostOne.
  destruct e as [formData uid|data uid|assetId|dt]; simpl handle.
  - destruct (addEquipment_submit_rentals formData uid w) as (w' & -> & HR).
    simpl. by rewrite HR.
  - destruct (rentForm_submit_rentals data uid w) as (w' & -> & HR).
    simpl. intros k. destruct HR as [-> | [-> | ->]].
    + apply Hone.
    + by apply atMostOne_checkOut.
    + unfold activeRentals. rewrite filter_cons, filter_nil.
      case_decide; simpl; lia.
  - destruct (handleCheckIn_rentals assetId w) as (w' & -> & HR).
    simpl. intros k. destruct HR as [-> | (i & x & Hfind & ->)].
    + apply Hone.
    + by eapply atMostOne_checkIn.
  - done.
Qed.

(* ------------------------------------------------------------------ *)
(** ** Status agrees with the rental list *)
(* ------------------------------------------------------------------ *)

Lemma hasId_find k (A : list Asset.t) :
  k ∈ map Asset.id A → ∃ idx a, list_find (hasId k) A = Some (idx, a).
Proof.
  intros Hk. apply list_elem_of_fmap in Hk as (a & -> & Ha).
  destruct (list_find_elem_of (hasId (Asset.id a)) A a Ha eq_refl)
    as [[idx a'] Hfind].
  eauto.
Qed.

Lemma ids_alter (f : Asset.t → Asset.t) idx (A : list Asset.t) :
  (∀ a, Asset.id (f a) = Asset.id a) →
  map Asset.id (alter f idx A) = map Asset.id A.
Proof.
  intros Hf. revert idx. induction A as [|a A IH]; intros [|idx]; simpl; [done..| |].
  - by rewrite Hf.
  - f_equal. apply IH.
Qed.

(** An element of the list updated at the first asset with id [k]. *)
Lemma elem_of_alter_first (f : Asset.t → Asset.t) k idx a0 (A : list Asset.t) a' :
  NoDup (map Asset.id A) →
  list_find (hasId k) A = Some (idx, a0) →
  a' ∈ alter f idx A →
  a' = f a0 ∨ (a' ∈ A ∧ Asset.id a' ≠ k).
Proof.
  intros Hnd (Hidx & Hk & _)%list_find_Some (j & Hj)%list_elem_of_lookup.
  destruct (decide (j = idx)) as [->|Hne].
  - left. rewrite list_lookup_alter_eq, Hidx in Hj. by injection Hj.
  - right. rewrite list_lookup_alter_ne in Hj by done.
    split; [by eapply list_elem_of_lookup_2|].
    intros Heq. apply Hne.
    apply (NoDup_lookup (map Asset.id A) j idx k); [done|..].
    + by rewrite list_lookup_fmap, Hj; simpl; rewrite Heq.
    + by rewrite list_lookup_fmap, Hidx; simpl; rewrite Hk.
Qed.

Lemma elem_of_alter_rental (g : Rental.t → Rental.t) i x (R : list Rental.t) r :
  R !! i = Some x → r ∈ alter g i R → r = g x ∨ r ∈ R.
Proof.
  intros Hi (j & Hj)%list_elem_of_lookup.
  destruct (decide (j = i)) as [->|Hne].
  - left. rewrite list_lookup_alter_eq, Hi in Hj. by injection Hj.
  - right. rewrite list_lookup_alter_ne in Hj by done.
    by eapply list_elem_of_lookup_2.
Qed.

Lemma ledgerOK_add A R new :
  ledgerOK A R →
  Asset.id new ∉ map Asset.id A → Asset.status new = idle →
  ledgerOK (A ++ [new]) R.
Proof.
  intros (Hnd & Hlisted & Hone & Hcons) Hfresh Hidle.
  split_and!; [|intros r Hr Hact|done|intros a Ha].
  - rewrite map_app. apply NoDup_app. split_and!; [done| |apply NoDup_singleton].
    intros k Hk Hk'%list_elem_of_singleton. simpl in Hk'. congruence.
  - rewrite map_app. apply elem_of_app. left. by apply Hlisted.
  - apply elem_of_app in Ha as [Ha|Ha%list_elem_of_singleton]; [by apply Hcons|].
    subst a.
    rewrite Hidle. split; [done|]. intros Hne. exfalso.
    apply exists_active_iff in Hne as (r & Hr & Hid & Hact).
    apply Hfresh. rewrite <- Hid. by apply Hlisted.
Qed.

Lemma ledgerOK_checkOut A R r t idx a0 :
  ledgerOK A R →
  list_find (hasId (Rental.assetId r)) A = Some (idx, a0) →
  notReturned r →
  activeRentals (Rental.assetId r) R = [] →
  ledgerOK (alter (markRented r t) idx A) (R ++ [r]).
Proof.
  intros (Hnd & Hlisted & Hone & Hcons) Hfind Hr Hfree.
  assert (Hids : map Asset.id (alter (markRented r t) idx A) = map Asset.id A)
    by (by apply ids_alter).
  pose proof Hfind as (Hidx & Hk & _)%list_find_Some.
  split_and!.
  - by rewrite Hids.
  - rewrite Hids. intros r' [Hr'|Hr'%list_elem_of_singleton]%elem_of_app Hact.
    + by apply Hlisted.
    + subst r'. apply list_elem_of_fmap. exists a0. split; [done|].
      by eapply list_elem_of_lookup_2.
  - intros k. by apply atMostOne_checkOut.
  - intros a' Ha'. rewrite activeRentals_snoc.
    destruct (elem_of_alter_first _ _ _ _ _ _ Hnd Hfind Ha') as [->|[Hin Hne]].
    + simpl. rewrite Hk, decide_True by done. split; [|done].
      intros _. by destruct (activeRentals _ R).
    + rewrite decide_False, app_nil_r; [by apply Hcons|].
      intros [Heq _]. congruence.
Qed.

Lemma ledgerOK_checkIn A R k t i x :
  ledgerOK A R →
  list_find (activeFor k) R = Some (i, x) →
  ledgerOK
    (match list_find (hasId k) A with
     | Some (idx, _) => alter (markIdle t) idx A
     | None => A
     end)
    (alter (Rental_set_returnedAt (Some t)) i R).
Proof.
  intros (Hnd & Hlisted & Hone & Hcons) Hfind.
  pose proof Hfind as (Hi & _ & _)%list_find_Some.
  assert (Hids : map Asset.id
                   (match list_find (hasId k) A with
                    | Some (idx, _) => alter (markIdle t) idx A
                    | None => A
                    end) = map Asset.id A).
  { destruct (list_find (hasId k) A) as [[idx a0]|]; [|done]. by apply ids_alter. }
  assert (Hgone : activeRentals k (alter (Rental_set_returnedAt (Some t)) i R) = [])
    by (by eapply noActive_after_checkIn).
  assert (Hother : ∀ k', k' ≠ k →
            activeRentals k' (alter (Rental_set_returnedAt (Some t)) i R)
            = activeRentals k' R).
  { intros k' Hne. rewrite (activeRentals_return _ _ _ _ _ _ Hfind).
    by rewrite decide_False. }
  split_and!.
  - by rewrite Hids.
  - rewrite Hids. intros r Hr Hact.
    destruct (elem_of_alter_rental _ _ _ _ _ Hi Hr) as [->|Hin];
      [discriminate Hact | by apply Hlisted].
  - intros k'. by eapply atMostOne_checkIn.
  - intros a' Ha'.
    destruct (list_find (hasId k) A) as [[idx a0]|] eqn:HfindA.
    + pose proof HfindA as (_ & Hk & _)%list_find_Some.
      destruct (elem_of_alter_first _ _ _ _ _ _ Hnd HfindA Ha') as [->|[Hin Hne]].
      * simpl. rewrite Hk, Hgone. split; [discriminate|done].
      * rewrite Hother by done. by apply Hcons.
    + rewrite Hother; [by apply Hcons|].
      apply list_find_None in HfindA. rewrite Forall_forall in HfindA.
      by apply HfindA.
Qed.

Lemma demo_ledgerOK now : ledgerOK (demoAssets now) (demoRentals now).
Proof.
  split_and!.
  - refine (bool_decide_unpack _ _). by vm_compute.
  - apply (proj1 (Forall_forall
             (λ r, notReturned r →
                   Rental.assetId r ∈ map Asset.id (demoAssets now))
             (demoRentals now))).
    refine (bool_decide_unpack _ _). by vm_compute.
  - apply demoRentals_atMostOne.
  - apply (proj1 (Forall_forall
             (λ a, Asset.status a = rented ↔
                   activeRentals (Asset.id a) (demoRentals now) ≠ [])
             (demoAssets now))).
    refine (bool_decide_unpack _ _). by vm_compute.
Qed.

Lemma alter_as_insert {A} (f : A → A) i x (l : list A) :
  l !! i = Some x → alter f i l = <[i := f x]> l.
Proof.
  revert i. induction l as [|y l IH]; intros [|i] H; simplify_eq/=; [done|].
  f_equal. by apply IH.
Qed.

(* ------------------------------------------------------------------ *)
(** ** Check-out *)
(* ------------------------------------------------------------------ *)

(** C1, as stated, fails: the excavator exc-320-1 of the seeded store has
    an active rental, and a check-out request for it is not rejected: the
    handler returns normally, surfaces nothing and changes the rental list. *)
Lemma checkOut_conflict_not_rejected :
  activeRentals "exc-320-1" (rentalsOf demoWorld) ≠ []
  ∧ outcome (rentForm_submit rerent "k3x9q2ab") demoWorld = Ok tt
  ∧ alerts (exec (rentForm_submit rerent "k3x9q2ab") demoWorld) = alerts demoWorld
  ∧ rentalsOf (exec (rentForm_submit rerent "k3x9q2ab") demoWorld)
    ≠ rentalsOf demoWorld.
Proof.
  split_and!; [| by vm_compute | by vm_compute |];
    refine (bool_decide_unpack _ _); by vm_compute.
Qed.

(** C1 (amended): check-out makes no active-rental check.  For every store
    and every request, when storage works, the handler returns normally and
    surfaces nothing, appends the new rental to the rental list and, when an
    asset with the requested id is listed, marks the first such asset
    rented (and leaves the asset list alone otherwise). *)
Theorem checkOut_appends_and_marks_rented data uid w :
  faults w = [] →
  let rental := rentalOfForm data uid (clock w) in
  let w' := exec (rentForm_submit data uid) w in
  outcome (rentForm_submit data uid) w = Ok tt
  ∧ alerts w' = alerts w ∧ console w' = console w
  ∧ rentalsOf w' = rentalsOf w ++ [rental]
  ∧ match list_find (hasId (RentForm.assetId data)) (assetsOf w) with
    | Some (idx, a) =>
        assetsOf w' = <[idx := markRented rental (clock w) a]> (assetsOf w)
        ∧ Asset.status (markRented rental (clock w) a) = rented
    | None => assetsOf w' = assetsOf w
    end.
Proof.
  intros Hw rental w'. subst rental w'. unfold exec, outcome.
  destruct (rentForm_submit_ok data uid w Hw)
    as (w' & -> & (_ & _ & Hc & _) & Hal & HR & HA).
  simpl. split_and!; [done..|].
  destruct (list_find _ (assetsOf w)) as [[idx a]|] eqn:Hfind.
  - split; [|done]. rewrite HA.
    apply list_find_Some in Hfind as (Hidx & _).
    by apply alter_as_insert.
  - unfold assetsOf. by rewrite HA.
Qed.

Lemma checkOut_appends_and_marks_rented_witness :
  faults demoWorld = []
  ∧ rentalsOf (exec (rentForm_submit rerent "k3x9q2ab") demoWorld)
    = (rentalsOf demoWorld
       ++ [rentalOfForm rerent "k3x9q2ab" (clock demoWorld)]).
Proof.
  split; [by vm_compute|].
  destruct (checkOut_appends_and_marks_rented rerent "k3x9q2ab" demoWorld)
    as (_ & _ & _ & H & _); [by vm_compute|exact H].
Defined.

(** C10: a check-out whose asset id matches no listed asset still appends
    the rental, raises nothing and leaves the persisted asset list as it
    was: the rental list then holds a rental of an unlisted asset. *)
Theorem checkOut_unknown_asset data uid w :
  faults w = [] →
  RentForm.assetId data ∉ map Asset.id (assetsOf w) →
  let rental := rentalOfForm data uid (clock w) in
  let w' := exec (rentForm_submit data uid) w in
  outcome (rentForm_submit data uid) w = Ok tt
  ∧ alerts w' = alerts w ∧ console w' = console w
  ∧ rentalsOf w' = rentalsOf w ++ [rental]
  ∧ localStorage w' !! DB_KEYS.assets = localStorage w !! DB_KEYS.assets
  ∧ assetsOf w' = assetsOf w
  ∧ rental ∈ rentalsOf w'
  ∧ Rental.assetId rental ∉ map Asset.id (assetsOf w').
Proof.
  intros Hw Hno rental w'. subst rental w'. unfold exec, outcome.
  destruct (rentForm_submit_ok data uid w Hw)
    as (w' & -> & (_ & _ & Hc & _) & Hal & HR & HA).
  simpl.
  assert (Hfind : list_find (hasId (RentForm.assetId data)) (assetsOf w) = None).
  { apply list_find_None, Forall_forall. intros a Ha Hid. apply Hno.
    apply list_elem_of_fmap. by exists a. }
  rewrite Hfind in HA.
  assert (HA' : assetsOf w' = assetsOf w) by (unfold assetsOf; by rewrite HA).
  split_and!; [done..| |].
  - rewrite HR. apply elem_of_app. right. by left.
  - by rewrite HA'.
Qed.

Lemma checkOut_unknown_asset_witness :
  faults demoWorld = []
  ∧ (RentForm.assetId rentGhost ∉ map Asset.id (assetsOf demoWorld))
  ∧ assetsOf (exec (rentForm_submit rentGhost "m4n5b6v7") demoWorld)
    = assetsOf demoWorld
  ∧ rentalsOf (exec (rentForm_submit rentGhost "m4n5b6v7") demoWorld)
    = (rentalsOf demoWorld
       ++ [rentalOfForm rentGhost "m4n5b6v7" (clock demoWorld)]).
Proof.
  assert (Hno : RentForm.assetId rentGhost ∉ map Asset.id (assetsOf demoWorld))
    by (refine (bool_decide_unpack _ _); by vm_compute).
  split; [by vm_compute|]. split; [exact Hno|].
  destruct (checkOut_unknown_asset rentGhost "m4n5b6v7" demoWorld)
    as (_ & _ & _ & HR & _ & HA & _); [by vm_compute|exact Hno|].
  split; [exact HA|exact HR].
Defined.

(* ------------------------------------------------------------------ *)
(** ** Check-in *)
(* ------------------------------------------------------------------ *)

(** C4: when no rental of the list references [assetId] unreturned,
    check-in alerts the user and changes neither collection; otherwise it
    stamps the first such rental with the current time, so that its
    [returnedAt] is the clock and its other fields are as before, and
    marks the (first) listed asset of that id idle. *)
Theorem checkIn_behaviour assetId w :
  faults w = [] →
  let w' := exec (handleCheckIn assetId) w in
  outcome (handleCheckIn assetId) w = Ok tt
  ∧ (((¬ ∃ r, r ∈ rentalsOf w ∧ activeFor assetId r)
      ∧ alerts w' = alerts w ++ ["No active rental found for this asset."]
      ∧ localStorage w' = localStorage w
      ∧ assetsOf w' = assetsOf w
      ∧ rentalsOf w' = rentalsOf w)
     ∨ (∃ i active,
          rentalsOf w !! i = Some active ∧ activeFor assetId active
          ∧ alerts w' = alerts w
          ∧ rentalsOf w' =
              <[i := Rental_set_returnedAt (Some (clock w)) active]> (rentalsOf w)
          ∧ rentalsOf w' !! i =
              Some (Rental.mk (Rental.id active) (Rental.assetId active)
                      (Rental.site active) (Rental.checkOutAt active)
                      (Rental.checkInAt active) (Rental.customer active)
                      (Rental.fuelAtStart active) (Rental.odometerAtStart active)
                      (Rental.notes active) (Rental.createdAt active)
                      (Some (clock w)))
          ∧ Rental.returnedAt <$> (rentalsOf w' !! i) = Some (Some (clock w))
          ∧ match list_find (hasId assetId) (assetsOf w) with
            | Some (idx, a) =>
                assetsOf w' = <[idx := markIdle (clock w) a]> (assetsOf w)
                ∧ Asset.status (markIdle (clock w) a) = idle
            | None => assetsOf w' = assetsOf w
            end)).
Proof.
  intros Hw w'. subst w'. unfold exec, outcome.
  destruct (handleCheckIn_ok assetId w Hw) as (w' & -> & _ & Hcase).
  simpl. split; [done|].
  destruct (list_find (activeFor assetId) (rentalsOf w)) as [[i x]|] eqn:Hfind.
  - right. destruct Hcase as (Hal & HR & HA).
    pose proof Hfind as (Hi & Hact & _)%list_find_Some.
    exists i, x. split_and!; [done..| | | |].
    + rewrite HR. by apply alter_as_insert.
    + by rewrite HR, list_lookup_alter_eq, Hi.
    + by rewrite HR, list_lookup_alter_eq, Hi.
    + destruct (list_find (hasId assetId) (assetsOf w)) as [[idx a]|] eqn:HfA;
        [|done].
      split; [|done]. rewrite HA.
      apply list_find_Some in HfA as (Hidx & _).
      by apply alter_as_insert.
  - left. destruct Hcase as (Hal & Hls).
    split_and!; [|done|done|unfold assetsOf; by rewrite Hls
                |unfold rentalsOf; by rewrite Hls].
    apply firstActive_None_iff in Hfind.
    intros Hex. by apply exists_active_iff in Hex.
Qed.

Lemma checkIn_behaviour_witness :
  faults demoWorld = []
  ∧ outcome (handleCheckIn "ldr-950-1") demoWorld = Ok tt.
Proof.
  split; [by vm_compute|].
  destruct (checkIn_behaviour "ldr-950-1" demoWorld) as [H _];
    [by vm_compute|exact H].
Defined.

(* ------------------------------------------------------------------ *)
(** ** Invariants of the ledger *)
(* ------------------------------------------------------------------ *)

Lemma demoWorld_seeded : seededStore demoWorld.
Proof. exists (emptyWorld T0). split; [by vm_compute|done]. Qed.

Lemma demoWorld_intact : seededIntact demoWorld.
Proof. exists (emptyWorld T0). by split. Qed.

(** C2, as stated, fails: one check-out of the already rented excavator
    exc-320-1 on the seeded store leaves two unreturned rentals of it. *)
Lemma two_active_rentals_reachable :
  reachable (λ w, emptyStore w ∨ seededStore w) anyEvent
    (step (EvCheckOut rerent "k3x9q2ab") demoWorld)
  ∧ "exc-320-1" ∈ map Asset.id
      (assetsOf (step (EvCheckOut rerent "k3x9q2ab") demoWorld))
  ∧ length (activeRentals "exc-320-1"
      (rentalsOf (step (EvCheckOut rerent "k3x9q2ab") demoWorld))) = 2.
Proof.
  split_and!.
  - apply reach_step; [|done]. apply reach_init. right. apply demoWorld_seeded.
  - refine (bool_decide_unpack _ _). by vm_compute.
  - by vm_compute.
Qed.

(** C2 (amended): in every store reachable from an empty or a seeded store
    by adding assets, checking in, and checking out assets that have no
    active rental at that moment, at most one rental of the list references
    a given asset unreturned; this holds whether storage works or fails. *)
Theorem at_most_one_active_rental w assetId :
  reachable (λ w, emptyStore w ∨ seededStore w) checkOutOfFree w →
  length (activeRentals assetId (rentalsOf w)) ≤ 1.
Proof.
  intros Hreach. cut (atMostOne w); [intros H; apply H|]. clear assetId.
  induction Hreach as [w [Hls|(w0 & Hret & ->)]|w e _ IH Hok].
  - intros k. unfold rentalsOf. rewrite Hls, lookup_empty. simpl. lia.
  - intros k. unfold exec, outcome in *.
    destruct (seedIfEmpty_rentals w0)
      as [(_ & w' & Hrun & _)|(_ & w' & Hrun & HR)];
      rewrite Hrun in *; [discriminate Hret|]. simpl.
    destruct HR as [-> | ->]; [simpl; lia|apply demoRentals_atMostOne].
  - by apply atMostOne_step.
Qed.

Lemma at_most_one_active_rental_witness :
  reachable (λ w, emptyStore w ∨ seededStore w) checkOutOfFree
    (step (EvCheckIn "exc-320-2") (step (EvCheckOut rentFree "h2j4k6l8") demoWorld))
  ∧ length (activeRentals "exc-320-2"
      (rentalsOf (step (EvCheckIn "exc-320-2")
                    (step (EvCheckOut rentFree "h2j4k6l8") demoWorld)))) ≤ 1.
Proof.
  assert (Hreach :
    reachable (λ w, emptyStore w ∨ seededStore w) checkOutOfFree
      (step (EvCheckIn "exc-320-2")
         (step (EvCheckOut rentFree "h2j4k6l8") demoWorld))).
  { apply reach_step; [|exact I]. apply reach_step; [|by vm_compute].
    apply reach_init. right. exists (emptyWorld T0).
    split; [by vm_compute|reflexivity]. }
  split; [exact Hreach|].
  exact (at_most_one_active_rental _ "exc-320-2" Hreach).
Defined.

Lemma ledgerInv_step w e :
  ledgerInv w → disciplined w e → ledgerInv (step e w).
Proof.
  intros [Hw Hok] Hd. unfold step, exec.
  destruct e as [formData uid|data uid|assetId|dt]; simpl handle.
  - destruct (addEquipment_submit_ok formData uid w Hw)
      as (w' & -> & (Hf & _) & _ & HR & HA).
    split; [done|]. simpl. rewrite HR, HA. by apply ledgerOK_add.
  - destruct Hd as [Hlisted Hfree].
    destruct (rentForm_submit_ok data uid w Hw)
      as (w' & -> & (Hf & _) & _ & HR & HA).
    split; [done|]. simpl.
    destruct (hasId_find _ _ Hlisted) as (idx & a0 & Hfind).
    rewrite Hfind in HA. rewrite HR, HA.
    by apply (ledgerOK_checkOut _ _ _ _ idx a0).
  - destruct (handleCheckIn_ok assetId w Hw) as (w' & -> & (Hf & _) & Hcase).
    split; [done|]. simpl.
    destruct (list_find (activeFor assetId) (rentalsOf w)) as [[i x]|] eqn:Hfind.
    + destruct Hcase as (_ & -> & ->). by eapply ledgerOK_checkIn.
    + destruct Hcase as (_ & Hls). unfold assetsOf, rentalsOf. by rewrite Hls.
  - done.
Qed.

(** C3, as stated, fails: after a second check-out of exc-320-1 and one
    check-in, on the seeded store, the asset is idle while a rental of the
    list still references it unreturned. *)
Lemma idle_with_active_rental_reachable :
  reachable seededIntact anyEvent
    (step (EvCheckIn "exc-320-1") (step (EvCheckOut rerent "k3x9q2ab") demoWorld))
  ∧ Asset.status <$>
      (assetsOf (step (EvCheckIn "exc-320-1")
                   (step (EvCheckOut rerent "k3x9q2ab") demoWorld)) !! 0)
    = Some idle
  ∧ Asset.id <$>
      (assetsOf (step (EvCheckIn "exc-320-1")
                   (step (EvCheckOut rerent "k3x9q2ab") demoWorld)) !! 0)
    = Some "exc-320-1"
  ∧ ∃ r, r ∈ rentalsOf (step (EvCheckIn "exc-320-1")
                          (step (EvCheckOut rerent "k3x9q2ab") demoWorld))
         ∧ activeFor "exc-320-1" r.
Proof.
  split_and!.
  - do 2 (apply reach_step; [|done]). apply reach_init, demoWorld_intact.
  - by vm_compute.
  - by vm_compute.
  - apply exists_active_iff. refine (bool_decide_unpack _ _). by vm_compute.
Qed.

(** C3 (amended): in every store reachable from the seeded store by
    check-ins, check-outs of listed assets that have no active rental at
    that moment, and additions of assets under ids no listed asset has
    (storage working), an asset is rented exactly when some rental of the
    list references it unreturned. *)
Theorem status_matches_rentals w a :
  reachable seededIntact disciplined w →
  a ∈ assetsOf w →
  (Asset.status a = rented ↔ ∃ r, r ∈ rentalsOf w ∧ activeFor (Asset.id a) r).
Proof.
  intros Hreach Ha. rewrite exists_active_iff.
  cut (ledgerInv w); [intros (_ & _ & _ & _ & H); by apply H|]. clear a Ha.
  induction Hreach as [w Hseed|w e _ IH Hok].
  - apply seededIntact_inv in Hseed as (now & Hw & HA & HR & _).
    split; [done|]. rewrite HA, HR. apply demo_ledgerOK.
  - by apply ledgerInv_step.
Qed.

Lemma status_matches_rentals_witness :
  reachable seededIntact disciplined
    (step (EvCheckIn "ldr-950-1")
       (step (EvCheckOut rentFree "h2j4k6l8")
          (step (EvAddAsset newCrane "q7w8e9r0") demoWorld)))
  ∧ ∀ a,
      a ∈ assetsOf (step (EvCheckIn "ldr-950-1")
                      (step (EvCheckOut rentFree "h2j4k6l8")
                         (step (EvAddAsset newCrane "q7w8e9r0") demoWorld))) →
      (Asset.status a = rented ↔
       ∃ r, r ∈ rentalsOf (step (EvCheckIn "ldr-950-1")
                             (step (EvCheckOut rentFree "h2j4k6l8")
                                (step (EvAddAsset newCrane "q7w8e9r0") demoWorld)))
            ∧ activeFor (Asset.id a) r).
Proof.
  assert (Hreach :
    reachable seededIntact disciplined
      (step (EvCheckIn "ldr-950-1")
         (step (EvCheckOut rentFree "h2j4k6l8")
            (step (EvAddAsset newCrane "q7w8e9r0") demoWorld)))).
  { apply reach_step; [|exact I].
    apply reach_step.
    - apply reach_step.
      + apply reach_init. exists (emptyWorld T0). by split.
      + refine (bool_decide_unpack _ _). by vm_compute.
    - split; [refine (bool_decide_unpack _ _); by vm_compute|by vm_compute]. }
  split; [exact Hreach|].
  intros a Ha. exact (status_matches_rentals _ a Hreach Ha).
Defined.

(* ------------------------------------------------------------------ *)
(** ** Derived status *)
(* ------------------------------------------------------------------ *)

Lemma activeRental_Some rentals a r :
  Dashboard.activeRental rentals a = Some r →
  r ∈ rentals ∧ Rental.assetId r = Asset.id a ∧ Rental.returnedAt r = None.
Proof.
  unfold Dashboard.activeRental.
  destruct (list_find _ rentals) as [[i x]|] eqn:Hfind; [|done].
  intros [= <-]. apply list_find_Some in Hfind as (Hi & [Hid Hnr] & _).
  split_and!; [by eapply list_elem_of_lookup_2|done..].
Qed.

Lemma isOverdue_true_iff now rental :
  History.isOverdue now rental = true
  ↔ Rental.returnedAt rental = None ∧ (now > Rental.checkInAt rental)%Z.
Proof.
  unfold History.isOverdue, notReturned.
  rewrite andb_true_iff, !bool_decide_eq_true.
  split; intros [? ?]; split; [done|lia|done|lia].
Qed.

(** C5: the history marks a rental overdue exactly when it is unreturned
    and the current time is past its expected check-in, and never marks a
    returned rental overdue; the dashboard marks an asset overdue exactly
    when its active rental is past its expected check-in. *)
Theorem overdue_iff_unreturned_and_past now rental :
  (History.isOverdue now rental = true
   ↔ Rental.returnedAt rental = None ∧ (now > Rental.checkInAt rental)%Z)
  ∧ (History.statusText now rental = "OVERDUE"
     ↔ Rental.returnedAt rental = None ∧ (now > Rental.checkInAt rental)%Z)
  ∧ (is_Some (Rental.returnedAt rental) → History.isOverdue now rental = false)
  ∧ (∀ rentals a,
       Dashboard.isOverdue now rentals a = true
       ↔ ∃ r, Dashboard.activeRental rentals a = Some r
              ∧ (now > Rental.checkInAt r)%Z).
Proof.
  pose proof (isOverdue_true_iff now rental) as H1.
  split_and!; [done| | |].
  - rewrite <- H1. unfold History.statusText.
    destruct (History.isOverdue now rental); [done|].
    destruct (History.isReturned rental); [destruct (History.isLate rental)|];
      split; discriminate.
  - intros [t Ht]. unfold History.isOverdue.
    rewrite bool_decide_eq_false_2; [done|].
    unfold notReturned. by rewrite Ht.
  - intros rentals a. unfold Dashboard.isOverdue.
    destruct (Dashboard.activeRental rentals a) as [r|].
    + rewrite bool_decide_eq_true. split.
      * intros Hlt. exists r. split; [done|lia].
      * intros (r' & [= <-] & Hgt). lia.
    + split; [discriminate|]. by intros (r' & ? & _).
Qed.

Lemma overdue_iff_unreturned_and_past_witness :
  is_Some (Rental.returnedAt returnedLate)
  ∧ History.isOverdue T0 returnedLate = false.
Proof.
  assert (H : is_Some (Rental.returnedAt returnedLate)) by (by eexists).
  split; [exact H|].
  destruct (overdue_iff_unreturned_and_past T0 returnedLate) as (_ & _ & Hr & _).
  exact (Hr H).
Defined.

Lemma Math_ceil_div_bounds a b :
  (0 < b)%Z →
  ((Math_ceil_div a b - 1) * b < a ≤ Math_ceil_div a b * b)%Z.
Proof.
  intros Hb. unfold Math_ceil_div.
  pose proof (Z.div_mod (- a) b) as Hdm.
  pose proof (Z.mod_pos_bound (- a) b Hb) as Hm.
  nia.
Qed.

(** C6: for an overdue rental the displayed number of overdue days [d] is
    the ceiling of the delay in days: [d - 1] days < now - checkInAt <= [d]
    days; a delay of exactly three days gives 3.  The dashboard shows the
    same number for the active rental of an asset. *)
Theorem overdueDays_is_ceiling now rental :
  Rental.returnedAt rental = None →
  (now > Rental.checkInAt rental)%Z →
  let d := History.overdueDays now rental in
  ((d - 1) * DAY < now - Rental.checkInAt rental ≤ d * DAY)%Z
  ∧ ((now - Rental.checkInAt rental = 3 * DAY)%Z → d = 3%Z)
  ∧ (∀ rentals a,
       Dashboard.activeRental rentals a = Some rental →
       Dashboard.overdueDays now rentals a = Some d).
Proof.
  intros Hnr Hgt d.
  assert (Hov : History.isOverdue now rental = true)
    by (by apply isOverdue_true_iff).
  assert (Hd : d = Math_ceil_div (now - Rental.checkInAt rental) DAY).
  { subst d. unfold History.overdueDays. by rewrite Hov. }
  pose proof (Math_ceil_div_bounds (now - Rental.checkInAt rental) DAY eq_refl)
    as Hb.
  rewrite <- Hd in Hb. split; [done|]. split.
  - intros H3. rewrite H3 in Hb. unfold DAY in Hb. lia.
  - intros rentals a Hact.
    unfold Dashboard.overdueDays, Dashboard.isOverdue. rewrite Hact.
    rewrite bool_decide_eq_true_2 by lia. by rewrite Hd.
Qed.

Lemma overdueDays_is_ceiling_witness :
  Rental.returnedAt threeDaysLate = None
  ∧ (T0 > Rental.checkInAt threeDaysLate)%Z
  ∧ History.overdueDays T0 threeDaysLate = 3%Z.
Proof.
  split; [reflexivity|]. split; [by vm_compute|].
  destruct (overdueDays_is_ceiling T0 threeDaysLate) as (_ & H3 & _);
    [reflexivity|by vm_compute|].
  apply H3. by vm_compute.
Defined.

(* ------------------------------------------------------------------ *)
(** ** Seeding and persistence *)
(* ------------------------------------------------------------------ *)

(** C7, as stated, fails: the used store holds 64 assets, and seeding it
    replaces the assets, the rentals and the metadata. *)
Lemma seeding_overwrites_used_store :
  assetsOf usedWorld ≠ []
  ∧ assetsOf (exec seedIfEmpty usedWorld) ≠ assetsOf usedWorld
  ∧ rentalsOf (exec seedIfEmpty usedWorld) ≠ rentalsOf usedWorld
  ∧ metaOf (exec seedIfEmpty usedWorld) ≠ metaOf usedWorld.
Proof.
  split_and!.
  - refine (bool_decide_unpack _ _). by vm_compute.
  - intros H. apply (f_equal length) in H. vm_compute in H. discriminate H.
  - intros H. apply (f_equal (fmap Rental.checkInAt)) in H.
    vm_compute in H. discriminate H.
  - intros H. vm_compute in H. discriminate H.
Qed.

(** C7 (amended): seeding first clears the key-value store, so the
    emptiness test that follows always finds it empty.  For every persisted
    store, its asset collection empty or not, seeding (storage working)
    returns normally and leaves exactly the demo assets, the demo rentals
    and fresh metadata; nothing persisted before survives. *)
Theorem seeding_always_reseeds w :
  faults w = [] →
  let w' := exec seedIfEmpty w in
  outcome seedIfEmpty w = Ok tt
  ∧ localStorage w' =
      <[DB_KEYS.meta := SMeta (Meta.mk APP_VERSION (clock w))]>
        (<[DB_KEYS.rentals := SRentals (demoRentals (clock w))]>
           (<[DB_KEYS.assets := SAssets (demoAssets (clock w))]> ∅))
  ∧ assetsOf w' = demoAssets (clock w)
  ∧ rentalsOf w' = demoRentals (clock w)
  ∧ metaOf w' = Some (SMeta (Meta.mk APP_VERSION (clock w))).
Proof.
  intros Hw w'. subst w'. unfold exec, outcome.
  destruct (seedIfEmpty_ok w Hw) as (w' & Hrun & _ & _ & _ & _ & Hls).
  destruct (seedIfEmpty_collections w Hw) as (w'' & Hrun' & _ & HA & HR & HM).
  rewrite Hrun in Hrun'. injection Hrun' as <-. by rewrite Hrun.
Qed.

Lemma seeding_always_reseeds_witness :
  faults usedWorld = []
  ∧ assetsOf (exec seedIfEmpty usedWorld) = demoAssets (clock usedWorld).
Proof.
  split; [by vm_compute|].
  destruct (seeding_always_reseeds usedWorld) as (_ & _ & H & _);
    [by vm_compute|exact H].
Defined.

(** C8: seeding an empty store leaves a non-empty asset list and a
    non-empty rental list, in which exactly one rental is both unreturned
    and due strictly before the seeding time (the time recorded as
    [seededAt]). *)
Theorem seeding_empty_store w :
  emptyStore w → faults w = [] →
  let w' := exec seedIfEmpty w in
  assetsOf w' ≠ []
  ∧ rentalsOf w' ≠ []
  ∧ metaOf w' = Some (SMeta (Meta.mk APP_VERSION (clock w)))
  ∧ length (filter (λ r, Rental.returnedAt r = None
                         ∧ (Rental.checkInAt r < clock w)%Z)
                   (rentalsOf w')) = 1.
Proof.
  intros _ Hw w'. subst w'. unfold exec.
  destruct (seedIfEmpty_collections w Hw) as (w' & -> & _ & HA & HR & HM).
  simpl. rewrite HA, HR. split_and!; [done..|].
  unfold demoRentals. rewrite !filter_cons, filter_nil.
  repeat case_decide; simpl in *; try done; exfalso;
    repeat match goal with
           | H : _ ∧ _ |- _ => destruct H
           end; try discriminate; try lia;
    match goal with
    | H : ¬ (None = None ∧ _) |- _ => apply H; split; [done|lia]
    end.
Qed.

Lemma seeding_empty_store_witness :
  emptyStore (emptyWorld T0) ∧ faults (emptyWorld T0) = []
  ∧ length (filter (λ r, Rental.returnedAt r = None
                         ∧ (Rental.checkInAt r < clock (emptyWorld T0))%Z)
                   (rentalsOf (exec seedIfEmpty (emptyWorld T0)))) = 1.
Proof.
  assert (H : emptyStore (emptyWorld T0)) by reflexivity.
  split; [exact H|]. split; [reflexivity|].
  destruct (seeding_empty_store (emptyWorld T0) H eq_refl) as (_ & _ & _ & H1).
  exact H1.
Defined.

(** Two rentals of the seeded list are unreturned; only one is overdue. *)
Lemma seeded_unreturned_rentals now :
  map Rental.id (filter notReturned (demoRentals now)) = ["r_demo1"; "r_demo2"].
Proof. reflexivity. Qed.

(** C9: a persistence write never throws; when serialisation or the
    key-value write fails the persisted store is exactly what it was (in
    particular under the key being written) and the error is logged;
    otherwise the key holds the whole new value and no other key changes. *)
Theorem storage_set_all_or_nothing key value w :
  let w' := exec (storage.set key value) w in
  outcome (storage.set key value) w = Ok tt
  ∧ (if stringifyThrows w || setItemThrows w
     then localStorage w' = localStorage w
          ∧ localStorage w' !! key = localStorage w !! key
          ∧ ∃ e, console w' = console w ++ [("storage.set error", e)]
     else localStorage w' = <[key := value]> (localStorage w)
          ∧ localStorage w' !! key = Some value
          ∧ console w' = console w).
Proof.
  unfold exec, outcome, stringifyThrows, setItemThrows.
  destruct w as [ls ck fs co al lh].
  destruct fs as [|[] [|[] fs]]; simpl; rewrite ?lookup_insert_eq; eauto 6.
Qed.

(* ================================================================== *)
(** * Further properties of the store, the handlers and the views *)
(* ================================================================== *)

(* ------------------------------------------------------------------ *)
(** ** Storage *)
(* ------------------------------------------------------------------ *)

(** X1: with storage working, reading a key right after writing it gives
    the value written, and reading any other key gives what it held
    before the write (or the fallback if it held nothing). *)
Theorem storage_set_get_roundtrip key value key' fallback w :
  faults w = [] →
  let w' := exec (storage.set key value) w in
  outcome (storage.get key fallback) w' = Ok value
  ∧ (key' ≠ key →
     outcome (storage.get key' fallback) w'
     = Ok (default fallback (localStorage w !! key'))).
Proof.
  intros Hw w'. subst w'. unfold exec, outcome.
  rewrite (storage_set_ok w Hw). simpl snd.
  split.
  - rewrite storage_get_ok by done. simpl. by rewrite lookup_insert_eq.
  - intros Hne. rewrite storage_get_ok by done. simpl.
    by rewrite lookup_insert_ne.
Qed.

Lemma storage_set_get_roundtrip_witness :
  faults demoWorld = []
  ∧ outcome (storage.get DB_KEYS.rentals (SRentals []))
      (exec (storage.set DB_KEYS.rentals (SRentals [threeDaysLate])) demoWorld)
    = Ok (SRentals [threeDaysLate]).
Proof.
  split; [by vm_compute|].
  destruct (storage_set_get_roundtrip DB_KEYS.rentals (SRentals [threeDaysLate])
              DB_KEYS.assets (SRentals []) demoWorld) as [H _];
    [by vm_compute|exact H].
Defined.

(** X2: whatever the browser does, a storage read returns normally,
    leaves every key of the store as it was, and yields either the stored
    value or the fallback; on a key that holds nothing it yields the
    fallback. *)
Theorem storage_get_never_throws key fallback w :
  ∃ v, outcome (storage.get key fallback) w = Ok v
    ∧ localStorage (exec (storage.get key fallback) w) = localStorage w
    ∧ (v = fallback ∨ localStorage w !! key = Some v)
    ∧ (localStorage w !! key = None → v = fallback).
Proof.
  destruct (storage_get_any key fallback w) as (v & w' & Hrun & Hls & _ & Hv).
  exists v. unfold outcome, exec. rewrite Hrun. simpl.
  split_and!; [done..| |].
  - destruct Hv as [-> | ->]; [|by left].
    destruct (localStorage w !! key); [by right|by left].
  - intros Hnone. destruct Hv as [-> | ->]; [by rewrite Hnone|done].
Qed.

Lemma storage_get_never_throws_witness :
  localStorage (emptyWorld T0) !! DB_KEYS.assets = None
  ∧ outcome (storage.get DB_KEYS.assets (SAssets [])) (emptyWorld T0)
    = Ok (SAssets []).
Proof.
  split; [reflexivity|].
  destruct (storage_get_never_throws DB_KEYS.assets (SAssets []) (emptyWorld T0))
    as (v & Hv & _ & _ & Hfb).
  rewrite Hv. f_equal. by apply Hfb.
Defined.

(** X3: no handler lets a storage failure escape: under every fault
    schedule check-out, check-in and adding equipment return normally.
    Seeding does not share this: its [clear] is outside every [try], so
    seeding throws exactly when the clear does, and has then changed
    neither the store nor the console; in every other case it returns
    normally too. *)
Theorem only_the_clear_of_seeding_throws e w :
  outcome (handle e) w = Ok tt
  ∧ outcome seedIfEmpty w
    = (if clearThrows w then Throw "SecurityError" else Ok tt)
  ∧ (if clearThrows w
     then localStorage (exec seedIfEmpty w) = localStorage w
          ∧ console (exec seedIfEmpty w) = console w
          ∧ alerts (exec seedIfEmpty w) = alerts w
     else rentalsOf (exec seedIfEmpty w) = []
          ∨ rentalsOf (exec seedIfEmpty w) = demoRentals (clock w)).
Proof.
  unfold outcome, exec. split.
  - destruct e as [formData uid|data uid|assetId|dt]; simpl handle.
    + by destruct (addEquipment_submit_rentals formData uid w) as (w' & -> & _).
    + by destruct (rentForm_submit_rentals data uid w) as (w' & -> & _).
    + by destruct (handleCheckIn_rentals assetId w) as (w' & -> & _).
    + done.
  - destruct (seedIfEmpty_rentals w)
      as [(-> & w' & -> & H)|(-> & w' & -> & H)]; simpl; by split.
Qed.

(* ------------------------------------------------------------------ *)
(** ** Handlers *)
(* ------------------------------------------------------------------ *)

(** X4: a check-out whose read of the rental list fails ([getItem]
    throws) while the following writes succeed persists the new rental
    alone: the read falls back to the empty list, and the whole-collection
    write replaces every rental persisted before. *)
Theorem checkOut_failed_read_drops_history data uid w :
  faults w = [true] →
  let w' := exec (rentForm_submit data uid) w in
  outcome (rentForm_submit data uid) w = Ok tt
  ∧ rentalsOf w' = [rentalOfForm data uid (clock w)]
  ∧ console w' = console w ++ [("storage.get error", "SecurityError")]
  ∧ alerts w' = alerts w.
Proof.
  intros Hw w'. subst w'. unfold exec, outcome.
  destruct w as [ls ck fs co al lh]. simpl in Hw. subst fs.
  set (w1 := mkWorld ls ck [] (co ++ [("storage.get error", "SecurityError")]) al lh).
  unfold rentForm_submit.
  erewrite bind_run by done. cbv zeta.
  rewrite (bind_run _ _ _ [] w1) by reflexivity.
  erewrite bind_run by (by apply setRentals_ok).
  erewrite bind_run by (by apply getAssets_ok).
  destruct (list_find _ _) as [[idx a]|].
  - erewrite bind_run; last first.
    { erewrite bind_run by done. by apply setAssets_ok. }
    simpl. unfold rentalsOf. simpl.
    by rewrite lookup_insert_ne, lookup_insert_eq by discriminate.
  - erewrite bind_run by done.
    simpl. unfold rentalsOf. simpl. by rewrite lookup_insert_eq.
Qed.

Lemma checkOut_failed_read_drops_history_witness :
  faults (set_faults [true] demoWorld) = [true]
  ∧ length (rentalsOf (set_faults [true] demoWorld)) = 3
  ∧ rentalsOf (exec (rentForm_submit rentFree "h2j4k6l8")
                 (set_faults [true] demoWorld))
    = [rentalOfForm rentFree "h2j4k6l8" T0].
Proof.
  split; [reflexivity|]. split; [by vm_compute|].
  destruct (checkOut_failed_read_drops_history rentFree "h2j4k6l8"
              (set_faults [true] demoWorld)) as (_ & H & _);
    [reflexivity|exact H].
Defined.

Lemma list_find_alter_same {A} (P : A → Prop) `{∀ x, Decision (P x)}
    (f : A → A) i x (l : list A) :
  list_find P l = Some (i, x) → P (f x) →
  list_find P (alter f i l) = Some (i, f x).
Proof.
  intros (Hi & HP & Hbefore)%list_find_Some HPf. apply list_find_Some.
  split_and!; [|done|].
  - by rewrite list_lookup_alter_eq, Hi.
  - intros j y Hj Hlt. rewrite list_lookup_alter_ne in Hj by lia.
    by eapply Hbefore.
Qed.

Lemma list_find_snoc_new {A} (P : A → Prop) `{∀ x, Decision (P x)}
    (l : list A) x :
  list_find P l = None → P x → list_find P (l ++ [x]) = Some (length l, x).
Proof.
  intros Hnone HP. rewrite list_find_app_r by done. simpl.
  by rewrite decide_True.
Qed.

Lemma alter_snoc {A} (f : A → A) (l : list A) x :
  alter f (length l) (l ++ [x]) = l ++ [f x].
Proof. induction l as [|y l IH]; simpl; [done|]. f_equal. apply IH. Qed.

(** X5: a check-out of a listed asset without active rental followed,
    [dt] later, by a check-in of the same asset (storage working) leaves
    the rental list extended by the one rental, whose [returnedAt] is the
    time of the check-in, no unreturned rental of the asset, and the asset
    idle; nothing is surfaced. *)
Theorem checkOut_then_checkIn data uid dt idx a w :
  faults w = [] →
  activeRentals (RentForm.assetId data) (rentalsOf w) = [] →
  list_find (hasId (RentForm.assetId data)) (assetsOf w) = Some (idx, a) →
  let rental := rentalOfForm data uid (clock w) in
  let w1 := exec (rentForm_submit data uid) w in
  let w2 := exec (handleCheckIn (RentForm.assetId data)) (exec (advance dt) w1) in
  rentalsOf w2
  = rentalsOf w ++ [Rental_set_returnedAt (Some (clock w + dt)%Z) rental]
  ∧ assetsOf w2
    = <[idx := markIdle (clock w + dt) (markRented rental (clock w) a)]>
        (assetsOf w)
  ∧ Asset.status <$> (assetsOf w2 !! idx) = Some idle
  ∧ alerts w2 = alerts w
  ∧ (∃ r, last (rentalsOf w2) = Some r
       ∧ Rental.returnedAt r = Some (clock w + dt)%Z
       ∧ Rental.id r = "r_" +:+ uid
       ∧ Rental.assetId r = RentForm.assetId data
       ∧ Rental.checkOutAt r = RentForm.checkOutAt data
       ∧ Rental.checkInAt r = RentForm.checkInAt data
       ∧ Rental.createdAt r = clock w)
  ∧ activeRentals (RentForm.assetId data) (rentalsOf w2) = [].
Proof.
  intros Hw Hfree Hfind rental w1 w2.
  destruct (rentForm_submit_ok data uid w Hw)
    as (w1o & Hrun1 & (Hf1 & Hck1 & _) & Hal1 & HR1 & HA1).
  assert (Hw1 : w1 = w1o) by (subst w1; unfold exec; by rewrite Hrun1).
  clearbody w1. subst w1. rewrite Hfind in HA1.
  set (w1' := exec (advance dt) w1o) in *.
  assert (Hf1' : faults w1' = []) by exact Hf1.
  assert (HR1' : rentalsOf w1' = rentalsOf w ++ [rental]) by exact HR1.
  assert (HA1' : assetsOf w1'
                 = alter (markRented rental (clock w)) idx (assetsOf w))
    by exact HA1.
  assert (Hclock : clock w1' = (clock w + dt)%Z)
    by (subst w1'; simpl; by rewrite Hck1).
  destruct (handleCheckIn_ok (RentForm.assetId data) w1' Hf1')
    as (w2o & Hrun2 & _ & Hcase).
  assert (Hw2 : w2 = w2o) by (subst w2; unfold exec; by rewrite Hrun2).
  clearbody w2. subst w2.
  assert (Hnone : list_find (activeFor (RentForm.assetId data)) (rentalsOf w) = None)
    by (by apply firstActive_None_iff).
  rewrite HR1', (list_find_snoc_new _ _ rental Hnone) in Hcase by done.
  destruct Hcase as (Hal2 & HR2 & HA2).
  rewrite HA1' in HA2.
  rewrite (list_find_alter_same _ _ _ _ _ Hfind) in HA2
    by (by apply list_find_Some in Hfind as (_ & ? & _)).
  pose proof Hfind as (Hidx & _)%list_find_Some.
  rewrite Hclock in HR2, HA2.
  split_and!.
  - by rewrite HR2, alter_snoc.
  - rewrite HA2, list_alter_alter_eq.
    by apply (alter_as_insert (markIdle _ ∘ markRented _ _)).
  - rewrite HA2, list_alter_alter_eq, list_lookup_alter_eq, Hidx. done.
  - by rewrite Hal2.
  - eexists. rewrite HR2, alter_snoc, last_snoc. by split_and!.
  - rewrite HR2, alter_snoc, activeRentals_snoc, Hfree.
    rewrite decide_False; [done|]. by intros [_ Hn].
Qed.

Lemma checkOut_then_checkIn_witness :
  faults demoWorld = []
  ∧ activeRentals (RentForm.assetId rentFree) (rentalsOf demoWorld) = []
  ∧ Asset.status <$>
      (assetsOf (exec (handleCheckIn (RentForm.assetId rentFree))
                   (exec (advance DAY)
                      (exec (rentForm_submit rentFree "h2j4k6l8") demoWorld)))
       !! 1)
    = Some idle.
Proof.
  split; [by vm_compute|]. split; [by vm_compute|].
  assert (∃ a, list_find (hasId (RentForm.assetId rentFree)) (assetsOf demoWorld)
               = Some (1, a)) as [a Hfind] by (eexists; by vm_compute).
  destruct (checkOut_then_checkIn rentFree "h2j4k6l8" DAY 1 a demoWorld)
    as (_ & _ & H & _); [by vm_compute|by vm_compute|exact Hfind|exact H].
Defined.

(** X6: when an asset has at most one active rental, a check-in repeated
    right after a check-in is rejected: it alerts and leaves the store as
    the first one left it (storage working). *)
Theorem second_checkIn_rejected assetId w :
  faults w = [] →
  length (activeRentals assetId (rentalsOf w)) ≤ 1 →
  let w1 := exec (handleCheckIn assetId) w in
  let w2 := exec (handleCheckIn assetId) w1 in
  localStorage w2 = localStorage w1
  ∧ alerts w2 = alerts w1 ++ ["No active rental found for this asset."].
Proof.
  intros Hw Hone w1 w2.
  destruct (handleCheckIn_ok assetId w Hw) as (w1o & Hrun1 & (Hf1 & _) & Hcase).
  assert (Hw1 : w1 = w1o) by (subst w1; unfold exec; by rewrite Hrun1).
  clearbody w1. subst w1.
  destruct (handleCheckIn_ok assetId w1o Hf1) as (w2o & Hrun2 & _ & Hcase2).
  assert (Hw2 : w2 = w2o) by (subst w2; unfold exec; by rewrite Hrun2).
  clearbody w2. subst w2.
  assert (Hnone : list_find (activeFor assetId) (rentalsOf w1o) = None).
  { apply firstActive_None_iff.
    destruct (list_find (activeFor assetId) (rentalsOf w)) as [[i x]|] eqn:Hfind.
    - destruct Hcase as (_ & -> & _). by eapply noActive_after_checkIn.
    - destruct Hcase as (_ & Hls). unfold rentalsOf. rewrite Hls.
      by apply firstActive_None_iff. }
  rewrite Hnone in Hcase2. by destruct Hcase2.
Qed.

Lemma second_checkIn_rejected_witness :
  faults demoWorld = []
  ∧ length (activeRentals "ldr-950-1" (rentalsOf demoWorld)) ≤ 1
  ∧ alerts (exec (handleCheckIn "ldr-950-1")
              (exec (handleCheckIn "ldr-950-1") demoWorld))
    = alerts (exec (handleCheckIn "ldr-950-1") demoWorld)
      ++ ["No active rental found for this asset."].
Proof.
  assert (H1 : length (activeRentals "ldr-950-1" (rentalsOf demoWorld)) ≤ 1)
    by (vm_compute; lia).
  split; [by vm_compute|]. split; [exact H1|].
  destruct (second_checkIn_rejected "ldr-950-1" demoWorld) as [_ H];
    [by vm_compute|exact H1|exact H].
Defined.

(** X7: with storage working no event deletes, moves or rewrites a
    rental: the rental at each position stays at its position, keeps every
    field but [returnedAt], and once returned is never changed again. *)
Theorem rentals_never_deleted e w i r :
  faults w = [] →
  rentalsOf w !! i = Some r →
  ∃ r', rentalsOf (step e w) !! i = Some r'
    ∧ Rental_set_returnedAt None r' = Rental_set_returnedAt None r
    ∧ (is_Some (Rental.returnedAt r) → r' = r).
Proof.
  intros Hw Hi. unfold step, exec.
  destruct e as [formData uid|data uid|assetId|dt]; simpl handle.
  - destruct (addEquipment_submit_ok formData uid w Hw)
      as (w' & -> & _ & _ & HR & _).
    simpl. rewrite HR. eauto.
  - destruct (rentForm_submit_ok data uid w Hw) as (w' & -> & _ & _ & HR & _).
    simpl. rewrite HR. exists r. split; [|done].
    by apply lookup_app_l_Some.
  - destruct (handleCheckIn_ok assetId w Hw) as (w' & -> & _ & Hcase).
    simpl.
    destruct (list_find (activeFor assetId) (rentalsOf w)) as [[j x]|] eqn:Hfind.
    + destruct Hcase as (_ & -> & _).
      apply list_find_Some in Hfind as (Hj & [_ Hnr] & _).
      destruct (decide (j = i)) as [->|Hne].
      * rewrite list_lookup_alter_eq, Hi. simpl. eexists. split; [done|].
        assert (x = r) as -> by congruence. split; [done|].
        intros [t Ht]. unfold notReturned in Hnr. congruence.
      * rewrite list_lookup_alter_ne by done. eauto.
    + destruct Hcase as (_ & Hls). unfold rentalsOf in *. rewrite Hls. eauto.
  - simpl. eauto.
Qed.

Lemma rentals_never_deleted_witness :
  faults demoWorld = []
  ∧ ∃ r r', rentalsOf demoWorld !! 1 = Some r
      ∧ rentalsOf (step (EvCheckIn "ldr-950-1") demoWorld) !! 1 = Some r'
      ∧ Rental_set_returnedAt None r' = Rental_set_returnedAt None r.
Proof.
  split; [by vm_compute|].
  assert (∃ r, rentalsOf demoWorld !! 1 = Some r) as [r Hr]
    by (eexists; by vm_compute).
  destruct (rentals_never_deleted (EvCheckIn "ldr-950-1") demoWorld 1 r)
    as (r' & H1 & H2 & _); [by vm_compute|exact Hr|].
  exists r, r'. by split_and!.
Defined.

(** X8: with storage working no event deletes or moves an asset, and the
    identity of an asset (id, name, category, emoji, description,
    quantity) never changes: handlers only write status, site and
    lastSeenAt. *)
Theorem assets_never_deleted e w idx a :
  faults w = [] →
  assetsOf w !! idx = Some a →
  ∃ a', assetsOf (step e w) !! idx = Some a'
    ∧ Asset.id a' = Asset.id a ∧ Asset.name a' = Asset.name a
    ∧ Asset.category a' = Asset.category a
    ∧ Asset.imageEmoji a' = Asset.imageEmoji a
    ∧ Asset.description a' = Asset.description a
    ∧ Asset.quantity a' = Asset.quantity a.
Proof.
  intros Hw Hidx.
  assert (Halter : ∀ (f : Asset.t → Asset.t) j,
    (∀ x, Asset.id (f x) = Asset.id x ∧ Asset.name (f x) = Asset.name x
          ∧ Asset.category (f x) = Asset.category x
          ∧ Asset.imageEmoji (f x) = Asset.imageEmoji x
          ∧ Asset.description (f x) = Asset.description x
          ∧ Asset.quantity (f x) = Asset.quantity x) →
    ∃ a', alter f j (assetsOf w) !! idx = Some a'
      ∧ Asset.id a' = Asset.id a ∧ Asset.name a' = Asset.name a
      ∧ Asset.category a' = Asset.category a
      ∧ Asset.imageEmoji a' = Asset.imageEmoji a
      ∧ Asset.description a' = Asset.description a
      ∧ Asset.quantity a' = Asset.quantity a).
  { intros f j Hf. destruct (decide (j = idx)) as [->|Hne].
    - rewrite list_lookup_alter_eq, Hidx. simpl. eexists. split; [done|]. apply Hf.
    - rewrite list_lookup_alter_ne by done. exists a. by split_and!. }
  unfold step, exec.
  destruct e as [formData uid|data uid|assetId|dt]; simpl handle.
  - destruct (addEquipment_submit_ok formData uid w Hw)
      as (w' & -> & _ & _ & _ & HA).
    simpl. rewrite HA. exists a. split_and!; [|done..].
    by apply lookup_app_l_Some.
  - destruct (rentForm_submit_ok data uid w Hw) as (w' & -> & _ & _ & _ & HA).
    simpl. destruct (list_find _ (assetsOf w)) as [[j x]|].
    + rewrite HA. by apply Halter.
    + unfold assetsOf in *. rewrite HA. exists a. by split_and!.
  - destruct (handleCheckIn_ok assetId w Hw) as (w' & -> & _ & Hcase).
    simpl.
    destruct (list_find (activeFor assetId) (rentalsOf w)) as [[j x]|].
    + destruct Hcase as (_ & _ & ->).
      destruct (list_find _ (assetsOf w)) as [[k y]|]; [by apply Halter|].
      exists a. by split_and!.
    + destruct Hcase as (_ & Hls). unfold assetsOf in *. rewrite Hls.
      exists a. by split_and!.
  - simpl. exists a. by split_and!.
Qed.

Lemma assets_never_deleted_witness :
  faults demoWorld = []
  ∧ ∃ a a', assetsOf demoWorld !! 1 = Some a
      ∧ assetsOf (step (EvCheckOut rentFree "h2j4k6l8") demoWorld) !! 1 = Some a'
      ∧ Asset.id a' = Asset.id a.
Proof.
  split; [by vm_compute|].
  assert (∃ a, assetsOf demoWorld !! 1 = Some a) as [a Ha]
    by (eexists; by vm_compute).
  destruct (assets_never_deleted (EvCheckOut rentFree "h2j4k6l8") demoWorld 1 a)
    as (a' & H1 & H2 & _); [by vm_compute|exact Ha|].
  exists a, a'. by split_and!.
Defined.

(* ------------------------------------------------------------------ *)
(** ** Check-in on a doubly rented asset *)
(* ------------------------------------------------------------------ *)

(** X24: a check-in on an asset with two or more unreturned rentals
    (storage working) returns only the first of them in list order and
    still marks the asset idle, so the asset is idle while a rental of it
    remains unreturned. *)
Theorem checkIn_of_doubly_rented_asset assetId idx a w :
  faults w = [] →
  2 ≤ length (activeRentals assetId (rentalsOf w)) →
  list_find (hasId assetId) (assetsOf w) = Some (idx, a) →
  let w' := exec (handleCheckIn assetId) w in
  alerts w' = alerts w
  ∧ assetsOf w' !! idx = Some (markIdle (clock w) a)
  ∧ Asset.status (markIdle (clock w) a) = idle
  ∧ Asset.id (markIdle (clock w) a) = assetId
  ∧ activeRentals assetId (rentalsOf w') = tail (activeRentals assetId (rentalsOf w))
  ∧ activeRentals assetId (rentalsOf w') ≠ [].
Proof.
  intros Hw Htwo HfindA w'.
  destruct (handleCheckIn_ok assetId w Hw) as (wo & Hrun & _ & Hcase).
  assert (Hw' : w' = wo) by (subst w'; unfold exec; by rewrite Hrun).
  clearbody w'. subst w'.
  destruct (list_find (activeFor assetId) (rentalsOf w)) as [[i x]|] eqn:Hfind.
  - destruct Hcase as (Hal & HR & HA). rewrite HfindA in HA.
    pose proof HfindA as (Hidx & Hid & _)%list_find_Some.
    assert (Htail : activeRentals assetId (rentalsOf wo)
                    = tail (activeRentals assetId (rentalsOf w))).
    { rewrite HR, (activeRentals_return _ _ _ _ _ _ Hfind).
      by rewrite decide_True. }
    split_and!; [done| |done|exact Hid|exact Htail|].
    + by rewrite HA, list_lookup_alter_eq, Hidx.
    + rewrite Htail.
      destruct (activeRentals assetId (rentalsOf w)) as [|? [|? ?]];
        simpl in *; [lia|lia|done].
  - apply firstActive_None_iff in Hfind. rewrite Hfind in Htwo. simpl in Htwo. lia.
Qed.

Lemma checkIn_of_doubly_rented_asset_witness :
  faults (step (EvCheckOut rerent "k3x9q2ab") demoWorld) = []
  ∧ 2 ≤ length (activeRentals "exc-320-1"
                  (rentalsOf (step (EvCheckOut rerent "k3x9q2ab") demoWorld)))
  ∧ activeRentals "exc-320-1"
      (rentalsOf (exec (handleCheckIn "exc-320-1")
                    (step (EvCheckOut rerent "k3x9q2ab") demoWorld))) ≠ [].
Proof.
  assert (Htwo : 2 ≤ length (activeRentals "exc-320-1"
                   (rentalsOf (step (EvCheckOut rerent "k3x9q2ab") demoWorld))))
    by (vm_compute; lia).
  split; [by vm_compute|]. split; [exact Htwo|].
  assert (∃ a, list_find (hasId "exc-320-1")
                 (assetsOf (step (EvCheckOut rerent "k3x9q2ab") demoWorld))
               = Some (0, a)) as [a Hfind] by (eexists; by vm_compute).
  destruct (checkIn_of_doubly_rented_asset "exc-320-1" 0 a
              (step (EvCheckOut rerent "k3x9q2ab") demoWorld))
    as (_ & _ & _ & _ & _ & H); [by vm_compute|exact Htwo|exact Hfind|exact H].
Defined.

(* ------------------------------------------------------------------ *)
(** ** The history view *)
(* ------------------------------------------------------------------ *)

Lemma History_insert_perm x (l : list Rental.t) :
  History.insert x l ≡ₚ x :: l.
Proof.
  induction l as [|y l IH]; simpl; [done|].
  case_bool_decide; [done|]. rewrite IH. apply Permutation_swap.
Qed.

Lemma History_sort_perm (l : list Rental.t) : History.sort l ≡ₚ l.
Proof.
  induction l as [|x l IH]; simpl; [done|].
  unfold History.sort in *. by rewrite History_insert_perm, IH.
Qed.

Lemma History_insert_sorted x (l : list Rental.t) :
  StronglySorted (λ a b, (Rental.createdAt b ≤ Rental.createdAt a)%Z) l →
  StronglySorted (λ a b, (Rental.createdAt b ≤ Rental.createdAt a)%Z)
    (History.insert x l).
Proof.
  induction 1 as [|y l Hs IH Hy]; simpl.
  - repeat constructor.
  - case_bool_decide as Hle.
    + constructor; [by constructor|].
      constructor; [lia|].
      eapply Forall_impl; [exact Hy|]. simpl. intros z Hz. lia.
    + constructor; [exact IH|].
      rewrite History_insert_perm. constructor; [lia|exact Hy].
Qed.

Lemma History_sort_sorted (l : list Rental.t) :
  StronglySorted (λ a b, (Rental.createdAt b ≤ Rental.createdAt a)%Z)
    (History.sort l).
Proof.
  induction l as [|x l IH]; simpl; [constructor|].
  by apply History_insert_sorted.
Qed.

(** X12: the history lists exactly the rentals of the store, newest
    first: the sorted list is a permutation of the input, and a rental
    never comes before one created later. *)
Theorem history_sort_newest_first (l : list Rental.t) :
  History.sort l ≡ₚ l
  ∧ ∀ i j a b,
      i < j → History.sort l !! i = Some a → History.sort l !! j = Some b →
      (Rental.createdAt b ≤ Rental.createdAt a)%Z.
Proof.
  split; [apply History_sort_perm|].
  pose proof (History_sort_sorted l) as Hs.
  induction Hs as [|x s Hs IH Hx]; intros i j a b Hij Hi Hj; [done|].
  destruct j as [|j]; [lia|]. simpl in Hj. destruct i as [|i].
  - simpl in Hi. injection Hi as <-.
    rewrite Forall_forall in Hx. apply Hx. by eapply list_elem_of_lookup_2.
  - simpl in Hi. eapply (IH i j); [lia|done..].
Qed.

Lemma History_insert_stable t x (l : list Rental.t) :
  filter (λ r, Rental.createdAt r = t) (History.insert x l)
  = filter (λ r, Rental.createdAt r = t) (x :: l).
Proof.
  induction l as [|y l IH]; simpl; [done|].
  case_bool_decide as Hle; [done|].
  rewrite filter_cons, IH, !filter_cons.
  destruct (decide (Rental.createdAt y = t)) as [Hy|Hy];
    destruct (decide (Rental.createdAt x = t)) as [Hx|Hx]; try done.
  lia.
Qed.

(** X13: the sort of the history is stable: rentals created at the same
    instant keep the order they have in the store. *)
Theorem history_sort_stable t (l : list Rental.t) :
  filter (λ r, Rental.createdAt r = t) (History.sort l)
  = filter (λ r, Rental.createdAt r = t) l.
Proof.
  induction l as [|x l IH]; [done|].
  change (History.sort (x :: l)) with (History.insert x (History.sort l)).
  by rewrite History_insert_stable, !filter_cons, IH.
Qed.

Lemma History_isLate_iff rental :
  History.isLate rental = true
  ↔ ∃ t, Rental.returnedAt rental = Some t ∧ (t > Rental.checkInAt rental)%Z.
Proof.
  unfold History.isLate. destruct (Rental.returnedAt rental) as [t|].
  - rewrite bool_decide_eq_true. split.
    + intros Hlt. exists t. split; [done|lia].
    + intros (t' & [= <-] & Hgt). lia.
  - split; [discriminate|]. by intros (t' & ? & _).
Qed.

Lemma Math_ceil_div_pos a b : (0 < b)%Z → (0 < a)%Z → (1 ≤ Math_ceil_div a b)%Z.
Proof.
  intros Hb Ha. pose proof (Math_ceil_div_bounds a b Hb). nia.
Qed.

(** X14: a rental is shown as returned late exactly when it was returned
    after its expected check-in; when the delay is at most 2^53 ms (the
    spans the code subtracts exactly) the late days shown are the ceiling
    of the delay in days; they are 0 for every rental not returned late. *)
Theorem lateDays_is_ceiling rental :
  (History.isLate rental = true
   ↔ ∃ t, Rental.returnedAt rental = Some t ∧ (t > Rental.checkInAt rental)%Z)
  ∧ (∀ t, Rental.returnedAt rental = Some t → (t > Rental.checkInAt rental)%Z →
       (t - Rental.checkInAt rental ≤ 2 ^ 53)%Z →
       let d := History.lateDays rental in
       ((d - 1) * DAY < t - Rental.checkInAt rental ≤ d * DAY)%Z)
  ∧ (History.isLate rental = false → History.lateDays rental = 0%Z).
Proof.
  split; [apply History_isLate_iff|]. split.
  - intros t Ht Hgt _ d. subst d. unfold History.lateDays, History.isLate.
    rewrite Ht, bool_decide_eq_true_2 by lia.
    by apply (Math_ceil_div_bounds _ DAY).
  - unfold History.lateDays. intros ->. by destruct (Rental.returnedAt rental).
Qed.

Lemma lateDays_is_ceiling_witness :
  Rental.returnedAt returnedLate = Some (T0 - 2 * DAY)%Z
  ∧ (T0 - 2 * DAY > Rental.checkInAt returnedLate)%Z
  ∧ (T0 - 2 * DAY - Rental.checkInAt returnedLate ≤ 2 ^ 53)%Z
  ∧ History.lateDays returnedLate = 1%Z.
Proof.
  split; [reflexivity|]. split; [by vm_compute|].
  assert (Hrange : (T0 - 2 * DAY - Rental.checkInAt returnedLate ≤ 2 ^ 53)%Z)
    by (by vm_compute).
  split; [exact Hrange|].
  destruct (lateDays_is_ceiling returnedLate) as (_ & H & _).
  specialize (H (T0 - 2 * DAY)%Z eq_refl). simpl in H.
  assert (Hgt : (T0 - 2 * DAY > Rental.checkInAt returnedLate)%Z) by (by vm_compute).
  specialize (H Hgt Hrange). clear Hgt Hrange. revert H.
  generalize (History.lateDays returnedLate). intros d.
  unfold returnedLate, threeDaysLate, DAY, T0. simpl. lia.
Defined.

(** X15: the status text of a history entry classifies the rental: it is
    one of four texts, "Active" for an unreturned rental not yet due,
    "Returned" for one returned by its expected check-in, "Returned Late"
    for one returned after it (and "OVERDUE" otherwise). *)
Theorem history_status_classifies now rental :
  (History.statusText now rental = "Active"
   ↔ Rental.returnedAt rental = None ∧ (now ≤ Rental.checkInAt rental)%Z)
  ∧ (History.statusText now rental = "Returned"
     ↔ ∃ t, Rental.returnedAt rental = Some t ∧ (t ≤ Rental.checkInAt rental)%Z)
  ∧ (History.statusText now rental = "Returned Late"
     ↔ ∃ t, Rental.returnedAt rental = Some t ∧ (t > Rental.checkInAt rental)%Z)
  ∧ History.statusText now rental
    ∈ ["OVERDUE"; "Active"; "Returned"; "Returned Late"].
Proof.
  unfold History.statusText, History.isOverdue, History.isReturned,
    History.isLate.
  destruct rental as [id k site co ci cu fu od no cr [t|]].
  - rewrite (bool_decide_eq_false_2 (notReturned _)) by (by unfold notReturned).
    rewrite (bool_decide_eq_true_2 (¬ notReturned _)) by (by unfold notReturned).
    simpl. case_bool_decide as Hlt; split_and!.
    + split; [discriminate|by intros [? _]].
    + split; [discriminate|]. intros (t' & [= <-] & ?). lia.
    + split; [|done]. intros _. exists t. split; [done|lia].
    + by repeat constructor.
    + split; [discriminate|by intros [? _]].
    + split; [|done]. intros _. exists t. split; [done|lia].
    + split; [discriminate|]. intros (t' & [= <-] & ?). lia.
    + by repeat constructor.
  - rewrite (bool_decide_eq_true_2 (notReturned _)) by done.
    rewrite (bool_decide_eq_false_2 (¬ notReturned _)) by (by intros H; apply H).
    simpl. case_bool_decide as Hlt; split_and!;
      try (split; [discriminate|by intros (? & ? & _)]);
      try (by repeat constructor).
    + split; [discriminate|]. intros [_ ?]. lia.
    + split; [|done]. intros _. split; [done|lia].
Qed.

(** X16: a counter is shown as at least one day exactly when its flag is
    set: an overdue rental is never "0 days overdue", a late return never
    "0 days late", and the counters are 0 otherwise. *)
Theorem day_counters_positive_iff_flagged now rental :
  ((1 ≤ History.overdueDays now rental)%Z ↔ History.isOverdue now rental = true)
  ∧ ((1 ≤ History.lateDays rental)%Z ↔ History.isLate rental = true)
  ∧ (0 ≤ History.overdueDays now rental)%Z ∧ (0 ≤ History.lateDays rental)%Z.
Proof.
  assert (Ho : (1 ≤ History.overdueDays now rental)%Z
               ↔ History.isOverdue now rental = true).
  { unfold History.overdueDays.
    destruct (History.isOverdue now rental) eqn:Hov; [|split; [lia|done]].
    split; [done|]. intros _. apply isOverdue_true_iff in Hov as [_ Hgt].
    apply Math_ceil_div_pos; [done|lia]. }
  assert (Hl : (1 ≤ History.lateDays rental)%Z ↔ History.isLate rental = true).
  { unfold History.lateDays.
    destruct (History.isLate rental) eqn:Hlate.
    - apply History_isLate_iff in Hlate as (t & -> & Hgt).
      split; [done|]. intros _. apply Math_ceil_div_pos; [done|lia].
    - destruct (Rental.returnedAt rental); split; (lia || done). }
  split_and!; [done..| |].
  - destruct (decide (History.isOverdue now rental = true)) as [Hov|Hov].
    + apply Ho in Hov. lia.
    + apply not_true_is_false in Hov. unfold History.overdueDays.
      by rewrite Hov.
  - destruct (decide (History.isLate rental = true)) as [Hlate|Hlate].
    + apply Hl in Hlate. lia.
    + apply not_true_is_false in Hlate. unfold History.lateDays.
      rewrite Hlate. by destruct (Rental.returnedAt rental).
Qed.

(* ------------------------------------------------------------------ *)
(** ** The dashboard *)
(* ------------------------------------------------------------------ *)

Lemma renderDashboard_value w :
  faults w = [] →
  renderDashboard w
  = (Ok (Dashboard.mk
           (filter (λ r, notReturned r ∧ (Rental.checkInAt r < clock w)%Z)
                   (rentalsOf w))
           (map (λ a, Dashboard.mkCard a
                        (Dashboard.activeRental (rentalsOf w) a)
                        (Dashboard.isOverdue (clock w) (rentalsOf w) a)
                        (Dashboard.status (clock w) (rentalsOf w) a)
                        (Dashboard.overdueDays (clock w) (rentalsOf w) a))
                (assetsOf w))
           (length (assetsOf w))
           (length (filter (λ a, Asset.status a = idle) (assetsOf w)))
           (length (filter notReturned (rentalsOf w)))), w).
Proof.
  intros Hw. unfold renderDashboard.
  rewrite (bind_run _ _ _ _ _ (getAssets_ok w Hw)).
  rewrite (bind_run _ _ _ _ _ (getRentals_ok w Hw)).
  rewrite (bind_run _ _ w (clock w) w) by done.
  by rewrite (bind_run _ _ _ _ _ (getRentedCount_ok w Hw)).
Qed.

Lemma renderRentalHistory_value w :
  faults w = [] →
  ∃ entries,
    renderRentalHistory w
    = (Ok (History.mk entries
             (length (filter (λ r, notReturned r
                                   ∧ (Rental.checkInAt r < clock w)%Z)
                             (History.sort (rentalsOf w))))
             (length (filter notReturned (History.sort (rentalsOf w))))
             (length (History.sort (rentalsOf w)))), w)
    ∧ map History.entry_rental entries = History.sort (rentalsOf w).
Proof.
  intros Hw. unfold renderRentalHistory.
  rewrite (bind_run _ _ _ _ _ (getRentals_ok w Hw)).
  rewrite (bind_run _ _ _ _ _ (getAssets_ok w Hw)).
  rewrite (bind_run _ _ w (clock w) w) by done.
  eexists. split; [reflexivity|].
  rewrite map_map. simpl. apply map_id.
Qed.

Lemma filter_and_length_le {A} (P Q : A → Prop)
    `{∀ x, Decision (P x)} `{∀ x, Decision (Q x)} (l : list A) :
  length (filter (λ x, P x ∧ Q x) l) ≤ length (filter P l).
Proof.
  induction l as [|x l IH]; [done|]. rewrite !filter_cons.
  repeat case_decide; simpl; try lia. tauto.
Qed.

(** X11: with storage working the dashboard and the history count the
    same store: the "Rented" figure of the dashboard is the "Active
    Rentals" figure of the history, the overdue alert counts the rentals
    the history counts as overdue, the history totals every rental, and
    overdue <= active <= total. *)
Theorem dashboard_and_history_agree w :
  faults w = [] →
  ∃ d h,
    renderDashboard w = (Ok d, w) ∧ renderRentalHistory w = (Ok h, w)
    ∧ Dashboard.rentedCount d = History.activeCount h
    ∧ length (Dashboard.overdueRentals d) = History.overdueCount h
    ∧ History.totalCount h = length (rentalsOf w)
    ∧ length (History.historyList h) = length (rentalsOf w)
    ∧ History.overdueCount h ≤ History.activeCount h
    ∧ History.activeCount h ≤ History.totalCount h.
Proof.
  intros Hw.
  destruct (renderRentalHistory_value w Hw) as (entries & Hh & Hentries).
  eexists _, _. split; [by apply renderDashboard_value|]. split; [exact Hh|].
  simpl. split_and!.
  - by rewrite History_sort_perm.
  - by rewrite History_sort_perm.
  - by rewrite History_sort_perm.
  - rewrite <- (length_map History.entry_rental), Hentries.
    by rewrite History_sort_perm.
  - apply filter_and_length_le.
  - apply length_filter.
Qed.

Lemma dashboard_and_history_agree_witness :
  faults demoWorld = []
  ∧ ∃ d h, renderDashboard demoWorld = (Ok d, demoWorld)
      ∧ renderRentalHistory demoWorld = (Ok h, demoWorld)
      ∧ Dashboard.rentedCount d = History.activeCount h.
Proof.
  split; [by vm_compute|].
  destruct (dashboard_and_history_agree demoWorld)
    as (d & h & H1 & H2 & H3 & _); [by vm_compute|].
  exists d, h. by split_and!.
Defined.

Lemma filter_split_length {A} (P Q : A → Prop)
    `{∀ x, Decision (P x)} `{∀ x, Decision (Q x)} (l : list A) :
  length (filter P l)
  = length (filter (λ x, Q x ∧ P x) l)
    + length (filter P (filter (λ x, ¬ Q x) l)).
Proof.
  induction l as [|x l IH]; [done|]. rewrite !filter_cons.
  destruct (decide (Q x)) as [HQ|HQ]; destruct (decide (P x)) as [HP|HP].
  - rewrite decide_True, decide_False by tauto. simpl. lia.
  - rewrite decide_False, decide_False by tauto. simpl. lia.
  - rewrite decide_False, decide_True by tauto.
    rewrite filter_cons, decide_True by done. simpl. lia.
  - rewrite decide_False, decide_True by tauto.
    rewrite filter_cons, decide_False by done. simpl. lia.
Qed.

Lemma activeRentals_without k k' (R : list Rental.t) :
  activeRentals k (filter (λ r, ¬ Rental.assetId r = k') R)
  = if decide (k = k') then [] else activeRentals k R.
Proof.
  unfold activeRentals. induction R as [|r R IH]; simpl.
  - by destruct (decide (k = k')).
  - rewrite !filter_cons.
    destruct (decide (¬ Rental.assetId r = k')) as [Hr|Hr].
    + rewrite filter_cons, IH.
      destruct (decide (k = k')) as [->|Hne]; [|done].
      rewrite decide_False; [done|]. intros [? _]. done.
    + rewrite IH. destruct (decide (k = k')) as [->|Hne]; [done|].
      rewrite decide_False; [done|]. intros [Heq _]. apply Hr. congruence.
Qed.

Lemma ledgerOK_tail a A R :
  ledgerOK (a :: A) R →
  ledgerOK A (filter (λ r, ¬ Rental.assetId r = Asset.id a) R).
Proof.
  intros (Hnd & Hlisted & Hone & Hcons).
  apply NoDup_cons in Hnd as [Hnotin Hnd]. split_and!; [done| | |].
  - intros r [Hne Hr]%list_elem_of_filter Hnr.
    specialize (Hlisted r Hr Hnr). simpl in Hlisted.
    apply elem_of_cons in Hlisted as [Heq|Hin]; [done|exact Hin].
  - intros k. rewrite activeRentals_without.
    destruct (decide (k = Asset.id a)); [simpl; lia|apply Hone].
  - intros a' Ha'. rewrite activeRentals_without.
    rewrite decide_False.
    + apply Hcons. by right.
    + intros Heq. apply Hnotin. rewrite <- Heq.
      apply list_elem_of_fmap. by exists a'.
Qed.

(** In a consistent ledger there are as many unreturned rentals as rented
    assets. *)
Lemma rented_count A R :
  ledgerOK A R →
  length (filter notReturned R)
  = length (filter (λ a, Asset.status a = rented) A).
Proof.
  revert R. induction A as [|a A IH]; intros R HOK.
  - destruct HOK as (_ & Hlisted & _). simpl.
    destruct (filter notReturned R) as [|r l] eqn:Hf; [done|].
    assert (Hr : r ∈ filter notReturned R) by (rewrite Hf; left).
    apply list_elem_of_filter in Hr as [Hnr Hr].
    specialize (Hlisted r Hr Hnr). by apply elem_of_nil in Hlisted.
  - rewrite (filter_split_length notReturned
               (λ r, Rental.assetId r = Asset.id a) R).
    rewrite (IH _ (ledgerOK_tail _ _ _ HOK)).
    destruct HOK as (_ & _ & Hone & Hcons).
    specialize (Hone (Asset.id a)). assert (Hin : a ∈ a :: A) by left. specialize (Hcons a Hin).
    change (filter (λ x, Rental.assetId x = Asset.id a ∧ notReturned x) R)
      with (activeRentals (Asset.id a) R).
    rewrite filter_cons.
    destruct (decide (Asset.status a = rented)) as [Hr|Hr]; simpl.
    + apply Hcons in Hr.
      destruct (activeRentals (Asset.id a) R) as [|? [|? ?]]; simpl in *;
        [done|lia|lia].
    + destruct (activeRentals (Asset.id a) R) as [|? ?]; [done|].
      exfalso. apply Hr, Hcons. done.
Qed.

Lemma idle_or_rented_length (A : list Asset.t) :
  length (filter (λ a, Asset.status a = idle) A)
  + length (filter (λ a, Asset.status a = rented) A) = length A.
Proof.
  induction A as [|a A IH]; [done|]. rewrite !filter_cons.
  destruct (Asset.status a) eqn:Hs; repeat case_decide; simpl; try done; lia.
Qed.

Lemma reachable_ledgerInv w :
  reachable seededIntact disciplined w → ledgerInv w.
Proof.
  induction 1 as [w Hseed|w e _ IH Hok].
  - apply seededIntact_inv in Hseed as (now & Hw & HA & HR & _).
    split; [done|]. rewrite HA, HR. apply demo_ledgerOK.
  - by apply ledgerInv_step.
Qed.

(** X10: in every store reachable from the seeded store by check-ins,
    check-outs of listed assets without active rental, and additions
    under fresh ids (storage working), the three figures of the dashboard
    add up: Available + Rented = Total Equipment. *)
Theorem dashboard_figures_add_up w :
  reachable seededIntact disciplined w →
  ∃ d, renderDashboard w = (Ok d, w)
    ∧ Dashboard.available d + Dashboard.rentedCount d = Dashboard.total d.
Proof.
  intros [Hw HOK]%reachable_ledgerInv.
  eexists. split; [by apply renderDashboard_value|]. simpl.
  rewrite (rented_count _ _ HOK). apply idle_or_rented_length.
Qed.

Lemma dashboard_figures_add_up_witness :
  reachable seededIntact disciplined
    (step (EvCheckOut rentFree "h2j4k6l8")
       (step (EvAddAsset newCrane "q7w8e9r0") demoWorld))
  ∧ ∃ d, renderDashboard
           (step (EvCheckOut rentFree "h2j4k6l8")
              (step (EvAddAsset newCrane "q7w8e9r0") demoWorld))
         = (Ok d, step (EvCheckOut rentFree "h2j4k6l8")
                    (step (EvAddAsset newCrane "q7w8e9r0") demoWorld))
      ∧ Dashboard.available d + Dashboard.rentedCount d = Dashboard.total d.
Proof.
  assert (Hreach :
    reachable seededIntact disciplined
      (step (EvCheckOut rentFree "h2j4k6l8")
         (step (EvAddAsset newCrane "q7w8e9r0") demoWorld))).
  { apply reach_step.
    - apply reach_step.
      + apply reach_init. exists (emptyWorld T0). by split.
      + refine (bool_decide_unpack _ _). by vm_compute.
    - split; [refine (bool_decide_unpack _ _); by vm_compute|by vm_compute]. }
  split; [exact Hreach|]. exact (dashboard_figures_add_up _ Hreach).
Defined.

(** Every listener of a click on "Check In" calls [handleCheckIn]: with
    storage working, [n] calls in a row return the first [n] unreturned
    rentals of the asset and alert once for each call beyond them; a
    returned rental stays as it is, and the first unreturned one is
    stamped with the clock. *)
Lemma dispatch_handleCheckIn k n w :
  faults w = [] →
  ∃ w', dispatch n (handleCheckIn k) w = (Ok tt, w')
    ∧ faults w' = [] ∧ clock w' = clock w
    ∧ activeRentals k (rentalsOf w') = drop n (activeRentals k (rentalsOf w))
    ∧ alerts w'
      = alerts w ++ replicate (n - length (activeRentals k (rentalsOf w)))
                      "No active rental found for this asset."
    ∧ (∀ i r, rentalsOf w !! i = Some r → ¬ notReturned r →
         rentalsOf w' !! i = Some r)
    ∧ (∀ i r, list_find (activeFor k) (rentalsOf w) = Some (i, r) → 0 < n →
         rentalsOf w' !! i = Some (Rental_set_returnedAt (Some (clock w)) r)).
Proof.
  revert w. induction n as [|n IH]; intros w Hw.
  { exists w. simpl. rewrite drop_0, app_nil_r.
    split_and!; [done..|]. intros i r _ Hlt. lia. }
  destruct (handleCheckIn_ok k w Hw) as (w1 & Hrun & (Hf1 & Hck1 & _) & Hcase).
  destruct (IH w1 Hf1) as (w' & Hrun' & Hf' & Hck' & Hact & Hal & Hkeep & Hfirst).
  exists w'. split.
  { cbn [dispatch].
    rewrite (bind_run _ _ w tt w1); [done|].
    unfold try_catch. by rewrite Hrun. }
  split; [done|]. split; [by rewrite Hck', Hck1|].
  destruct (list_find (activeFor k) (rentalsOf w)) as [[i x]|] eqn:Hfind.
  - destruct Hcase as (Hal1 & HR1 & _).
    pose proof Hfind as (Hi & Hx & _)%list_find_Some.
    assert (Htail : activeRentals k (rentalsOf w1)
                    = tail (activeRentals k (rentalsOf w))).
    { rewrite HR1, (activeRentals_return _ _ _ _ _ _ Hfind).
      by rewrite decide_True. }
    assert (Hne : activeRentals k (rentalsOf w) ≠ []).
    { intros Hnil. apply firstActive_None_iff in Hnil. congruence. }
    assert (Hstamp : rentalsOf w1 !! i
                     = Some (Rental_set_returnedAt (Some (clock w)) x)).
    { by rewrite HR1, list_lookup_alter_eq, Hi. }
    split_and!.
    + rewrite Hact, Htail. by destruct (activeRentals k (rentalsOf w)).
    + rewrite Hal, Hal1, Htail. do 2 f_equal.
      destruct (activeRentals k (rentalsOf w)); [done|]. simpl. lia.
    + intros j r Hj Hret. apply Hkeep; [|done].
      rewrite HR1, list_lookup_alter_ne; [done|].
      intros <-. rewrite Hi in Hj. injection Hj as <-.
      by destruct Hx as [_ Hx].
    + intros j r [= <- <-] _. by apply Hkeep.
  - destruct Hcase as (Hal1 & Hls1).
    assert (HR1 : rentalsOf w1 = rentalsOf w)
      by (unfold rentalsOf; by rewrite Hls1).
    pose proof Hfind as Hnil%firstActive_None_iff.
    split_and!.
    + by rewrite Hact, HR1, Hnil, !drop_nil.
    + rewrite Hal, Hal1, HR1, Hnil. simpl.
      rewrite Nat.sub_0_r, <- app_assoc. done.
    + intros j r Hj Hret. apply Hkeep; [|done]. by rewrite HR1.
    + intros j r [=].
Qed.

(** X17: the "Check In" button of a dashboard card is only offered on an
    asset with an active rental, and (the id having no character the HTML
    parser treats specially) carries the id of the asset.  A click on it
    runs every click listener registered so far, one per rendering of the
    dashboard, and each calls [handleCheckIn].  With storage working and
    [S n] listeners, the click stamps the first unreturned rental of the
    asset with the current time, returns the first [S n] unreturned
    rentals of the asset in all, and raises the "No active rental" alert
    once for every listener beyond their number: never when the dashboard
    has been rendered once, and [n] times when the asset had one
    unreturned rental. *)
Theorem checkIn_click_runs_every_listener w a text n :
  faults w = [] →
  rentBtn (rentalsOf w) a = BtnReturn text →
  allChars attrSafe (Asset.id a) = true →
  ∃ m i r,
    click (S n) (BtnReturn text) = Some m
    ∧ text = Asset.id a
    ∧ list_find (activeFor (Asset.id a)) (rentalsOf w) = Some (i, r)
    ∧ outcome m w = Ok tt
    ∧ rentalsOf (exec m w) !! i
      = Some (Rental.mk (Rental.id r) (Rental.assetId r) (Rental.site r)
                (Rental.checkOutAt r) (Rental.checkInAt r) (Rental.customer r)
                (Rental.fuelAtStart r) (Rental.odometerAtStart r)
                (Rental.notes r) (Rental.createdAt r) (Some (clock w)))
    ∧ activeRentals (Asset.id a) (rentalsOf (exec m w))
      = drop (S n) (activeRentals (Asset.id a) (rentalsOf w))
    ∧ alerts (exec m w)
      = alerts w
        ++ replicate (S n - length (activeRentals (Asset.id a) (rentalsOf w)))
             "No active rental found for this asset."
    ∧ (n = 0 → alerts (exec m w) = alerts w)
    ∧ (length (activeRentals (Asset.id a) (rentalsOf w)) = 1 →
         alerts (exec m w)
         = alerts w ++ replicate n "No active rental found for this asset.").
Proof.
  intros Hw Hbtn Hsafe. unfold rentBtn, Dashboard.activeRental in Hbtn.
  destruct (list_find (activeFor (Asset.id a)) (rentalsOf w))
    as [[i r]|] eqn:Hfind; [|discriminate Hbtn].
  simpl in Hbtn. injection Hbtn as <-.
  exists (dispatch (S n) (handleCheckIn (Asset.id a))), i, r.
  split. { unfold click, getAttribute. by rewrite Hsafe. }
  split; [done|]. split; [done|].
  destruct (dispatch_handleCheckIn (Asset.id a) (S n) w Hw)
    as (w' & Hrun & _ & _ & Hact & Hal & _ & Hfirst).
  unfold outcome, exec. rewrite Hrun. simpl fst. simpl snd.
  assert (Hne : activeRentals (Asset.id a) (rentalsOf w) ≠ []).
  { intros Hnil. apply firstActive_None_iff in Hnil. congruence. }
  split_and!; [done| |done|done| |].
  - rewrite (Hfirst i r Hfind) by lia. done.
  - intros ->. rewrite Hal.
    destruct (activeRentals (Asset.id a) (rentalsOf w)); [done|].
    simpl. by rewrite app_nil_r.
  - intros Hone. rewrite Hal, Hone. do 2 f_equal. lia.
Qed.

Lemma checkIn_click_runs_every_listener_witness :
  faults demoWorld = []
  ∧ rentBtn (rentalsOf demoWorld) demoLoader1 = BtnReturn "ldr-950-1"
  ∧ allChars attrSafe (Asset.id demoLoader1) = true
  ∧ ∃ m, click 2 (BtnReturn "ldr-950-1") = Some m
      ∧ alerts (exec m demoWorld)
        = alerts demoWorld ++ ["No active rental found for this asset."].
Proof.
  assert (Hbtn : rentBtn (rentalsOf demoWorld) demoLoader1 = BtnReturn "ldr-950-1")
    by (by vm_compute).
  assert (Hsafe : allChars attrSafe (Asset.id demoLoader1) = true)
    by (by vm_compute).
  split; [by vm_compute|]. split; [exact Hbtn|]. split; [exact Hsafe|].
  destruct (checkIn_click_runs_every_listener demoWorld demoLoader1
              "ldr-950-1" 1)
    as (m & i & r & Hclick & _ & _ & _ & _ & _ & _ & _ & Hone);
    [by vm_compute|exact Hbtn|exact Hsafe|].
  exists m. split; [exact Hclick|]. apply Hone. by vm_compute.
Defined.

(** X9: adding equipment (storage working) appends one asset to the list
    and touches neither the assets already listed nor the rentals.  The
    new asset is idle, last seen now, with the name, category, site and
    description entered.  Its quantity is never 0: an empty, non-numeric
    or zero quantity field gives 1, and every other number entered, a
    negative one too, is taken as it is.  For a category of ASCII
    characters its id is the lower-cased category, a dash and the random
    suffix.  Its emoji is the one the emoji table lists for the category,
    and the fallback for a category the table does not list (and the
    object does not inherit).  On the dashboard shown next, the total and
    the available count are one higher and the rented count is the
    same. *)
Theorem addEquipment_appends_idle_asset formData uid w :
  faults w = [] →
  let w' := exec (addEquipment_submit formData uid) w in
  ∃ new d d',
    assetsOf w' = assetsOf w ++ [new]
    ∧ rentalsOf w' = rentalsOf w
    ∧ alerts w' = alerts w
    ∧ Asset.name new = EquipmentForm.name formData
    ∧ Asset.category new = EquipmentForm.category formData
    ∧ Asset.site new = EquipmentForm.site formData
    ∧ Asset.description new = EquipmentForm.description formData
    ∧ Asset.status new = idle
    ∧ Asset.lastSeenAt new = clock w
    ∧ Asset.quantity new ≠ 0%Z
    ∧ (∀ q, EquipmentForm.quantity formData = Some q → q ≠ 0%Z →
         Asset.quantity new = q)
    ∧ (EquipmentForm.quantity formData = None
       ∨ EquipmentForm.quantity formData = Some 0%Z →
         Asset.quantity new = 1%Z)
    ∧ (isASCII (EquipmentForm.category formData) = true →
         Asset.id new
         = toLowerCase (EquipmentForm.category formData) +:+ "-" +:+ uid)
    ∧ (∀ e, emojiMap !! EquipmentForm.category formData = Some e →
         Asset.imageEmoji new = e)
    ∧ (emojiMap !! EquipmentForm.category formData = None →
       EquipmentForm.category formData ∉ Object_prototype_keys →
         Asset.imageEmoji new = "üîß")
    ∧ renderDashboard w = (Ok d, w)
    ∧ renderDashboard w' = (Ok d', w')
    ∧ Dashboard.total d' = S (Dashboard.total d)
    ∧ Dashboard.available d' = S (Dashboard.available d)
    ∧ Dashboard.rentedCount d' = Dashboard.rentedCount d.
Proof.
  intros Hw w'.
  destruct (addEquipment_submit_ok formData uid w Hw)
    as (wo & Hrun & (Hf & _) & Hal & HR & HA).
  assert (Hw' : w' = wo) by (subst w'; unfold exec; by rewrite Hrun).
  clearbody w'. subst w'.
  eexists (assetOfForm formData uid (clock w)), _, _.
  split_and!; [done..| | | |done| | |by apply renderDashboard_value
              |by apply renderDashboard_value| | |].
  - simpl. destruct (EquipmentForm.quantity formData) as [q|]; [|done].
    by case_bool_decide.
  - intros q Hq Hne. simpl. rewrite Hq. by rewrite bool_decide_eq_false_2.
  - intros [Hq|Hq]; simpl; by rewrite Hq.
  - intros e He. simpl. unfold getEmojiForCategory. by rewrite He.
  - intros He _. simpl. unfold getEmojiForCategory. by rewrite He.
  - simpl. rewrite HA, length_app. simpl. lia.
  - simpl. rewrite HA, filter_app, length_app, filter_cons, decide_True by done.
    simpl. lia.
  - simpl. by rewrite HR.
Qed.

Lemma addEquipment_appends_idle_asset_witness :
  faults demoWorld = []
  ∧ isASCII (EquipmentForm.category newCrane) = true
  ∧ length (assetsOf (exec (addEquipment_submit newCrane "q7w8e9r0") demoWorld))
    = 64
  ∧ Asset.id <$>
      last (assetsOf (exec (addEquipment_submit newCrane "q7w8e9r0") demoWorld))
    = Some "crane-q7w8e9r0"
  ∧ Asset.imageEmoji <$>
      last (assetsOf (exec (addEquipment_submit newCrane "q7w8e9r0") demoWorld))
    = emojiMap !! "Crane".
Proof.
  assert (Hascii : isASCII (EquipmentForm.category newCrane) = true)
    by (by vm_compute).
  split; [by vm_compute|]. split; [exact Hascii|].
  destruct (addEquipment_appends_idle_asset newCrane "q7w8e9r0" demoWorld)
    as (new & d & d' & H & _ & _ & _ & _ & _ & _ & _ & _ & _ & _ & _ & Hid
        & Hemoji & _);
    [by vm_compute|].
  rewrite H, length_app, last_snoc. split; [by vm_compute|].
  assert (∃ e, emojiMap !! EquipmentForm.category newCrane = Some e) as [e He]
    by (eexists; by vm_compute).
  split.
  - simpl. f_equal. rewrite (Hid Hascii). by vm_compute.
  - simpl. rewrite (Hemoji e He). symmetry. exact He.
Defined.

Lemma activeRental_snoc_free (R : list Rental.t) r a :
  Rental.assetId r = Asset.id a → notReturned r →
  activeRentals (Asset.id a) R = [] →
  Dashboard.activeRental (R ++ [r]) a = Some r.
Proof.
  intros Hid Hnr Hfree. unfold Dashboard.activeRental.
  apply firstActive_None_iff in Hfree.
  by rewrite (list_find_snoc_new _ _ r Hfree).
Qed.

(** X18: after a check-out of an asset without active rental (storage
    working) the dashboard shows the asset with the new rental as its
    active rental and offers "Check In"; the card reads "OVERDUE" at once
    when the expected check-in entered in the form is already past, and
    "Rented" otherwise. *)
Theorem dashboard_after_checkOut data uid w a :
  faults w = [] →
  Asset.id a = RentForm.assetId data →
  activeRentals (RentForm.assetId data) (rentalsOf w) = [] →
  let w' := exec (rentForm_submit data uid) w in
  Dashboard.activeRental (rentalsOf w') a
  = Some (rentalOfForm data uid (clock w))
  ∧ rentBtn (rentalsOf w') a = BtnReturn (Asset.id a)
  ∧ Dashboard.status (clock w') (rentalsOf w') a
    = (if bool_decide (RentForm.checkInAt data < clock w)%Z
       then "OVERDUE" else "Rented").
Proof.
  intros Hw Hid Hfree w'.
  destruct (rentForm_submit_ok data uid w Hw)
    as (wo & Hrun & (_ & Hck & _) & _ & HR & _).
  assert (Hw' : w' = wo) by (subst w'; unfold exec; by rewrite Hrun).
  clearbody w'. subst w'.
  assert (Hact : Dashboard.activeRental (rentalsOf wo) a
                 = Some (rentalOfForm data uid (clock w))).
  { rewrite HR. apply activeRental_snoc_free; [done|done|by rewrite Hid]. }
  split; [exact Hact|].
  unfold rentBtn, Dashboard.status, Dashboard.isOverdue. rewrite Hact, Hck.
  split; [done|]. simpl. by case_bool_decide.
Qed.

Lemma dashboard_after_checkOut_witness :
  faults demoWorld = []
  ∧ activeRentals (RentForm.assetId rentFree) (rentalsOf demoWorld) = []
  ∧ Asset.id demoExcavator2 = RentForm.assetId rentFree
  ∧ rentBtn (rentalsOf (exec (rentForm_submit rentFree "h2j4k6l8") demoWorld))
      demoExcavator2
    = BtnReturn (Asset.id demoExcavator2).
Proof.
  split; [by vm_compute|]. split; [by vm_compute|]. split; [reflexivity|].
  destruct (dashboard_after_checkOut rentFree "h2j4k6l8" demoWorld demoExcavator2)
    as (_ & H & _); [by vm_compute|reflexivity|by vm_compute|exact H].
Defined.



(* ------------------------------------------------------------------ *)
(** ** Rental links and the router *)
(* ------------------------------------------------------------------ *)

Lemma encode_char_cases c :
  (uriUnreserved c = true ∧ querySafe c = true ∧ c ≠ "%"%char)
  ∨ (uriUnreserved c = false
     ∧ querySafe (hexDigit (nat_of_ascii c / 16)) = true
     ∧ querySafe (hexDigit (nat_of_ascii c mod 16)) = true
     ∧ hexValue (hexDigit (nat_of_ascii c / 16)) = Some (nat_of_ascii c / 16)
     ∧ hexValue (hexDigit (nat_of_ascii c mod 16)) = Some (nat_of_ascii c mod 16)
     ∧ ascii_of_nat (16 * (nat_of_ascii c / 16) + nat_of_ascii c mod 16) = c).
Proof.
  destruct c as [[] [] [] [] [] [] [] []];
    first [left; by vm_compute | right; by vm_compute].
Qed.

Lemma encode_querySafe s : allChars querySafe (encodeURIComponent s) = true.
Proof.
  induction s as [|c s IH]; [done|]. cbn [encodeURIComponent].
  destruct (encode_char_cases c) as [(-> & Hs & _)|(-> & H1 & H2 & _)];
    cbn [allChars].
  - by rewrite Hs, IH.
  - by rewrite H1, H2, IH.
Qed.

Lemma plusToSpace_safe s : allChars querySafe s = true → plusToSpace s = s.
Proof.
  induction s as [|c s IH]; [done|]. simpl.
  intros [Hc Hs]%andb_true_iff. rewrite (IH Hs).
  rewrite bool_decide_eq_false_2; [done|]. intros ->. by vm_compute in Hc.
Qed.

Lemma percentDecode_encode s : percentDecode (encodeURIComponent s) = s.
Proof.
  induction s as [|c s IH]; [done|]. cbn [encodeURIComponent].
  destruct (encode_char_cases c)
    as [(-> & _ & Hne)|(-> & _ & _ & H1 & H2 & Hc)].
  - cbn [percentDecode]. rewrite bool_decide_eq_false_2 by done. by rewrite IH.
  - cbn [percentDecode]. rewrite bool_decide_eq_true_2 by done.
    by rewrite H1, H2, Hc, IH.
Qed.

(** X20: [encodeURIComponent] output is safe inside a query string (it
    contains none of [?], [&], [=], [+], [#] or a space), and the decoding
    [URLSearchParams] applies to a value gives the original string back. *)
Theorem encodeURIComponent_roundtrip s :
  allChars querySafe (encodeURIComponent s) = true
  ∧ URLSearchParams.decode (encodeURIComponent s) = s.
Proof.
  split; [apply encode_querySafe|]. unfold URLSearchParams.decode.
  rewrite plusToSpace_safe by apply encode_querySafe.
  apply percentDecode_encode.
Qed.


Lemma split_char_absent sep s :
  allChars (λ c, negb (bool_decide (c = sep))) s = true →
  split_char sep s = [s].
Proof.
  induction s as [|c s IH]; [done|]. simpl.
  intros [Hc Hs]%andb_true_iff. rewrite (IH Hs).
  apply negb_true_iff in Hc. by rewrite Hc.
Qed.

Lemma querySafe_not c sep :
  sep ∈ ["?"; "&"; "="; "+"; "#"; " "]%char →
  querySafe c = true → negb (bool_decide (c = sep)) = true.
Proof.
  intros Hsep Hc. apply negb_true_iff, bool_decide_eq_false_2. intros ->.
  unfold querySafe in Hc. apply negb_true_iff, bool_decide_eq_false_1 in Hc.
  done.
Qed.

Lemma allChars_impl (p q : ascii → bool) s :
  (∀ c, p c = true → q c = true) → allChars p s = true → allChars q s = true.
Proof.
  intros Hpq. induction s as [|c s IH]; [done|]. simpl.
  intros [Hc Hs]%andb_true_iff. by rewrite (Hpq c Hc), IH.
Qed.

Lemma allChars_app p s1 s2 :
  allChars p (s1 +:+ s2) = allChars p s1 && allChars p s2.
Proof.
  induction s1 as [|c s1 IH]; [done|]. simpl. by rewrite IH, andb_assoc.
Qed.

Lemma split_char_prefix sep p s :
  allChars (λ c, negb (bool_decide (c = sep))) p = true →
  split_char sep (p +:+ String sep s) = p :: split_char sep s.
Proof.
  induction p as [|c p IH]; simpl.
  - intros _. by rewrite bool_decide_eq_true_2.
  - intros [Hc Hp]%andb_true_iff. rewrite (IH Hp).
    apply negb_true_iff in Hc. by rewrite Hc.
Qed.

Lemma encode_absent sep s :
  sep ∈ ["?"; "&"; "="; "+"; "#"; " "]%char →
  allChars (λ c, negb (bool_decide (c = sep))) (encodeURIComponent s) = true.
Proof.
  intros Hsep. eapply allChars_impl; [|apply encode_querySafe].
  intros c. by apply querySafe_not.
Qed.

Lemma decode_encode s : URLSearchParams.decode (encodeURIComponent s) = s.
Proof.
  unfold URLSearchParams.decode.
  rewrite plusToSpace_safe by apply encode_querySafe.
  apply percentDecode_encode.
Qed.

Lemma splitNameValue_prefix n v :
  allChars (λ c, negb (bool_decide (c = "="%char))) n = true →
  splitNameValue (n +:+ String "="%char v) = (n, v).
Proof.
  induction n as [|c n IH]; simpl.
  - done.
  - intros [Hc Hn]%andb_true_iff. rewrite (IH Hn).
    apply negb_true_iff in Hc. by rewrite Hc.
Qed.

Lemma assetId_query_parses assetId :
  URLSearchParams.new ("assetId=" +:+ encodeURIComponent assetId)
  = [("assetId", assetId)].
Proof.
  change (URLSearchParams.new ("assetId=" +:+ encodeURIComponent assetId))
    with (URLSearchParams.parse ("assetId=" +:+ encodeURIComponent assetId)).
  unfold URLSearchParams.parse.
  rewrite split_char_absent; last first.
  { rewrite allChars_app, encode_absent by set_solver. done. }
  cbn [omap list_omap]. rewrite bool_decide_eq_false_2 by done.
  change ("assetId=" +:+ encodeURIComponent assetId)
    with ("assetId" +:+ String "="%char (encodeURIComponent assetId)).
  rewrite splitNameValue_prefix by done.
  by rewrite decode_encode.
Qed.

Lemma rentHash_parses assetId w :
  location_hash w = "#/rent?assetId=" +:+ encodeURIComponent assetId →
  parseHash w = (Ok ("#/rent", [("assetId", assetId)]), w).
Proof.
  intros Hh. unfold parseHash.
  rewrite (bind_run _ _ w (location_hash w) w) by done. rewrite Hh.
  rewrite bool_decide_eq_false_2 by done.
  change ("#/rent?assetId=" +:+ encodeURIComponent assetId)
    with ("#/rent" +:+ String "?"%char
            ("assetId=" +:+ encodeURIComponent assetId)).
  rewrite split_char_prefix by done.
  rewrite split_char_absent; last first.
  { rewrite allChars_app, encode_absent by set_solver. done. }
  cbn [lookup list_lookup default from_option id].
  unfold ret. by rewrite assetId_query_parses.
Qed.

(** X21: a rental link round-trips through the router: when the page is
    opened at the link [makeAssetRentLink] builds for an asset id, whatever
    characters the id contains, [parseHash] yields the path '#/rent' and
    parameters whose only entry is assetId with exactly that id. *)
Theorem rentLink_roundtrip assetId w :
  ∃ params,
    outcome parseHash (exec (navigate (URL_hash (makeAssetRentLink assetId))) w)
    = Ok ("#/rent", params)
    ∧ URLSearchParams.get "assetId" params = Some assetId
    ∧ length params = 1.
Proof.
  exists [("assetId", assetId)]. split; [|done]. unfold outcome.
  by rewrite (rentHash_parses assetId).
Qed.

Lemma parseHash_run w :
  ∃ path params, parseHash w = (Ok (path, params), w)
    ∧ (location_hash w = EmptyString → path = "#/dashboard").
Proof.
  unfold parseHash. rewrite (bind_run _ _ w (location_hash w) w) by done.
  eexists _, _. split; [reflexivity|]. by intros ->.
Qed.

Lemma renderRentForm_value params w :
  faults w = [] →
  renderRentForm params w
  = (Ok (RentFormView.mk
           (default EmptyString (URLSearchParams.get "assetId" params))
           (snd <$> list_find
                      (hasId (default EmptyString
                                (URLSearchParams.get "assetId" params)))
                      (assetsOf w))
           (map (λ a, RentFormView.mkOption (Asset.id a) (Asset.name a)
                        (match snd <$> list_find
                                 (hasId (default EmptyString
                                           (URLSearchParams.get "assetId" params)))
                                 (assetsOf w) with
                         | Some x => bool_decide (Asset.id a = Asset.id x)
                         | None => false
                         end)) (assetsOf w))), w).
Proof.
  intros Hw. unfold renderRentForm.
  rewrite (bind_run _ _ _ _ _ (getAssets_ok w Hw)).
  by rewrite (bind_run _ _ _ _ _ (getAssets_ok w Hw)).
Qed.

Lemma render_ok view params w :
  faults w = [] →
  ∃ page, render view params w = (Ok page, w)
    ∧ match view, page with
      | VDashboard, PageDashboard _ => True
      | VRent, PageRentForm _ => True
      | VHistory, PageHistory _ => True
      | _, _ => False
      end.
Proof.
  intros Hw. destruct view; simpl.
  - rewrite (bind_run _ _ _ _ _ (renderDashboard_value w Hw)). by eexists.
  - rewrite (bind_run _ _ _ _ _ (renderRentForm_value params w Hw)). by eexists.
  - destruct (renderRentalHistory_value w Hw) as (entries & Hh & _).
    rewrite (bind_run _ _ _ _ _ Hh). by eexists.
Qed.

Lemma routes_lookup path :
  routes !! path
  = if decide (path = "#/history") then Some VHistory
    else if decide (path = "#/rent") then Some VRent
    else if decide (path = "#/dashboard") then Some VDashboard
    else None.
Proof.
  unfold routes, registerRoute. rewrite !lookup_insert, lookup_empty.
  repeat case_decide; congruence.
Qed.

(** X22: routing (storage working) renders the rental form on '#/rent',
    the history on '#/history' and the dashboard on every other path,
    known or not, and on an empty hash; it highlights the one navigation
    link of a known path and none at all on an unknown path, although the
    dashboard is shown; it leaves the store as it was. *)
Theorem handleRoute_falls_back_to_dashboard w :
  faults w = [] →
  ∃ path params page,
    parseHash w = (Ok (path, params), w)
    ∧ handleRoute w = (Ok (page, highlightNav path), w)
    ∧ (location_hash w = EmptyString → path = "#/dashboard")
    ∧ match page with
      | PageRentForm _ => path = "#/rent"
      | PageHistory _ => path = "#/history"
      | PageDashboard _ => path ≠ "#/rent" ∧ path ≠ "#/history"
      end
    ∧ (path ∉ ["#/dashboard"; "#/rent"; "#/history"] → highlightNav path = [])
    ∧ (path ∈ ["#/dashboard"; "#/rent"; "#/history"] →
       length (highlightNav path) = 1).
Proof.
  intros Hw. destruct (parseHash_run w) as (path & params & Hparse & Hempty).
  unfold handleRoute. rewrite (bind_run _ _ _ _ _ Hparse). cbn beta iota.
  rewrite !routes_lookup. simpl.
  assert (Hnav1 : path ∉ ["#/dashboard"; "#/rent"; "#/history"] →
                  highlightNav path = []).
  { intros Hnot. unfold highlightNav.
    rewrite !bool_decide_eq_false_2; [done|..]; intros ->; apply Hnot;
      by repeat constructor. }
  assert (Hnav2 : path ∈ ["#/dashboard"; "#/rent"; "#/history"] →
                  length (highlightNav path) = 1).
  { intros Hin. repeat (apply elem_of_cons in Hin as [->|Hin]); [done..|].
    by apply elem_of_nil in Hin. }
  destruct (decide (path = "#/history")) as [->|Hh].
  - destruct (render_ok VHistory params w Hw) as ([| |h] & Hr & Hkind); try done.
    rewrite (bind_run _ _ _ _ _ Hr). by eexists _, _, _.
  - destruct (decide (path = "#/rent")) as [->|Hr'].
    + destruct (render_ok VRent params w Hw) as ([|f|] & Hr & Hkind); try done.
      rewrite (bind_run _ _ _ _ _ Hr). by eexists _, _, _.
    + destruct (render_ok VDashboard params w Hw) as ([d| |] & Hr & Hkind);
        try done.
      destruct (decide (path = "#/dashboard")) as [->|Hd];
        rewrite (bind_run _ _ _ _ _ Hr); by eexists _, _, _.
Qed.

Lemma handleRoute_falls_back_to_dashboard_witness :
  faults (exec (navigate "#/settings?assetId=exc-320-1") demoWorld) = []
  ∧ ∃ d, handleRoute (exec (navigate "#/settings?assetId=exc-320-1") demoWorld)
         = (Ok (PageDashboard d, []),
            exec (navigate "#/settings?assetId=exc-320-1") demoWorld).
Proof.
  split; [by vm_compute|].
  destruct (handleRoute_falls_back_to_dashboard
              (exec (navigate "#/settings?assetId=exc-320-1") demoWorld))
    as (path & params & page & Hparse & Hroute & _ & Hpage & Hnav & _);
    [by vm_compute|].
  assert (Hpath : path = "#/settings").
  { unfold parseHash in Hparse.
    erewrite bind_run in Hparse by reflexivity.
    vm_compute in Hparse. by injection Hparse as <- _. }
  subst path. rewrite Hnav in Hroute.
  - destruct page as [d|f|h]; [by exists d|discriminate Hpage|discriminate Hpage].
  - intros Hin. repeat (apply elem_of_cons in Hin as [Heq|Hin]);
      [discriminate Heq..|by apply elem_of_nil in Hin].
Defined.

Lemma unique_id (A : list Asset.t) a a0 :
  NoDup (map Asset.id A) → a ∈ A → a0 ∈ A → Asset.id a0 = Asset.id a → a0 = a.
Proof.
  intros Hnd (i & Hi)%list_elem_of_lookup (j & Hj)%list_elem_of_lookup Hid.
  assert (j = i) as ->; [|congruence].
  apply (NoDup_lookup (map Asset.id A) j i (Asset.id a)); [done|..].
  - by rewrite list_lookup_fmap, Hj; simpl; rewrite Hid.
  - by rewrite list_lookup_fmap, Hi.
Qed.

Lemma unique_id_count (A : list Asset.t) k :
  NoDup (map Asset.id A) → k ∈ map Asset.id A →
  length (filter (hasId k) A) = 1.
Proof.
  induction A as [|x A IH]; simpl; [by intros _ ?%elem_of_nil|].
  intros [Hnotin Hnd]%NoDup_cons Hk. rewrite filter_cons.
  destruct (decide (hasId k x)) as [Hx|Hx].
  - simpl. f_equal. unfold hasId in Hx. subst k.
    destruct (filter (hasId (Asset.id x)) A) as [|y l] eqn:Hf; [done|].
    exfalso. apply Hnotin.
    assert (Hy : y ∈ filter (hasId (Asset.id x)) A) by (rewrite Hf; left).
    apply list_elem_of_filter in Hy as [Hy Hin]. rewrite <- Hy.
    apply list_elem_of_fmap. by exists y.
  - apply IH; [done|]. apply elem_of_cons in Hk as [Hk|Hk]; [|done].
    by destruct Hx.
Qed.

Lemma selected_count k (A : list Asset.t) :
  length (filter (λ o, RentFormView.selected o = true)
            (map (λ a', RentFormView.mkOption (Asset.id a') (Asset.name a')
                          (bool_decide (Asset.id a' = k))) A))
  = length (filter (hasId k) A).
Proof.
  induction A as [|x A IH]; [done|]. simpl. rewrite !filter_cons. simpl.
  unfold hasId at 1.
  destruct (decide (Asset.id x = k)) as [Hx|Hx].
  - rewrite bool_decide_eq_true_2 by done. rewrite decide_True by done.
    simpl. by rewrite IH.
  - rewrite bool_decide_eq_false_2 by done. rewrite decide_False by done.
    exact IH.
Qed.

(** X23: following the "Check Out" link of a dashboard card (storage
    working, asset ids unique) opens the rental form with exactly that
    asset preselected, whatever characters its id contains: the form has
    one option per asset, and the one selected option is the card's asset. *)
Theorem checkOut_link_preselects_asset w a href :
  faults w = [] →
  NoDup (map Asset.id (assetsOf w)) →
  a ∈ assetsOf w →
  rentBtn (rentalsOf w) a = LinkCheckOut href →
  ∃ f, outcome (navigate href ≫= λ _, handleRoute) w
       = Ok (PageRentForm f, ["nav-rent"])
    ∧ RentFormView.asset f = Some a
    ∧ RentFormView.options f
      = map (λ a', RentFormView.mkOption (Asset.id a') (Asset.name a')
                     (bool_decide (Asset.id a' = Asset.id a))) (assetsOf w)
    ∧ length (filter (λ o, RentFormView.selected o = true)
                (RentFormView.options f)) = 1.
Proof.
  intros Hw Hnd Ha Hbtn. unfold rentBtn in Hbtn.
  destruct (Dashboard.activeRental (rentalsOf w) a); [discriminate Hbtn|].
  injection Hbtn as <-.
  set (w1 := exec (navigate ("#/rent?assetId=" +:+ encodeURIComponent (Asset.id a))) w).
  assert (Hw1 : faults w1 = []) by exact Hw.
  assert (HA1 : assetsOf w1 = assetsOf w) by reflexivity.
  assert (Hparse : parseHash w1 = (Ok ("#/rent", [("assetId", Asset.id a)]), w1))
    by (by apply rentHash_parses).
  assert (Hfind : snd <$> list_find (hasId (Asset.id a)) (assetsOf w) = Some a).
  { destruct (list_find_elem_of (hasId (Asset.id a)) (assetsOf w) a Ha eq_refl)
      as [[i a0] Hfind].
    rewrite Hfind. simpl. f_equal.
    apply list_find_Some in Hfind as (Hi & Hid & _).
    eapply unique_id; [done..| |done]. by eapply list_elem_of_lookup_2. }
  eexists. split; [|split_and!].
  - unfold outcome. rewrite (bind_run _ _ w tt w1) by done.
    unfold handleRoute. rewrite (bind_run _ _ _ _ _ Hparse). cbn beta iota.
    rewrite routes_lookup, decide_False, decide_True by done.
    cbn [render].
    erewrite (bind_run _ _ w1 _ w1); last first.
    { by rewrite (bind_run _ _ _ _ _ (renderRentForm_value _ w1 Hw1)). }
    reflexivity.
  - simpl. by rewrite HA1.
  - simpl. rewrite HA1. simpl in Hfind. by rewrite Hfind.
  - simpl. rewrite HA1. simpl in Hfind. rewrite Hfind.
    rewrite selected_count. apply unique_id_count; [done|].
    apply list_elem_of_fmap. by exists a.
Qed.

Lemma checkOut_link_preselects_asset_witness :
  faults demoWorld = []
  ∧ NoDup (map Asset.id (assetsOf demoWorld))
  ∧ demoExcavator2 ∈ assetsOf demoWorld
  ∧ rentBtn (rentalsOf demoWorld) demoExcavator2
    = LinkCheckOut "#/rent?assetId=exc-320-2"
  ∧ ∃ f, outcome (navigate "#/rent?assetId=exc-320-2" ≫= λ _, handleRoute)
           demoWorld
         = Ok (PageRentForm f, ["nav-rent"])
      ∧ RentFormView.asset f = Some demoExcavator2.
Proof.
  assert (Hnd : NoDup (map Asset.id (assetsOf demoWorld)))
    by (refine (bool_decide_unpack _ _); by vm_compute).
  assert (Ha : demoExcavator2 ∈ assetsOf demoWorld)
    by (apply (list_elem_of_lookup_2 _ 1); by vm_compute).
  assert (Hbtn : rentBtn (rentalsOf demoWorld) demoExcavator2
                 = LinkCheckOut "#/rent?assetId=exc-320-2") by (by vm_compute).
  split; [by vm_compute|]. split; [exact Hnd|]. split; [exact Ha|].
  split; [exact Hbtn|].
  destruct (checkOut_link_preselects_asset demoWorld demoExcavator2
              "#/rent?assetId=exc-320-2")
    as (f & H1 & H2 & _); [by vm_compute|exact Hnd|exact Ha|exact Hbtn|].
  exists f. by split.
Defined.
